(** * product-id: the libdnf plugin that keeps product certificates in step
      with the active repositories

    A shallow embedding of [src/dnf-plugins/product-id/product-id.c] and the
    properties of it that the specification states.

    Conventions of the embedding:
    - a C [int] or [gboolean] is a [Z] ([TRUE] is 1, [FALSE] is 0, and a C
      condition [if (x)] is [x ≠ 0]);
    - a C string (file name, repository id, NEVRA, OID text) is a [string];
      the content of a [GString] that holds file data is a [list byte];
    - a [GPtrArray] is a [list]; the hash table of the product database is a
      [gmap];
    - the libraries the plugin calls (zlib, OpenSSL, libdnf, librepo, the
      file system) are modelled by the state they expose to the plugin;
    - every function returns, next to its C result, the list of [event]s it
      caused: the log lines and the calls into the outside world, in order. *)

From Stdlib Require Import ZArith Lia.
From Stdlib.Strings Require Import Byte.
From Stdlib.Strings Require Import Ascii.
From stdpp Require Import gmap strings list fin_maps pretty.

Set Warnings "-clear-no-such-hyp".

Local Open Scope Z_scope.

(** ** C and GLib basics *)

Definition TRUE : Z := 1.
Definition FALSE : Z := 0.

(** The content of a [GString]. *)
Abbreviation GString := (list byte).

(** The bytes a ["%s"] conversion prints from a buffer: everything before the
    first NUL byte. *)
Fixpoint c_str (buffer : list byte) : list byte :=
  match buffer with
  | [] => []
  | b :: rest => if Byte.eqb b x00 then [] else b :: c_str rest
  end.

(** [g_string_printf(string, "%s", buffer)]: the previous content of [string]
    is discarded and replaced by the formatted text. *)
Definition g_string_printf_s (string : GString) (buffer : list byte)
    : GString :=
  c_str buffer.

(** The constants of [product-id.h], which is not part of the sources at hand:
    they are parameters of the development. *)
Class ProductIdH := {
  CHUNK : Z;
  MAX_BUFF : Z;
  REDHAT_PRODUCT_OID : string;
  PRODUCT_CERT_DIR : string;
  PRODUCTDB_DIR : string;
  PRODUCTDB_FILE : string
}.

(** Values of the kind a build of the plugin uses; the closed examples below
    are evaluated with them. *)
Definition sample_header : ProductIdH := {|
  CHUNK := 16384;
  MAX_BUFF := 256;
  REDHAT_PRODUCT_OID := "1.3.6.1.4.1.2312.9.1";
  PRODUCT_CERT_DIR := "/etc/pki/product/";
  PRODUCTDB_DIR := "/var/lib/rhsm/";
  PRODUCTDB_FILE := "/var/lib/rhsm/productid.js"
|}.

(** ** Events *)

Inductive level := LDebug | LInfo | LWarn | LError.

Inductive event :=
  (** a line written by the logging macros of [util.h]: level, format string
      of the source, string arguments *)
  | Log (lvl : level) (fmt : string) (args : list string)
  (** [g_mkdir_with_parents(path, mode)] *)
  | Mkdir (path : string)
  (** [dnf_context_get_repos] *)
  | GetRepos
  (** [fetchProductId] for the repository with this id *)
  | Fetch (repo : string)
  (** the query for the installed packages was run *)
  | QueryInstalled
  (** the query for the packages of the repository at index [i] was run *)
  | QueryAvailable (i : nat) (repo : string)
  (** [g_strcmp0] of available package [j] of repository [i] with installed
      package [k] *)
  | Compare (i j k : nat)
  (** [gzopen(path, "r")] *)
  | GzOpen (path : string)
  (** [fopen(path, "w+")] *)
  | FOpen (path : string)
  (** [g_dir_open(path, ...)] *)
  | DirOpen (path : string)
  (** [g_remove(path)] *)
  | Remove (path : string)
  (** [addRepoId(productDb, productId, repoId)] *)
  | AddRepoId (productId repoId : string)
  (** [writeProductDb] *)
  | DbWrite (path : string).

Global Instance level_eq_dec : EqDecision level.
Proof. solve_decision. Defined.

Global Instance event_eq_dec : EqDecision event.
Proof. solve_decision. Defined.

(** ** GLib string functions *)

(** [g_str_has_prefix(str, prefix)] *)
Definition g_str_has_prefix (str prefix : string) : bool :=
  String.prefix prefix str.

(** [g_str_has_suffix(str, suffix)] *)
Definition g_str_has_suffix (str suffix : string) : bool :=
  let str_len := String.length str in
  let suffix_len := String.length suffix in
  if (str_len <? suffix_len)%nat then false
  else
    String.eqb (String.substring (str_len - suffix_len) suffix_len str)
      suffix.

(** [g_strndup(str, n)]: the first [n] characters of [str]. *)
Definition g_strndup (str : string) (n : nat) : string :=
  String.substring 0 n str.

(** [g_ascii_isdigit(c)] *)
Definition g_ascii_isdigit (c : ascii) : bool :=
  ((48 <=? N_of_ascii c) && (N_of_ascii c <=? 57))%N.

(** [g_strcmp0(str1, str2)]: negative, zero or positive as [strcmp]. *)
Definition g_strcmp0 (str1 str2 : string) : Z :=
  match String.compare str1 str2 with
  | Eq => 0
  | Lt => -1
  | Gt => 1
  end.

(** The first token of [s] and the tokens after it, cut at every [delim]. *)
Fixpoint strsplit_tokens (delim : ascii) (s : string) : string * list string :=
  match s with
  | EmptyString => (EmptyString, [])
  | String c s' =>
      let '(token, tokens) := strsplit_tokens delim s' in
      if Ascii.eqb c delim then (EmptyString, token :: tokens)
      else (String c token, tokens)
  end.

(** [g_strsplit(string, delimiter, -1)] for a delimiter of one character.
    Splitting the empty string gives the empty vector. *)
Definition g_strsplit (s : string) (delimiter : ascii) : list string :=
  match s with
  | EmptyString => []
  | _ => let '(token, tokens) := strsplit_tokens delimiter s in token :: tokens
  end.

(** ** zlib: a file opened for reading with [gzopen] *)

Module Zlib.

Definition Z_STREAM_ERROR : Z := -2.
Definition Z_BUF_ERROR : Z := -5.

(** How a gzip stream ends once its bytes are delivered: as it should; with
    the file ending in the middle of the stream; or with an error of the
    decoder, which has a negative code. *)
Inductive gz_ending :=
  | Complete
  | Truncated
  | Fault (code : positive).

(** The state of a [gzFile] open for reading.
    - [gz_rest]: the uncompressed bytes the stream still delivers;
    - [gz_end]: how the stream ends once [gz_rest] is used up;
    - [gz_past]: a read has tried to go past the end of the file;
    - [gz_err]: the error code of the last operation, 0 ([Z_OK]) if none. *)
Record gzFile := {
  gz_rest : list byte;
  gz_end : gz_ending;
  gz_past : bool;
  gz_err : Z
}.

(** A file as [gzopen] returns it. *)
Definition opened (data : list byte) (ending : gz_ending) : gzFile :=
  {| gz_rest := data; gz_end := ending; gz_past := false; gz_err := 0 |}.

(** [gzread(file, buf, len)]: the number of uncompressed bytes read, less
    than [len] at the end of the file, or -1 for an error; the bytes stored
    at the start of [buf]; the new state. A file that ends in the middle of
    the stream gives the bytes there are and no -1: the end of the file is
    marked and the error code set to [Z_BUF_ERROR], which does not stop
    later reads. A read that meets an error of the decoder returns -1 and
    not the count of the bytes it has stored in [buf] before the error: these
    bytes are in [buf] all the same. *)
Definition gzread (file : gzFile) (len : Z) : Z * list byte * gzFile :=
  if len <? 0 then
    (-1, [], {| gz_rest := gz_rest file; gz_end := gz_end file;
                gz_past := gz_past file; gz_err := Z_STREAM_ERROR |})
  else if negb (gz_err file =? 0) && negb (gz_err file =? Z_BUF_ERROR) then
    (-1, [], file)
  else if len <=? Z.of_nat (length (gz_rest file)) then
    (len, take (Z.to_nat len) (gz_rest file),
     {| gz_rest := drop (Z.to_nat len) (gz_rest file);
        gz_end := gz_end file; gz_past := gz_past file;
        gz_err := gz_err file |})
  else
    match gz_end file with
    | Complete =>
        (Z.of_nat (length (gz_rest file)), gz_rest file,
         {| gz_rest := []; gz_end := Complete; gz_past := true;
            gz_err := gz_err file |})
    | Truncated =>
        (Z.of_nat (length (gz_rest file)), gz_rest file,
         {| gz_rest := []; gz_end := Truncated; gz_past := true;
            gz_err := Z_BUF_ERROR |})
    | Fault code =>
        (-1, gz_rest file,
         {| gz_rest := []; gz_end := Fault code;
            gz_past := gz_past file; gz_err := Z.neg code |})
    end.

(** [gzeof(file)] *)
Definition gzeof (file : gzFile) : bool := gz_past file.

(** [gzerror(file, &errnum)]: the value stored in [errnum]. *)
Definition gzerror (file : gzFile) : Z := gz_err file.

End Zlib.
Export Zlib.

(** ** OpenSSL: certificates and their extensions *)

Module OpenSSL.

(** An object identifier: its arcs. *)
Abbreviation ASN1_OBJECT := (list N).

Record X509_EXTENSION := { ext_object : ASN1_OBJECT }.

Record X509 := { x509_extensions : list X509_EXTENSION }.

Definition X509_get_ext_count (x : X509) : Z :=
  Z.of_nat (length (x509_extensions x)).

(** [X509_get_ext(x, loc)], [None] for [NULL]. *)
Definition X509_get_ext (x : X509) (loc : nat) : option X509_EXTENSION :=
  x509_extensions x !! loc.

Definition X509_EXTENSION_get_object (ex : X509_EXTENSION) : ASN1_OBJECT :=
  ext_object ex.

(** The numerical form of an object identifier: its arcs in decimal, joined
    by dots. *)
Definition numerical_form (a : ASN1_OBJECT) : string :=
  String.concat "." (map pretty a).

(** [OBJ_obj2txt(buf, buf_len, a, 1)]: the numerical form of [a] written to
    [buf], cut so that it fits [buf_len] bytes with its terminator. *)
Definition OBJ_obj2txt (buf_len : Z) (a : ASN1_OBJECT) : string :=
  String.substring 0 (Z.to_nat (buf_len - 1)) (numerical_form a).

(** Reading a certificate from memory is OpenSSL's business: the plugin sees
    whether [BIO_new_mem_buf] gave a buffer and what [PEM_read_bio_X509]
    made of its content ([None] for [NULL]). *)
Class Pem := {
  BIO_new_mem_buf : list byte -> option (list byte);
  PEM_read_bio_X509 : list byte -> option X509
}.

End OpenSSL.
Export OpenSSL.

(** ** The product database *)

(** Modelled from the spec: [productdb.c], with [initProductDb],
    [hasProductId], [addRepoId] and [writeProductDb], is not among the
    sources. The specification describes the database as a mapping from a
    product id to the set of the ids of the repositories that supply it,
    constructed empty, with keys unique; [has] tells whether a product id has
    an entry and [add] unions a repository id into the set of a product id. *)
Record ProductDb := {
  path : string;
  repoMap : gmap string (gset string)
}.

(** Modelled from the spec: a database is constructed empty. *)
Definition initProductDb : ProductDb :=
  {| path := EmptyString; repoMap := ∅ |}.

(** Modelled from the spec: [has(database, product_id)]. *)
Definition hasProductId (productDb : ProductDb) (productId : string) : bool :=
  bool_decide (is_Some (repoMap productDb !! productId)).

(** Modelled from the spec: [add(database, product_id, repo_id)], idempotent,
    a new repository id is united with the set the product id has. *)
Definition addRepoId (productDb : ProductDb) (productId repoId : string)
    : ProductDb :=
  {| path := path productDb;
     repoMap := <[productId :=
                   {[repoId]} ∪ default ∅ (repoMap productDb !! productId)]>
                (repoMap productDb) |}.

(** ** The world around the plugin *)

(** The directory of the product certificates, [PRODUCT_CERT_DIR].
    - [cs_dir]: its files by name with their content, [None] when the
      directory does not exist;
    - [cs_creatable]: whether the directory can be created;
    - [cs_unwritable]: the names that [fopen] cannot open for writing;
    - [cs_frozen]: the names that [g_remove] cannot remove;
    - [cs_errno]: the value of [errno] found when the listing of the
      directory comes to its end. *)
Record CertStore := {
  cs_dir : option (gmap string (list byte));
  cs_creatable : bool;
  cs_unwritable : gset string;
  cs_frozen : gset string;
  cs_errno : Z
}.

Definition ENODATA : Z := 61.
Definition EEXIST : Z := 17.

(** A package of a sack: its name-epoch-version-release-architecture string
    and the name of the repository it is in. *)
Record DnfPackage := {
  pkg_nevra : string;
  pkg_reponame : string
}.

Definition dnf_package_get_nevra (pkg : DnfPackage) : string := pkg_nevra pkg.

Definition HY_SYSTEM_REPO_NAME : string := "@System".

(** What [lr_result_getinfo(lrResult, &err, LRR_YUM_REPOMD, &repoMd)] gives
    for a repository: an error, no [repoMd], or a [repoMd] that has or has
    not a record of type productid. *)
Inductive RepoMd :=
  | MdError
  | MdNull
  | MdRecords (productid : bool).

(** A repository of libdnf.
    - [repo_enabled]: the bits of [dnf_repo_get_enabled];
    - [repo_fetch]: the outcome of the download [fetchProductId] performs
      through librepo, the local path of the productid file when it
      succeeds. *)
Record DnfRepo := {
  repo_id : string;
  repo_enabled : Z;
  repo_md : RepoMd;
  repo_fetch : option string
}.

Definition dnf_repo_get_id (repo : DnfRepo) : string := repo_id repo.
Definition dnf_repo_get_enabled (repo : DnfRepo) : Z := repo_enabled repo.
Definition DNF_REPO_ENABLED_PACKAGES : Z := 1.

(** The context of libdnf: its repositories ([None] for [NULL]), the packages
    of its sack, the cache-only flag. *)
Record DnfContext := {
  ctx_repos : option (list DnfRepo);
  ctx_sack : list DnfPackage;
  ctx_cache_only : bool
}.

(** The rpm database as a fresh sack sees it: whether [dnf_sack_new] gives a
    sack, whether [dnf_sack_setup] succeeds, and the installed packages that
    [dnf_sack_load_system_repo] loads ([None] when it fails). *)
Record RpmDb := {
  rpmdb_new : bool;
  rpmdb_setup : bool;
  rpmdb_system : option (list string)
}.

(** The state outside the plugin.
    - [w_productdb_dir]: [g_mkdir_with_parents(PRODUCTDB_DIR, 0750)]
      succeeds;
    - [w_gz]: the compressed files by path, each with its uncompressed
      content and the ending of its stream, as [installProductId] finds
      them: the productid files that the downloads of the pass have put in
      the caches of the repositories are among them;
    - [w_certs]: the directory of the product certificates;
    - [w_db_file]: the mapping persisted in [PRODUCTDB_FILE], [None] when the
      file does not exist;
    - [w_db_writable]: [writeProductDb] succeeds;
    - [w_rpmdb]: the rpm database. *)
Record World := {
  w_productdb_dir : bool;
  w_gz : gmap string (list byte * gz_ending);
  w_certs : CertStore;
  w_db_file : option (gmap string (gset string));
  w_db_writable : bool;
  w_rpmdb : RpmDb
}.

Definition set_certs (w : World) (cs : CertStore) : World :=
  {| w_productdb_dir := w_productdb_dir w; w_gz := w_gz w; w_certs := cs;
     w_db_file := w_db_file w; w_db_writable := w_db_writable w;
     w_rpmdb := w_rpmdb w |}.

Definition set_db_file (w : World) (m : gmap string (gset string)) : World :=
  {| w_productdb_dir := w_productdb_dir w; w_gz := w_gz w;
     w_certs := w_certs w; w_db_file := Some m;
     w_db_writable := w_db_writable w; w_rpmdb := w_rpmdb w |}.

(** [gzopen(path, "r")], [None] for [NULL]. *)
Definition gzopen (w : World) (path : string) : option gzFile :=
  match w_gz w !! path with
  | Some (data, ending) => Some (opened data ending)
  | None => None
  end.

(** [g_mkdir_with_parents(PRODUCT_CERT_DIR, 0775)] *)
Definition mkdir_certs (cs : CertStore) : Z * CertStore :=
  match cs_dir cs with
  | Some _ => (0, cs)
  | None =>
      if cs_creatable cs then
        (0, {| cs_dir := Some ∅; cs_creatable := cs_creatable cs;
               cs_unwritable := cs_unwritable cs;
               cs_frozen := cs_frozen cs; cs_errno := cs_errno cs |})
      else (-1, cs)
  end.

(** [fopen(PRODUCT_CERT_DIR name, "w+")] followed by
    [fprintf(file, "%s", content)] and [fclose]: [None] when the file cannot
    be opened. *)
Definition write_cert (cs : CertStore) (name : string) (content : list byte)
    : option CertStore :=
  match cs_dir cs with
  | Some files =>
      if bool_decide (name ∈ cs_unwritable cs) then None
      else Some {| cs_dir := Some (<[name := c_str content]> files);
                   cs_creatable := cs_creatable cs;
                   cs_unwritable := cs_unwritable cs;
                   cs_frozen := cs_frozen cs; cs_errno := cs_errno cs |}
  | None => None
  end.

(** [g_remove(PRODUCT_CERT_DIR name)]: 0, or -1 when the file stays. Once a
    name is removed nothing is left of what kept [fopen] from opening it for
    writing. *)
Definition g_remove (cs : CertStore) (name : string) : Z * CertStore :=
  match cs_dir cs with
  | Some files =>
      if bool_decide (name ∈ cs_frozen cs) then (-1, cs)
      else if bool_decide (is_Some (files !! name)) then
        (0, {| cs_dir := Some (delete name files);
               cs_creatable := cs_creatable cs;
               cs_unwritable := cs_unwritable cs ∖ {[name]};
               cs_frozen := cs_frozen cs; cs_errno := cs_errno cs |})
      else (-1, cs)
  | None => (-1, cs)
  end.

(** [g_dir_open(PRODUCT_CERT_DIR, 0, &err)] and the names that the calls
    of [g_dir_read_name] then give, [None] when the directory cannot be
    opened. *)
Definition g_dir_open (cs : CertStore) : option (list string) :=
  match cs_dir cs with
  | Some files => Some (elements (dom files))
  | None => None
  end.

(** Modelled from the spec: [save(database, path)] writes the mapping to its
    persisted form; the result tells whether an error was set. *)
Definition writeProductDb (productDb : ProductDb) (w : World) : bool * World :=
  if w_db_writable w then (false, set_db_file w (repoMap productDb))
  else (true, w).

(** ** The functions of [product-id.c] *)

(** What a run of [decompress] leaves behind. *)
Record decompressed := {
  d_ret : Z;              (** the value returned *)
  d_output : GString;     (** the content of [output] *)
  d_input : gzFile;       (** the state of [input] *)
  d_nul : list Z;         (** the indices [bytes_read] of the stores
                              [buffer[bytes_read] = '\0'], in order *)
  d_log : list event
}.

(** What a run of [findProductId] leaves behind. *)
Record found := {
  f_ret : Z;              (** the value returned *)
  f_result : string;      (** the content of [result] *)
  f_log : list event
}.

(** A repository and the local path of its productid file. *)
Record RepoProductId := {
  repo : DnfRepo;
  productIdPath : string
}.

Inductive PluginMode := PLUGIN_MODE_CONTEXT.

Record PluginHandle := {
  version : Z;
  mode : PluginMode;
  initData : DnfContext
}.

Inductive PluginHookId :=
  | PLUGIN_HOOK_ID_CONTEXT_PRE_CONF
  | PLUGIN_HOOK_ID_CONTEXT_CONF
  | PLUGIN_HOOK_ID_CONTEXT_PRE_TRANSACTION
  | PLUGIN_HOOK_ID_CONTEXT_TRANSACTION
  | PLUGIN_HOOK_ID_CONTEXT_PRE_REPOS_RELOAD
  | PLUGIN_HOOK_ID_OTHER (id : Z).

Definition strHookId (id : PluginHookId) : string :=
  match id with
  | PLUGIN_HOOK_ID_CONTEXT_PRE_CONF => "CONTEXT_PRE_CONF"
  | PLUGIN_HOOK_ID_CONTEXT_CONF => "CONTEXT_CONF"
  | PLUGIN_HOOK_ID_CONTEXT_PRE_TRANSACTION => "PRE_TRANSACTION"
  | PLUGIN_HOOK_ID_CONTEXT_TRANSACTION => "CONTEXT_TRANSACTION"
  | PLUGIN_HOOK_ID_CONTEXT_PRE_REPOS_RELOAD => "CONTEXT_PRE_REPOS_RELOAD"
  | PLUGIN_HOOK_ID_OTHER _ => "UNKNOWN"
  end.

(** The test of [removeUnusedProductCerts] whether a string represents a
    number: the loop leaves at the first character that is no digit. *)
Fixpoint is_num (product_id : string) : bool :=
  match product_id with
  | EmptyString => true
  | String c rest => if g_ascii_isdigit c then is_num rest else false
  end.

(** [getEnabled]: the repositories enabled for packages are added to
    [enabledRepos]. *)
Fixpoint getEnabled (repos enabledRepos : list DnfRepo) : list DnfRepo :=
  match repos with
  | [] => enabledRepos
  | repo :: repos =>
      let enabled :=
        0 <? Z.land (dnf_repo_get_enabled repo) DNF_REPO_ENABLED_PACKAGES in
      if enabled then getEnabled repos (enabledRepos ++ [repo])
      else getEnabled repos enabledRepos
  end.

(** [fetchProductId]: the download is librepo's, and [repo_fetch] stands for
    its outcome, the local path exactly when [lr_handle_perform] succeeds
    and the information on the repository is read without error. Then the
    repository and the path are stored in [repoProductId] and 1 is
    returned; otherwise 0. The file that the download writes at the local
    path is not followed as a change of the world: [w_gz] holds the files as
    they are when the downloads are done, and nothing is stated below on
    what a download writes. *)
Definition fetchProductId (repo : DnfRepo)
    : Z * option RepoProductId * list event :=
  match repo_fetch repo with
  | Some local =>
      (1, Some {| repo := repo; productIdPath := local |},
       [Fetch (dnf_repo_get_id repo);
        Log LDebug "Product id cert downloaded metadata from repo %s to %s"
          [dnf_repo_get_id repo; local]])
  | None =>
      (0, None,
       [Fetch (dnf_repo_get_id repo);
        Log LError "Unable to download product certificate" []])
  end.

(** The loop of [getActive] over the installed packages, from index [k]:
    whether [pkg] was found. *)
Fixpoint find_installed (repo : DnfRepo) (i j k : nat) (pkg : DnfPackage)
    (installedPackages : list DnfPackage) : bool * list event :=
  match installedPackages with
  | [] => (false, [])
  | instPkg :: rest =>
      if g_strcmp0 (dnf_package_get_nevra pkg) (dnf_package_get_nevra instPkg)
         =? 0
      then
        (true,
         [Compare i j k;
          Log LDebug "Repo %s marked active due to installed package %s"
            [dnf_repo_get_id repo; dnf_package_get_nevra pkg]])
      else
        let '(package_found, log) := find_installed repo i j (S k) pkg rest in
        (package_found, Compare i j k :: log)
  end.

(** The loop of [getActive] over the packages available from a repository,
    from index [j]: whether the repository was added to the active ones. *)
Fixpoint scan_available (repo : DnfRepo) (i j : nat)
    (availPackageList installedPackages : list DnfPackage)
    : bool * list event :=
  match availPackageList with
  | [] => (false, [])
  | pkg :: rest =>
      let '(package_found, log) :=
        find_installed repo i j 0 pkg installedPackages in
      if package_found then (true, log)
      else
        let '(added, log') :=
          scan_available repo i (S j) rest installedPackages in
        (added, log ++ log')
  end.

(** The query for the packages of a sack that are in the repository
    [reponame]. *)
Definition hy_query_run (sack : list DnfPackage) (reponame : string)
    : list DnfPackage :=
  filter (λ pkg, pkg_reponame pkg = reponame) sack.

(** The loop of [getActive] over [repoAndProductIds], from index [i]. *)
Fixpoint scan_repos (dnfSack : list DnfPackage) (i : nat)
    (repoAndProductIds : list RepoProductId)
    (installedPackages : list DnfPackage)
    (activeRepoAndProductIds : list RepoProductId)
    : list RepoProductId * list event :=
  match repoAndProductIds with
  | [] => (activeRepoAndProductIds, [])
  | repoProductId :: rest =>
      let repo := repo repoProductId in
      let availPackageList := hy_query_run dnfSack (dnf_repo_get_id repo) in
      let '(added, log) :=
        scan_available repo i 0 availPackageList installedPackages in
      let activeRepoAndProductIds :=
        if added then activeRepoAndProductIds ++ [repoProductId]
        else activeRepoAndProductIds in
      let '(active, log') :=
        scan_repos dnfSack (S i) rest installedPackages
          activeRepoAndProductIds in
      (active, QueryAvailable i (dnf_repo_get_id repo) :: log ++ log')
  end.

(** The system repository of a fresh sack: the packages loaded from the rpm
    database, none when loading failed. *)
Definition rpmDbSack (db : RpmDb) : list DnfPackage :=
  match rpmdb_system db with
  | Some nevras =>
      map (λ n, {| pkg_nevra := n; pkg_reponame := HY_SYSTEM_REPO_NAME |})
        nevras
  | None => []
  end.

(** [getActive] *)
Definition getActive (context : DnfContext) (db : RpmDb)
    (repoAndProductIds activeRepoAndProductIds : list RepoProductId)
    : list RepoProductId * list event :=
  let dnfSack := ctx_sack context in
  if negb (rpmdb_new db) then
    (activeRepoAndProductIds,
     [Log LError "Unable to create new sack object for quering rpmdb" []])
  else
    let log_setup :=
      if rpmdb_setup db then []
      else [Log LError "Unable to setup new sack object" []] in
    let log_load :=
      match rpmdb_system db with
      | Some _ => []
      | None => [Log LError "Unable to load system repo to sack object" []]
      end in
    let installedPackages := hy_query_run (rpmDbSack db) HY_SYSTEM_REPO_NAME in
    let '(active, log) :=
      scan_repos dnfSack 0 repoAndProductIds installedPackages
        activeRepoAndProductIds in
    (active, log_setup ++ log_load ++ QueryInstalled :: log).

(** The bytes that an automatic array holds before the program has written
    to it are not determined by the program: they are a parameter of the
    development, the byte found at each index. *)
Class Stack := { stack_byte : nat -> byte }.

(** An automatic array of [n] bytes as it is found. *)
Definition fresh_array `{stk : Stack} (n : Z) : list byte :=
  map stack_byte (seq 0 (Z.to_nat n)).

Section Plugin.
Context `{hdr : ProductIdH} `{pem : Pem} `{stk : Stack}.

(** The [while (1)] loop of [decompress]; [fuel] bounds the number of
    iterations, [None] is a loop that has not ended within them.

    [buffer] is the array of [CHUNK] bytes as the iteration finds it. The
    array is declared in the body of the loop and has the same place in
    every iteration: it keeps its bytes from one iteration to the next, and
    [gzread] writes the bytes it stores over its start. The store
    [buffer[bytes_read] = '\0'] is recorded in [d_nul]; the one at index -1,
    which falls before the array, has no other effect in the model. The
    text printed from the array is that of its bytes before the first NUL
    byte. *)
Fixpoint decompress_loop (fuel : nat) (input : gzFile) (output : GString)
    (nul : list Z) (buffer : list byte) : option decompressed :=
  match fuel with
  | O => None
  | S fuel =>
      let '(bytes_read, stored, input) := gzread input (CHUNK - 1) in
      let buffer := stored ++ drop (length stored) buffer in
      let nul := nul ++ [bytes_read] in
      let buffer :=
        if bytes_read <? 0 then buffer
        else <[Z.to_nat bytes_read := x00]> buffer in
      let output := g_string_printf_s output buffer in
      if bytes_read <? CHUNK - 1 then
        if gzeof input then
          Some {| d_ret := TRUE; d_output := output; d_input := input;
                  d_nul := nul; d_log := [] |}
        else
          let err := gzerror input in
          if negb (err =? 0) then
            Some {| d_ret := FALSE; d_output := output; d_input := input;
                    d_nul := nul;
                    d_log :=
                      [Log LError "Decompressing failed with error: %s." []] |}
          else decompress_loop fuel input output nul buffer
      else decompress_loop fuel input output nul buffer
  end.

(** [decompress]: the array is found as the stack holds it. *)
Definition decompress (fuel : nat) (input : gzFile) (output : GString)
    : option decompressed :=
  decompress_loop fuel input output [] (fresh_array CHUNK).

(** Iterations that suffice for a stream that still delivers [n] bytes. *)
Definition decompress_fuel (n : nat) : nat := S n.

(** The loop of [findProductId] over the extensions, from index [i], with
    [n] extensions to go: the value of [ret_val], that of
    [redhat_oid_found], the content of [result], and the log. *)
Fixpoint scan_extensions (n i : nat) (x509 : X509) (ret_val : Z)
    (result : string) : Z * bool * string * list event :=
  match n with
  | O => (ret_val, false, result, [])
  | S n =>
      match X509_get_ext x509 i with
      | None =>
          (-1, false, result,
           [Log LDebug "Failed to get extension of X509 structure: %s" []])
      | Some ext =>
          let oid := OBJ_obj2txt MAX_BUFF (X509_EXTENSION_get_object ext) in
          if g_str_has_prefix oid REDHAT_PRODUCT_OID then
            let components := g_strsplit oid "." in
            let comp_id := Z.of_nat (length components) in
            if 9 <? comp_id then
              let id := default EmptyString (components !! 9%nat) in
              (ret_val, true, id,
               [Log LDebug "ID of product certificate: %s" [id]])
            else
              (-1, true, result,
               [Log LError "Product certificate does not contain required ID"
                  []])
          else scan_extensions n (S i) x509 ret_val result
      end
  end.

(** [findProductId] *)
Definition findProductId (certContent : GString) (result : string) : found :=
  match BIO_new_mem_buf certContent with
  | None =>
      {| f_ret := -1; f_result := result;
         f_log :=
           [Log LDebug
              "Unable to create buffer for content of certificate: %s" []] |}
  | Some bio =>
      match PEM_read_bio_X509 bio with
      | None =>
          {| f_ret := -1; f_result := result;
             f_log :=
               [Log LDebug
                  "Failed to read content of certificate from buffer to X509 structure: %s"
                  []] |}
      | Some x509 =>
          let exts := X509_get_ext_count x509 in
          let '(ret_val, redhat_oid_found, result, log) :=
            scan_extensions (Z.to_nat exts) 0 x509 1 result in
          if redhat_oid_found then
            {| f_ret := ret_val; f_result := result; f_log := log |}
          else
            {| f_ret := -1; f_result := result;
               f_log :=
                 log ++ [Log LWarn "Red Hat Product OID: %s not found"
                           [REDHAT_PRODUCT_OID]] |}
      end
  end.

(** [installProductId]; [None] when [decompress] does not come to an end. *)
Definition installProductId (repoProductId : RepoProductId)
    (productDb : ProductDb) (w : World)
    : option (Z * ProductDb * World * list event) :=
  let productIdPath := productIdPath repoProductId in
  match gzopen w productIdPath with
  | Some input =>
      let pemOutput : GString := [] in
      let outname := EmptyString in
      match decompress (decompress_fuel (length (gz_rest input)))
              input pemOutput with
      | None => None
      | Some d =>
          let pemOutput := d_output d in
          let log0 :=
            GzOpen productIdPath
            :: Log LDebug "Decompressing product certificate" []
            :: d_log d in
          if d_ret d =? FALSE then Some (0, productDb, w, log0)
          else
            let log1 :=
              log0 ++
              [Log LDebug
                 "Decompressing of certificate finished with status: %d" [];
               Log LDebug "Content of product cert:\n%s" []] in
            let f := findProductId pemOutput outname in
            let outname := f_result f in
            let log2 := log1 ++ f_log f in
            if negb (f_ret f =? 0) then
              let '(ret_val, cs) := mkdir_certs (w_certs w) in
              let log3 := log2 ++ [Mkdir PRODUCT_CERT_DIR] in
              if ret_val =? 0 then
                let productId := outname in
                let outname := PRODUCT_CERT_DIR +:+ outname +:+ ".pem" in
                match write_cert cs (productId +:+ ".pem") pemOutput with
                | Some cs =>
                    Some (1,
                          addRepoId productDb productId
                            (dnf_repo_get_id (repo repoProductId)),
                          set_certs w cs,
                          log3 ++
                          [FOpen outname;
                           Log LInfo "Product certificate installed to: %s"
                             [outname];
                           AddRepoId productId
                             (dnf_repo_get_id (repo repoProductId))])
                | None =>
                    Some (0, productDb, set_certs w cs,
                          log3 ++
                          [FOpen outname;
                           Log LError
                             "Unable write to file with certificate file :%s"
                             [outname]])
                end
              else
                Some (0, productDb, set_certs w cs,
                      log3 ++
                      [Log LError "Unable to create directory %s, %s"
                         [PRODUCT_CERT_DIR]])
            else Some (0, productDb, w, log2)
      end
  | None =>
      Some (0, productDb, w,
            [GzOpen productIdPath;
             Log LDebug "Unable to open compressed product certificate" []])
  end.

(** The loop of [removeUnusedProductCerts] over the names that
    [g_dir_read_name] gives; the empty list is the call that returns
    [NULL]. *)
Fixpoint sweep_names (productDb : ProductDb) (names : list string)
    (cs : CertStore) : CertStore * list event :=
  match names with
  | [] =>
      (cs,
       if negb (cs_errno cs =? 0) && negb (cs_errno cs =? ENODATA)
          && negb (cs_errno cs =? EEXIST)
       then [Log LError "Unable to read content of %s directory, %d, %s"
               [PRODUCT_CERT_DIR]]
       else [])
  | file_name :: names =>
      if g_str_has_suffix file_name ".pem" then
        let product_id :=
          g_strndup file_name (String.length file_name - 4)%nat in
        if negb (is_num product_id) then
          let '(cs, log) := sweep_names productDb names cs in
          (cs,
           Log LDebug
             "Name of product certificate is wrong (not digits only): %s. Skipping."
             [file_name] :: log)
        else if negb (hasProductId productDb product_id) then
          let abs_file_name := PRODUCT_CERT_DIR +:+ file_name in
          let '(ret, cs) := g_remove cs file_name in
          let log_remove :=
            Log LInfo "Removing product certificate: %s" [abs_file_name]
            :: Remove abs_file_name
            :: (if ret =? -1
                then [Log LError "Unable to remove product certificate: %s"
                        [abs_file_name]]
                else []) in
          let '(cs, log) := sweep_names productDb names cs in
          (cs, log_remove ++ log)
        else sweep_names productDb names cs
      else sweep_names productDb names cs
  end.

(** [removeUnusedProductCerts] *)
Definition removeUnusedProductCerts (productDb : ProductDb) (cs : CertStore)
    : Z * CertStore * list event :=
  match g_dir_open cs with
  | Some names =>
      let '(cs, log) := sweep_names productDb names cs in
      (0, cs, DirOpen PRODUCT_CERT_DIR :: log)
  | None =>
      (0, cs,
       [DirOpen PRODUCT_CERT_DIR;
        Log LError "Unable to open directory with product certificates" []])
  end.

(** [writeRepoMap] *)
Definition writeRepoMap (productDb : ProductDb) (w : World)
    : World * list event :=
  let '(err, w) := writeProductDb productDb w in
  (w,
   DbWrite (path productDb)
   :: (if err
       then [Log LError "Unable to write productdb to file: %s"
               [PRODUCTDB_FILE]]
       else [])).

(** The loop of [pluginHook] over the enabled repositories. *)
Fixpoint fetch_enabled (dnfContext : DnfContext) (enabledRepos : list DnfRepo)
    (repoAndProductIds : list RepoProductId)
    : list RepoProductId * list event :=
  match enabledRepos with
  | [] => (repoAndProductIds, [])
  | repo :: rest =>
      let log_enabled := Log LDebug "Enabled: %s" [dnf_repo_get_id repo] in
      let '(repoAndProductIds, log) :=
        match repo_md repo with
        | MdError =>
            (repoAndProductIds,
             [Log LError "Unable to get information about repository" []])
        | MdRecords true =>
            let log_cache :=
              if ctx_cache_only dnfContext
              then Log LDebug "DNF context is set to: cache-only" []
              else Log LDebug "DNF context is NOT set to: cache-only" [] in
            let '(fetchSuccess, repoProductId, log_fetch) :=
              fetchProductId repo in
            (match repoProductId with
             | Some repoProductId =>
                 if fetchSuccess =? 1
                 then repoAndProductIds ++ [repoProductId]
                 else repoAndProductIds
             | None => repoAndProductIds
             end,
             Log LDebug "Repository %s has a productid" [dnf_repo_get_id repo]
             :: log_cache :: log_fetch)
        | MdRecords false => (repoAndProductIds, [])
        | MdNull =>
            (repoAndProductIds,
             [Log LError "Unable to get valid information about repository"
                []])
        end in
      let '(all, log') := fetch_enabled dnfContext rest repoAndProductIds in
      (all, log_enabled :: log ++ log')
  end.

(** The loop of [pluginHook] over the active repositories. *)
Fixpoint install_active (activeRepoAndProductIds : list RepoProductId)
    (productDb : ProductDb) (w : World)
    : option (ProductDb * World * list event) :=
  match activeRepoAndProductIds with
  | [] => Some (productDb, w, [])
  | activeRepoProductId :: rest =>
      match installProductId activeRepoProductId productDb w with
      | None => None
      | Some (_, productDb, w, log) =>
          match install_active rest productDb w with
          | None => None
          | Some (productDb, w, log') =>
              Some (productDb, w,
                    Log LDebug "Handling active repo %s\n"
                      [dnf_repo_get_id (repo activeRepoProductId)]
                    :: log ++ log')
          end
      end
  end.

(** The local variables of [pluginHook] at the call of
    [removeUnusedProductCerts], and the directory of the certificates as
    that call finds it. *)
Record pass := {
  p_productDb : ProductDb;
  p_repoAndProductIds : list RepoProductId;
  p_activeRepoAndProductIds : list RepoProductId;
  p_certs : CertStore
}.

(** What a call of [pluginHook] leaves behind: the value returned, the world,
    the log, and the pass if the call got as far as the sweep. *)
Record hooked := {
  h_ret : Z;
  h_world : World;
  h_log : list event;
  h_pass : option pass
}.

(** [pluginHook]; a [NULL] handle is [None]. The result is [None] when the
    call does not come to an end. *)
Definition pluginHook (handle : option PluginHandle) (id : PluginHookId)
    (w : World) : option hooked :=
  match handle with
  | None => Some {| h_ret := 0; h_world := w; h_log := []; h_pass := None |}
  | Some handle =>
      let log0 :=
        [Log LDebug "%s v%s, running hook_id: %s on DNF version %d"
           [strHookId id]] in
      match id with
      | PLUGIN_HOOK_ID_CONTEXT_TRANSACTION =>
          let dnfContext := initData handle in
          let ret_val := if w_productdb_dir w then 0 else -1 in
          if negb (ret_val =? 0) then
            Some {| h_ret := 1; h_world := w;
                    h_log :=
                      log0 ++
                      [Mkdir PRODUCTDB_DIR;
                       Log LError "Unable to create %s directory, %s"
                         [PRODUCTDB_DIR]];
                    h_pass := None |}
          else
            match ctx_repos dnfContext with
            | None =>
                Some {| h_ret := 1; h_world := w;
                        h_log := log0 ++ [Mkdir PRODUCTDB_DIR; GetRepos];
                        h_pass := None |}
            | Some repos =>
                let productDb :=
                  {| path := PRODUCTDB_FILE;
                     repoMap := repoMap initProductDb |} in
                let enabledRepos := getEnabled repos [] in
                let '(repoAndProductIds, log1) :=
                  fetch_enabled dnfContext enabledRepos [] in
                let '(activeRepoAndProductIds, log2) :=
                  getActive dnfContext (w_rpmdb w) repoAndProductIds [] in
                match install_active activeRepoAndProductIds productDb w with
                | None => None
                | Some (productDb, w, log3) =>
                    let '(_, cs, log4) :=
                      removeUnusedProductCerts productDb (w_certs w) in
                    let '(w', log5) :=
                      writeRepoMap productDb (set_certs w cs) in
                    Some {| h_ret := 1; h_world := w';
                            h_log :=
                              log0 ++ [Mkdir PRODUCTDB_DIR; GetRepos] ++
                              log1 ++ log2 ++ log3 ++ log4 ++ log5;
                            h_pass :=
                              Some {| p_productDb := productDb;
                                      p_repoAndProductIds := repoAndProductIds;
                                      p_activeRepoAndProductIds :=
                                        activeRepoAndProductIds;
                                      p_certs := w_certs w |} |}
                end
            end
      | _ => Some {| h_ret := 1; h_world := w; h_log := log0;
                     h_pass := None |}
      end
  end.

End Plugin.

(** ** Vocabulary of the statements *)

(** The state of a stream after its last read. *)
Definition drained (ending : gz_ending) : gzFile :=
  match ending with
  | Complete =>
      {| gz_rest := []; gz_end := Complete; gz_past := true; gz_err := 0 |}
  | Truncated =>
      {| gz_rest := []; gz_end := Truncated; gz_past := true;
         gz_err := Z_BUF_ERROR |}
  | Fault code =>
      {| gz_rest := []; gz_end := Fault code; gz_past := false;
         gz_err := Z.neg code |}
  end.

(** The stream ends with an error of the decoder. *)
Definition faulty (ending : gz_ending) : bool :=
  match ending with
  | Fault _ => true
  | _ => false
  end.

(** The stem of a file name that ends in [.pem], as
    [removeUnusedProductCerts] cuts it. *)
Definition stem (file_name : string) : string :=
  g_strndup file_name (String.length file_name - 4)%nat.

(** The test of [removeUnusedProductCerts] for the names it removes. *)
Definition doomed (productDb : ProductDb) (file_name : string) : bool :=
  g_str_has_suffix file_name ".pem" && is_num (stem file_name)
  && negb (hasProductId productDb (stem file_name)).

(** The content of a file of the certificate directory, if it is there. *)
Definition cert_file (cs : CertStore) (name : string) : option (list byte) :=
  match cs_dir cs with
  | Some files => files !! name
  | None => None
  end.

(** Every character of [s] is one of the ASCII digits 0 to 9. *)
Definition digits_only (s : string) : Prop :=
  Forall (λ c, (48 <= N_of_ascii c <= 57)%N) (String.list_ascii_of_string s).

(** The string has no character [c]. *)
Definition free_of (c : ascii) (s : string) : Prop :=
  Forall (λ x, x ≠ c) (String.list_ascii_of_string s).

(** The name ends in [.pem], its stem consists of digits only and has no
    entry in the database. *)
Definition stale (productDb : ProductDb) (file_name : string) : Prop :=
  ∃ s, file_name = s +:+ ".pem" ∧ digits_only s
       ∧ hasProductId productDb s = false.

(** The repositories recorded for a product id. *)
Definition repos_of (productDb : ProductDb) (productId : string)
    : gset string :=
  default ∅ (repoMap productDb !! productId).

(** The installed packages, as [getActive] queries them. *)
Definition installed (db : RpmDb) : list DnfPackage :=
  hy_query_run (rpmDbSack db) HY_SYSTEM_REPO_NAME.

(** The packages available from a repository, as [getActive] queries them. *)
Definition available (context : DnfContext) (rp : RepoProductId)
    : list DnfPackage :=
  hy_query_run (ctx_sack context) (dnf_repo_get_id (repo rp)).

Definition same_nevra (pkg instPkg : DnfPackage) : Prop :=
  dnf_package_get_nevra pkg = dnf_package_get_nevra instPkg.

(** A package available from the repository has the NEVRA of an installed
    package. *)
Definition supplies_installed (context : DnfContext) (db : RpmDb)
    (rp : RepoProductId) : Prop :=
  Exists (λ pkg, Exists (same_nevra pkg) (installed db)) (available context rp).

Global Instance same_nevra_dec pkg instPkg : Decision (same_nevra pkg instPkg).
Proof. unfold same_nevra. apply _. Defined.

Global Instance supplies_installed_dec context db rp :
  Decision (supplies_installed context db rp).
Proof. unfold supplies_installed. apply _. Defined.

(** How often an event occurs in a log. *)
Definition occurrences (e : event) (log : list event) : nat :=
  length (filter (λ x, x = e) log).

(** No pair of an available and an installed package that the scan reaches
    before the pair [(j, k)] has the same NEVRA. *)
Definition no_match_before
    (availPackageList installedPackages : list DnfPackage) (j k : nat)
    : Prop :=
  ∀ j' k' pkg instPkg,
    (j' < j ∨ (j' = j ∧ k' < k))%nat →
    availPackageList !! j' = Some pkg →
    installedPackages !! k' = Some instPkg →
    ¬ same_nevra pkg instPkg.

(** The events of the scan of repository [i] in [getActive]. *)
Definition scan_event (i : nat) (e : event) : Prop :=
  match e with
  | Log _ _ _ => True
  | Compare i' _ _ => i' = i
  | _ => False
  end.

(** The events of [getActive]. *)
Definition active_event (e : event) : Prop :=
  match e with
  | Log _ _ _ | QueryInstalled | QueryAvailable _ _ | Compare _ _ _ => True
  | _ => False
  end.

(** The events of the loop over the enabled repositories. *)
Definition fetch_event (e : event) : Prop :=
  match e with
  | Log _ _ _ | Fetch _ => True
  | _ => False
  end.

(** The events of [installProductId]. *)
Definition install_event (e : event) : Prop :=
  match e with
  | Log _ _ _ | GzOpen _ | Mkdir _ | FOpen _ | AddRepoId _ _ => True
  | _ => False
  end.

(** The events of [removeUnusedProductCerts]. *)
Definition sweep_event (e : event) : Prop :=
  match e with
  | Log _ _ _ | DirOpen _ | Remove _ => True
  | _ => False
  end.

(** The events of the steps of a pass that follow the creation of the
    directory of the database. *)
Definition later_step (e : event) : Prop :=
  match e with
  | Log _ _ _ | Mkdir _ => False
  | _ => True
  end.

(** The world with another content of the persisted database. *)
Definition put_db_file (w : World) (file : option (gmap string (gset string)))
    : World :=
  {| w_productdb_dir := w_productdb_dir w; w_gz := w_gz w;
     w_certs := w_certs w; w_db_file := file;
     w_db_writable := w_db_writable w; w_rpmdb := w_rpmdb w |}.

(** A world that differs from [w] in the certificate directory at most,
    where no file has disappeared and the marks of the directory are the
    same. *)
Definition certs_grown (w w' : World) : Prop :=
  w' = set_certs w (w_certs w')
  /\ cs_creatable (w_certs w') = cs_creatable (w_certs w)
  /\ cs_frozen (w_certs w') = cs_frozen (w_certs w)
  /\ cs_errno (w_certs w') = cs_errno (w_certs w)
  /\ forall f, is_Some (cert_file (w_certs w) f)
               -> is_Some (cert_file (w_certs w') f).

(** Proof steps for logs: membership in, and a property of all events of, a
    list built with [::] and [++]. *)
Ltac split_elem_of_in H :=
  repeat (rewrite elem_of_app in H || rewrite elem_of_cons in H
          || rewrite elem_of_nil in H).
Ltac split_elem_of :=
  repeat (rewrite elem_of_app || rewrite elem_of_cons || rewrite elem_of_nil).
Ltac split_Forall :=
  repeat (apply Forall_app_2 || apply Forall_cons_2 || apply Forall_nil_2).

Section Vocabulary.
Context `{hdr : ProductIdH}.

(** The text of the object identifier of an extension, as [findProductId]
    finds it in its buffer [oid]. *)
Definition oid_text (ext : X509_EXTENSION) : string :=
  OBJ_obj2txt MAX_BUFF (X509_EXTENSION_get_object ext).

(** The text starts with the prefix of the vendor. *)
Definition vendor (ext : X509_EXTENSION) : bool :=
  g_str_has_prefix (oid_text ext) REDHAT_PRODUCT_OID.

(** The components of the text between its dots. *)
Definition components (ext : X509_EXTENSION) : list string :=
  g_strsplit (oid_text ext) ".".

(** The text that [decompress] prints after a read that has failed, from an
    array that was [buffer] before the first read: the bytes that the failed
    read has stored and, behind them, what the array held, which is the
    chunk of the read before with its NUL byte when there was one. *)
Definition stale_text (buffer data : list byte) : list byte :=
  let n := Z.to_nat (CHUNK - 1) in
  let k := (length data / n)%nat in
  let rest := drop (k * n) data in
  let array :=
    match k with
    | O => buffer
    | S k' => take n (drop (k' * n) data) ++ [x00]
    end in
  c_str (rest ++ drop (length rest) array).

End Vocabulary.

(** ** Sample data

    A certificate store, repositories and packages on which the statements
    below are tried. The sample reader of certificates knows three texts. *)

Definition bytes_of (s : string) : list byte := String.list_byte_of_string s.

Definition vendor_oid (product : N) : ASN1_OBJECT :=
  [1; 3; 6; 1; 4; 1; 2312; 9; 1; product; 1]%N.

(** A certificate for product 69; a second vendor extension follows the
    first. *)
Definition cert_69 : X509 :=
  {| x509_extensions :=
       [ {| ext_object := [2; 5; 29; 19]%N |};
         {| ext_object := vendor_oid 69 |};
         {| ext_object := vendor_oid 70 |} ] |}.

(** A certificate without an extension of the vendor. *)
Definition cert_plain : X509 :=
  {| x509_extensions :=
       [ {| ext_object := [2; 5; 29; 19]%N |};
         {| ext_object := [2; 5; 29; 14]%N |} ] |}.

(** A certificate whose vendor extension has nine components only. *)
Definition cert_short : X509 :=
  {| x509_extensions :=
       [ {| ext_object := [1; 3; 6; 1; 4; 1; 2312; 9; 1]%N |} ] |}.

(** A certificate whose vendor extension has ten components, 69 at index
    9, and a component of 235 digits before it: the numerical form of its
    object identifier has 257 characters. *)
Definition cert_long : X509 :=
  {| x509_extensions :=
       [ {| ext_object :=
              [1; 3; 6; 1; 4; 1; 2312; 9; 10 ^ 234 + 7; 69]%N |} ] |}.

Definition sample_pem : Pem := {|
  BIO_new_mem_buf := λ content, Some content;
  PEM_read_bio_X509 := λ content,
    let text := String.string_of_list_byte content in
    if String.eqb text "CERT 69" then Some cert_69
    else if String.eqb text "CERT PLAIN" then Some cert_plain
    else if String.eqb text "CERT SHORT" then Some cert_short
    else if String.eqb text "CERT LONG" then Some cert_long
    else None
|}.

(** A stack that holds the letter U throughout. *)
Definition sample_stack : Stack := {| stack_byte := λ _, "U"%byte |}.

Definition repo_a : DnfRepo :=
  {| repo_id := "repo-a"; repo_enabled := 1; repo_md := MdRecords true;
     repo_fetch := Some "/var/cache/dnf/repo-a/productid.gz" |}.

Definition repo_b : DnfRepo :=
  {| repo_id := "repo-b"; repo_enabled := 1; repo_md := MdRecords true;
     repo_fetch := Some "/var/cache/dnf/repo-b/productid.gz" |}.

Definition sample_context : DnfContext :=
  {| ctx_repos := Some [repo_a; repo_b];
     ctx_sack :=
       [ {| pkg_nevra := "bar-0:2.0-1.x86_64"; pkg_reponame := "repo-a" |};
         {| pkg_nevra := "foo-0:1.0-1.x86_64"; pkg_reponame := "repo-a" |};
         {| pkg_nevra := "baz-0:1.0-1.x86_64"; pkg_reponame := "repo-a" |};
         {| pkg_nevra := "qux-0:3.1-4.noarch"; pkg_reponame := "repo-b" |} ];
     ctx_cache_only := false |}.

Definition sample_rpmdb : RpmDb :=
  {| rpmdb_new := true; rpmdb_setup := true;
     rpmdb_system := Some ["glibc-0:2.28-1.x86_64"; "foo-0:1.0-1.x86_64"] |}.

Definition sample_certs : CertStore :=
  {| cs_dir :=
       Some (<["99.pem" := bytes_of "OLD 99"]>
             (<["abc.pem" := bytes_of "STRAY"]>
              (<["42.pem" := bytes_of "OLD 42"]> ∅)));
     cs_creatable := true; cs_unwritable := ∅; cs_frozen := ∅;
     cs_errno := 0 |}.

Definition sample_world : World :=
  {| w_productdb_dir := true;
     w_gz :=
       <["/var/cache/dnf/repo-a/productid.gz" := (bytes_of "CERT 69", Complete)]>
       (<["/var/cache/dnf/repo-b/productid.gz" := (bytes_of "CERT PLAIN", Complete)]>
        ∅);
     w_certs := sample_certs;
     w_db_file := Some (<["42" := {["repo-c"]}]> ∅);
     w_db_writable := true;
     w_rpmdb := sample_rpmdb |}.

(** The same world, where the directory of the database cannot be made. *)
Definition sample_world_no_dir : World :=
  {| w_productdb_dir := false; w_gz := w_gz sample_world;
     w_certs := sample_certs; w_db_file := w_db_file sample_world;
     w_db_writable := true; w_rpmdb := sample_rpmdb |}.

Definition sample_handle : PluginHandle :=
  {| version := 1; mode := PLUGIN_MODE_CONTEXT; initData := sample_context |}.

Definition rp_a : RepoProductId :=
  {| repo := repo_a; productIdPath := "/var/cache/dnf/repo-a/productid.gz" |}.

Definition rp_b : RepoProductId :=
  {| repo := repo_b; productIdPath := "/var/cache/dnf/repo-b/productid.gz" |}.

(** A content that fills one chunk of 16383 bytes, and one that is a byte
    longer. *)
Definition one_chunk : list byte := replicate (Z.to_nat 16383) "A"%byte.

Definition two_chunks : list byte := one_chunk ++ ["B"%byte].

(** ** The handle of the plugin *)

(** A value of type [PluginMode] as a caller may pass it: an enumerator of
    the type, or another integer. *)
Inductive mode_value :=
  | Mode (m : PluginMode)
  | OtherMode (n : Z).

(** [pluginInitHandle]; [None] for [NULL]. The version of the plugin API
    that is supported is a constant of [product-id.h], [malloc] tells
    whether the allocation of the handle succeeds. *)
Definition pluginInitHandle (SUPPORTED_LIBDNF_PLUGIN_API_VERSION : Z)
    (malloc : bool) (version : Z) (mode : mode_value) (initData : DnfContext)
    : option PluginHandle * list event :=
  let log0 := [Log LDebug "%s initializing handle!" []] in
  if negb (version =? SUPPORTED_LIBDNF_PLUGIN_API_VERSION) then
    (None,
     log0 ++ [Log LError "Unsupported version of libdnf plugin API: %d" []])
  else
    match mode with
    | OtherMode _ =>
        (None,
         log0 ++ [Log LError "Unsupported mode of libdnf plugin: %d" []])
    | Mode PLUGIN_MODE_CONTEXT =>
        if malloc then
          (Some {| version := version; mode := PLUGIN_MODE_CONTEXT;
                   initData := initData |}, log0)
        else (None, log0)
    end.

(** ** Vocabulary of the statements on whole runs *)

(** The repository is enabled for packages. *)
Definition enabled_for_packages (repo : DnfRepo) : bool :=
  Z.testbit (dnf_repo_get_enabled repo) 0.

(** The candidate that the loop of [pluginHook] makes of an enabled
    repository: one with a record of type productid whose download
    succeeds. *)
Definition candidate (repo : DnfRepo) : option RepoProductId :=
  match repo_md repo, repo_fetch repo with
  | MdRecords true, Some local =>
      Some {| repo := repo; productIdPath := local |}
  | _, _ => None
  end.

(** The repositories for which a log shows a download, in order. *)
Definition fetches (log : list event) : list string :=
  omap (λ e, match e with Fetch r => Some r | _ => None end) log.

(** The queries for available packages that a log shows, in order. *)
Definition queries (log : list event) : list (nat * string) :=
  omap (λ e, match e with QueryAvailable i r => Some (i, r) | _ => None end)
    log.

(** The number of comparisons of two packages that a log shows. *)
Definition comparisons (log : list event) : nat :=
  length
    (omap (λ e, match e with
                | Compare i j k => Some (i, j, k)
                | _ => None
                end) log).

(** The records a log shows, in order. *)
Definition records (log : list event) : list (string * string) :=
  omap (λ e, match e with AddRepoId p r => Some (p, r) | _ => None end) log.

(** The directory of the certificates can be used for an install: it is
    there or can be made. *)
Definition cert_dir_usable (cs : CertStore) : bool :=
  bool_decide (is_Some (cs_dir cs)) || cs_creatable cs.

(** The repository has a record of type productid in its metadata. *)
Definition has_productid (repo : DnfRepo) : bool :=
  match repo_md repo with
  | MdRecords true => true
  | _ => false
  end.

Section RunVocabulary.
Context `{hdr : ProductIdH} `{pem : Pem}.

(** The text that is left of a content after its whole chunks of
    [CHUNK - 1] bytes. *)
Definition last_chunk_text (data : list byte) : list byte :=
  c_str (drop (length data / Z.to_nat (CHUNK - 1) * Z.to_nat (CHUNK - 1))%nat
           data).

(** The name under which [installProductId] stores a text: the product id
    that [findProductId] leaves for it, with [.pem]. *)
Definition install_name (text : list byte) : string :=
  f_result (findProductId text EmptyString) +:+ ".pem".

End RunVocabulary.

(** Every character of [s] is a digit or a dot. *)
Definition dotted_decimal (s : string) : Prop :=
  Forall (λ c, c = "."%char \/ (48 <= N_of_ascii c <= 57)%N)
    (String.list_ascii_of_string s).

(** Two worlds that agree on all that decides how an install goes, apart from
    the files of the certificate directory. *)
Definition akin (w v : World) : Prop :=
  w_productdb_dir v = w_productdb_dir w /\ w_gz v = w_gz w
  /\ w_db_writable v = w_db_writable w /\ w_rpmdb v = w_rpmdb w
  /\ cs_unwritable (w_certs v) = cs_unwritable (w_certs w)
  /\ cs_frozen (w_certs v) = cs_frozen (w_certs w)
  /\ cert_dir_usable (w_certs v) = cert_dir_usable (w_certs w).

(** The sample world when the system repository cannot be loaded. *)
Definition sample_world_no_rpmdb : World :=
  {| w_productdb_dir := true; w_gz := w_gz sample_world;
     w_certs := sample_certs; w_db_file := w_db_file sample_world;
     w_db_writable := true;
     w_rpmdb := {| rpmdb_new := true; rpmdb_setup := true;
                   rpmdb_system := None |} |}.

(** * Properties

    ** Strings *)
Lemma string_app_nil_l (t : string) : EmptyString +:+ t = t.
Proof. reflexivity. Qed.

Lemma string_app_cons (c : ascii) (s t : string) :
  String c s +:+ t = String c (s +:+ t).
Proof. reflexivity. Qed.

Lemma string_length_app (s t : string) :
  String.length (s +:+ t) = (String.length s + String.length t)%nat.
Proof.
  induction s as [|c s IH]; [reflexivity|].
  rewrite string_app_cons. simpl. by rewrite IH.
Qed.

Lemma substring_all (s : string) : String.substring 0 (String.length s) s = s.
Proof. induction s as [|c s IH]; simpl; [reflexivity | by rewrite IH]. Qed.

Lemma substring_front (s t : string) :
  String.substring 0 (String.length s) (s +:+ t) = s.
Proof.
  induction s as [|c s IH]; [by destruct t|].
  rewrite string_app_cons. simpl. by rewrite IH.
Qed.

Lemma substring_back (s t : string) :
  String.substring (String.length s) (String.length t) (s +:+ t) = t.
Proof.
  induction s as [|c s IH]; [apply substring_all|].
  rewrite string_app_cons. simpl. exact IH.
Qed.

Lemma substring_split (s : string) :
  forall n : nat, (n <= String.length s)%nat ->
  s = String.substring 0 n s +:+ String.substring n (String.length s - n) s.
Proof.
  induction s as [|c s IH]; intros [|n] Hn; simpl in *; try lia.
  - reflexivity.
  - by rewrite string_app_nil_l, substring_all.
  - rewrite string_app_cons. f_equal. apply IH. lia.
Qed.

Lemma string_app_inv_head (p s t : string) : p +:+ s = p +:+ t -> s = t.
Proof.
  induction p as [|c p IH]; [done|].
  rewrite !string_app_cons. intros [= H]. auto.
Qed.

Lemma string_app_inv_tail (s t u : string) : s +:+ u = t +:+ u -> s = t.
Proof.
  intros H.
  assert (Hl : String.length s = String.length t).
  { apply (f_equal String.length) in H. rewrite !string_length_app in H. lia. }
  rewrite <- (substring_front s u), <- (substring_front t u), H, Hl.
  reflexivity.
Qed.

Lemma g_str_has_suffix_spec (str suffix : string) :
  g_str_has_suffix str suffix = true <-> ∃ s, str = s +:+ suffix.
Proof.
  unfold g_str_has_suffix. split.
  - destruct (_ <? _)%nat eqn:E; [done|]. apply Nat.ltb_ge in E.
    intros H%String.eqb_eq.
    exists (String.substring 0 (String.length str - String.length suffix) str).
    pose proof (substring_split str
                  (String.length str - String.length suffix)) as Hs.
    replace (String.length str - (String.length str - String.length suffix))%nat
      with (String.length suffix) in Hs by lia.
    rewrite H in Hs. apply Hs. lia.
  - intros [s ->]. rewrite string_length_app.
    destruct (_ <? _)%nat eqn:E; [apply Nat.ltb_lt in E; lia|].
    replace (String.length s + String.length suffix - String.length suffix)%nat
      with (String.length s) by lia.
    rewrite substring_back. apply String.eqb_refl.
Qed.

Lemma stem_pem (s : string) : stem (s +:+ ".pem") = s.
Proof.
  unfold stem, g_strndup. rewrite string_length_app. cbn [String.length].
  replace (String.length s + 4 - 4)%nat with (String.length s) by lia.
  apply substring_front.
Qed.

Lemma g_ascii_isdigit_spec (c : ascii) :
  g_ascii_isdigit c = true <-> (48 <= N_of_ascii c <= 57)%N.
Proof. unfold g_ascii_isdigit. rewrite andb_true_iff, !N.leb_le. tauto. Qed.

Lemma is_num_spec (s : string) : is_num s = true <-> digits_only s.
Proof.
  unfold digits_only. induction s as [|c s IH]; cbn.
  - split; [constructor | done].
  - rewrite Forall_cons, <- IH, <- g_ascii_isdigit_spec.
    destruct (g_ascii_isdigit c); intuition congruence.
Qed.

Lemma doomed_spec (productDb : ProductDb) (file_name : string) :
  doomed productDb file_name = true <-> stale productDb file_name.
Proof.
  unfold doomed, stale. rewrite !andb_true_iff, negb_true_iff.
  rewrite g_str_has_suffix_spec, is_num_spec. split.
  - intros [[[s ->] Hnum] Hdb]. rewrite stem_pem in *. eauto.
  - intros (s & -> & Hnum & Hdb). rewrite stem_pem. eauto.
Qed.

(** ** [removeUnusedProductCerts] *)

Section SweepFacts.
Context `{hdr : ProductIdH}.

Lemma g_remove_spec (cs cs' : CertStore) (name : string) (ret : Z) :
  g_remove cs name = (ret, cs') ->
  cs_creatable cs' = cs_creatable cs /\ cs_frozen cs' = cs_frozen cs
  /\ cs_errno cs' = cs_errno cs
  /\ (is_Some (cs_dir cs') <-> is_Some (cs_dir cs))
  /\ forall f, cert_file cs' f =
       if bool_decide (f = name) && bool_decide (name ∉ cs_frozen cs)
       then None else cert_file cs f.
Proof.
  unfold g_remove, cert_file. destruct (cs_dir cs) as [files|] eqn:Hdir.
  - destruct (bool_decide (name ∈ cs_frozen cs)) eqn:Hfr.
    + intros [= <- <-]. rewrite Hdir. repeat split; try done.
      intros f. apply bool_decide_eq_true in Hfr.
      rewrite (bool_decide_eq_false_2 (name ∉ _)) by tauto.
      by rewrite andb_false_r.
    + apply bool_decide_eq_false in Hfr.
      rewrite (bool_decide_eq_true_2 (name ∉ _)) by done.
      destruct (bool_decide (is_Some (files !! name))) eqn:Hex.
      * intros [= <- <-]. cbn. repeat split; try done; try by eauto.
        intros f. rewrite andb_true_r.
        destruct (decide (f = name)) as [->|Hne].
        -- rewrite bool_decide_eq_true_2 by done. apply lookup_delete_eq.
        -- rewrite bool_decide_eq_false_2 by done. by apply lookup_delete_ne.
      * intros [= <- <-]. rewrite Hdir. repeat split; try done.
        intros f. rewrite andb_true_r.
        destruct (decide (f = name)) as [->|Hne].
        -- rewrite bool_decide_eq_true_2 by done.
           apply bool_decide_eq_false in Hex.
           by rewrite <- eq_None_not_Some in Hex.
        -- by rewrite bool_decide_eq_false_2.
  - intros [= <- <-]. rewrite Hdir. repeat split; try done.
    intros f. by destruct (_ && _).
Qed.

Lemma sweep_names_spec (productDb : ProductDb) (names : list string) :
  forall (cs cs' : CertStore) (log : list event),
  sweep_names productDb names cs = (cs', log) ->
  cs_creatable cs' = cs_creatable cs /\ cs_frozen cs' = cs_frozen cs
  /\ cs_errno cs' = cs_errno cs
  /\ (is_Some (cs_dir cs') <-> is_Some (cs_dir cs))
  /\ (forall f, cert_file cs' f =
        if bool_decide (f ∈ names) && doomed productDb f
           && bool_decide (f ∉ cs_frozen cs)
        then None else cert_file cs f)
  /\ (forall f, Remove (PRODUCT_CERT_DIR +:+ f) ∈ log
                <-> f ∈ names /\ doomed productDb f = true).
Proof.
  induction names as [|file_name names IH]; intros cs cs' log.
  - cbn [sweep_names]. intros [= <- <-]. split_and!; try done.
    intros f. destruct (_ && _ && _); set_solver.
  - assert (Hskip : doomed productDb file_name = false ->
                    forall (cs' : CertStore) (log : list event),
                    (forall f, Remove (PRODUCT_CERT_DIR +:+ f) ∈ log
                       <-> f ∈ names /\ doomed productDb f = true) ->
                    (forall f, cert_file cs' f =
                       if bool_decide (f ∈ names) && doomed productDb f
                          && bool_decide (f ∉ cs_frozen cs)
                       then None else cert_file cs f) ->
                    (forall f, cert_file cs' f =
                       if bool_decide (f ∈ file_name :: names)
                          && doomed productDb f
                          && bool_decide (f ∉ cs_frozen cs)
                       then None else cert_file cs f)
                    /\ (forall f, Remove (PRODUCT_CERT_DIR +:+ f) ∈ log
                         <-> f ∈ file_name :: names
                             /\ doomed productDb f = true)).
    { intros Hd cs2 log2 Hr Hf. split; intros f.
      - rewrite Hf. destruct (decide (f = file_name)) as [->|Hne].
        + rewrite Hd. by rewrite !andb_false_r.
        + rewrite (bool_decide_ext (f ∈ file_name :: names) (f ∈ names))
            by set_solver. done.
      - rewrite Hr. split; [set_solver|].
        intros [[->|?]%elem_of_cons Hd']; [congruence|done]. }
    cbn [sweep_names].
    destruct (g_str_has_suffix file_name ".pem") eqn:Hsuf.
    2:{ intros H. destruct (IH _ _ _ H) as (?&?&?&?&Hf&Hr).
        assert (Hd : doomed productDb file_name = false).
        { unfold doomed. by rewrite Hsuf. }
        destruct (Hskip Hd _ _ Hr Hf) as [Hf' Hr'].
        by split_and!. }
    fold (stem file_name).
    destruct (is_num (stem file_name)) eqn:Hnum; cbn [negb].
    2:{ destruct (sweep_names productDb names cs) as [cs1 log1] eqn:Hs.
        intros [= <- <-]. destruct (IH _ _ _ Hs) as (?&?&?&?&Hf&Hr).
        assert (Hd : doomed productDb file_name = false).
        { unfold doomed. by rewrite Hsuf, Hnum. }
        destruct (Hskip Hd _ _ Hr Hf) as [Hf' Hr'].
        split_and!; try done.
        intros f. rewrite elem_of_cons, Hr'. split; [|by auto].
        intros [?|?]; done. }
    destruct (hasProductId productDb (stem file_name)) eqn:Hhas; cbn [negb].
    { intros H. destruct (IH _ _ _ H) as (?&?&?&?&Hf&Hr).
      assert (Hd : doomed productDb file_name = false).
      { unfold doomed. by rewrite Hsuf, Hnum, Hhas. }
      destruct (Hskip Hd _ _ Hr Hf) as [Hf' Hr'].
      by split_and!. }
    clear Hskip.
    destruct (g_remove cs file_name) as [ret cs0] eqn:Hrm.
    destruct (sweep_names productDb names cs0) as [cs1 log1] eqn:Hs.
    intros [= <- <-].
    destruct (g_remove_spec _ _ _ _ Hrm) as (Hc0&Hz0&He0&Hd0&Hf0).
    destruct (IH _ _ _ Hs) as (Hc1&Hz1&He1&Hd1&Hf1&Hr1).
    assert (Hdoom : doomed productDb file_name = true).
    { unfold doomed. by rewrite Hsuf, Hnum, Hhas. }
    split_and!; try congruence; try tauto.
    + intros f. rewrite Hf1, Hf0, Hz0.
      destruct (decide (f = file_name)) as [->|Hne].
      * rewrite Hdoom, (bool_decide_eq_true_2 (file_name ∈ _ :: _)) by set_solver.
        rewrite (bool_decide_eq_true_2 (file_name = _)) by done.
        cbn [andb]. by repeat destruct (bool_decide _).
      * rewrite (bool_decide_eq_false_2 (f = _)) by done. cbn [andb].
        by rewrite (bool_decide_ext (f ∈ file_name :: names) (f ∈ names))
          by set_solver.
    + intros f. split.
      * intros Hin. cbn [app] in Hin.
        apply elem_of_cons in Hin as [?|Hin]; [done|].
        apply elem_of_cons in Hin as [[= Heq]|Hin].
        -- apply string_app_inv_head in Heq. subst. split; [set_solver|done].
        -- apply elem_of_app in Hin as [Hin|Hin].
           ++ destruct (ret =? -1); set_solver.
           ++ apply Hr1 in Hin. set_solver.
      * intros [[->|Hin]%elem_of_cons Hd]; cbn [app].
        -- set_solver.
        -- rewrite !elem_of_cons, elem_of_app. right. right. right.
           apply Hr1. done.
Qed.

End SweepFacts.

(** ** [g_strsplit] *)


Lemma free_of_cons (c x : ascii) (s : string) :
  free_of c (String x s) <-> x ≠ c /\ free_of c s.
Proof. unfold free_of. cbn. by rewrite Forall_cons. Qed.

Lemma concat_cons2 (sep x y : string) (l : list string) :
  String.concat sep (x :: y :: l) = x +:+ sep +:+ String.concat sep (y :: l).
Proof. reflexivity. Qed.


(** The tokens of a joined list of strings that are free of the delimiter
    are the strings. *)
Lemma strsplit_tokens_join (delim : ascii) (tokens : list string) :
  forall token,
  Forall (free_of delim) (token :: tokens) ->
  strsplit_tokens delim
    (String.concat (String delim EmptyString) (token :: tokens))
  = (token, tokens).
Proof.
  induction tokens as [|t ts IH]; intros token Hfree.
  - apply Forall_cons in Hfree as [Hfree _]. cbn [String.concat].
    induction token as [|c token IHt]; [done|].
    apply free_of_cons in Hfree as [Hc Hfree]. cbn [strsplit_tokens].
    rewrite (IHt Hfree). apply Ascii.eqb_neq in Hc. by rewrite Hc.
  - apply Forall_cons in Hfree as [Hfree Hrest]. rewrite concat_cons2.
    induction token as [|c token IHt].
    + rewrite string_app_nil_l, string_app_cons, string_app_nil_l.
      cbn [strsplit_tokens]. rewrite (IH t Hrest).
      by rewrite Ascii.eqb_refl.
    + apply free_of_cons in Hfree as [Hc Hfree]. rewrite string_app_cons.
      cbn [strsplit_tokens]. rewrite (IHt Hfree).
      apply Ascii.eqb_neq in Hc. by rewrite Hc.
Qed.


Lemma g_strsplit_join (delimiter : ascii) (token : string)
    (tokens : list string) :
  Forall (free_of delimiter) (token :: tokens) ->
  String.concat (String delimiter EmptyString) (token :: tokens) ≠ EmptyString ->
  g_strsplit (String.concat (String delimiter EmptyString) (token :: tokens))
    delimiter
  = token :: tokens.
Proof.
  intros Hfree Hne. unfold g_strsplit.
  rewrite (strsplit_tokens_join _ _ _ Hfree).
  by destruct (String.concat _ _).
Qed.

(** ** Decimal numerals and object identifiers *)
Lemma pretty_N_char_digit (x : N) :
  (48 <= N_of_ascii (pretty_N_char x) <= 57)%N.
Proof. unfold pretty_N_char. repeat case_match; cbn; lia. Qed.

Lemma pretty_N_go_digits (x : N) :
  forall s, digits_only s -> digits_only (pretty_N_go x s).
Proof.
  induction (N.lt_wf_0 x) as [x _ IH]; intros s Hs.
  destruct (decide (x = 0)%N) as [->|Hx]; [by rewrite pretty_N_go_0|].
  rewrite pretty_N_go_step by lia. apply IH.
  - apply N.div_lt; lia.
  - unfold digits_only. cbn. constructor; [apply pretty_N_char_digit|done].
Qed.

Lemma pretty_N_go_length (x : N) :
  forall s, (String.length s <= String.length (pretty_N_go x s))%nat.
Proof.
  induction (N.lt_wf_0 x) as [x _ IH]; intros s.
  destruct (decide (x = 0)%N) as [->|Hx]; [by rewrite pretty_N_go_0|].
  rewrite pretty_N_go_step by lia.
  etrans; [|apply IH; apply N.div_lt; lia]. cbn. lia.
Qed.

Lemma pretty_N_digits (x : N) :
  digits_only (pretty x) /\ pretty x ≠ EmptyString.
Proof.
  unfold pretty, pretty_N. destruct (decide (x = 0)%N) as [->|Hx].
  - split; [|done]. by apply is_num_spec.
  - split; [apply pretty_N_go_digits; constructor|].
    rewrite pretty_N_go_step by lia.
    pose proof (pretty_N_go_length (x `div` 10)
                  (String (pretty_N_char (x `mod` 10)) EmptyString)) as Hl.
    intros Heq. rewrite Heq in Hl. cbn in Hl. lia.
Qed.

Lemma digits_only_free_of_dot (s : string) : digits_only s -> free_of "." s.
Proof.
  unfold digits_only, free_of. intros H. eapply Forall_impl; [exact H|].
  intros c Hc ->. cbn in Hc. lia.
Qed.

Lemma string_app_not_empty (s t : string) :
  s ≠ EmptyString -> s +:+ t ≠ EmptyString.
Proof. by destruct s. Qed.

(** The components of the numerical form of an object identifier are its
    arcs in decimal. *)
Lemma g_strsplit_numerical_form (a : ASN1_OBJECT) :
  g_strsplit (numerical_form a) "." = map pretty a.
Proof.
  unfold numerical_form. destruct a as [|x a]; [done|].
  cbn [map]. apply g_strsplit_join.
  - change (pretty x :: map pretty a) with (map pretty (x :: a)).
    apply Forall_map, Forall_forall. intros y _. cbn.
    apply digits_only_free_of_dot, pretty_N_digits.
  - destruct a as [|y a]; cbn [map]; [apply pretty_N_digits|].
    rewrite concat_cons2. apply string_app_not_empty, pretty_N_digits.
Qed.

Lemma substring_ge (s : string) :
  forall n : nat, (String.length s <= n)%nat -> String.substring 0 n s = s.
Proof.
  induction s as [|c s IH]; intros [|n] Hn; simpl in *; try lia; try done.
  by rewrite IH by lia.
Qed.

(** A numerical form that fits the buffer is written whole. *)
Lemma OBJ_obj2txt_fits (buf_len : Z) (a : ASN1_OBJECT) :
  Z.of_nat (String.length (numerical_form a)) < buf_len ->
  OBJ_obj2txt buf_len a = numerical_form a.
Proof. intros H. unfold OBJ_obj2txt. apply substring_ge. lia. Qed.

(** ** [decompress] *)

Lemma c_str_nul_app (s t : list byte) : c_str (s ++ x00 :: t) = c_str s.
Proof.
  induction s as [|b s IH]; cbn [app c_str]; [done|].
  destruct (Byte.eqb b x00); [done|]. by rewrite IH.
Qed.

(** The text of an array in which the NUL byte is stored behind the bytes
    that were read. *)
Lemma c_str_store (s t : list byte) :
  c_str (<[length s := x00]> (s ++ t)) = c_str s.
Proof.
  destruct t as [|y t].
  - rewrite app_nil_r. by rewrite list_insert_ge by lia.
  - rewrite insert_app_r_alt by lia. rewrite Nat.sub_diag. cbn [insert list_insert].
    apply c_str_nul_app.
Qed.

Lemma length_fresh_array `{stk : Stack} (n : Z) :
  length (fresh_array n) = Z.to_nat n.
Proof. unfold fresh_array. by rewrite length_map, length_seq. Qed.

Section DecompressFacts.
Context `{hdr : ProductIdH} `{pem : Pem} `{stk : Stack}.
Hypothesis CHUNK_ge_2 : 2 <= CHUNK.

Lemma chunks_step (len n : nat) :
  (0 < n)%nat -> (n <= len)%nat ->
  (len / n = S ((len - n) / n))%nat /\ (len mod n = (len - n) mod n)%nat.
Proof.
  intros Hn Hle.
  replace len with ((len - n) + 1 * n)%nat at 1 3 by lia.
  rewrite Nat.div_add by lia. rewrite Nat.Div0.mod_add. lia.
Qed.

(** The text left by a failed read is the same when the chunk before it is
    counted from the array that its read has left. *)
Lemma stale_text_step (buffer data : list byte) :
  let n := Z.to_nat (CHUNK - 1) in
  (n <= length data)%nat ->
  stale_text (take n data ++ [x00]) (drop n data) = stale_text buffer data.
Proof.
  intros n Hle. assert (Hn : (0 < n)%nat) by (subst n; lia).
  unfold stale_text. fold n. rewrite length_drop.
  destruct (chunks_step (length data) n Hn Hle) as [Hdiv _]. rewrite Hdiv.
  destruct ((length data - n) / n)%nat as [|j] eqn:Hj.
  - cbn [Nat.mul drop]. rewrite Nat.add_0_r. reflexivity.
  - rewrite !drop_drop.
    replace (n + S j * n)%nat with (S (S j) * n)%nat by lia.
    replace (n + j * n)%nat with (S j * n)%nat by lia.
    reflexivity.
Qed.

(** The run of the loop on a stream from which nothing has been read, for
    every content of the array. *)
Lemma decompress_loop_run (fuel : nat) :
  forall (data : list byte) (ending : gz_ending) (output : GString)
         (nul : list Z) (buffer : list byte),
  (length data < fuel)%nat ->
  length buffer = Z.to_nat CHUNK ->
  let n := Z.to_nat (CHUNK - 1) in
  let k := (length data / n)%nat in
  decompress_loop fuel
    {| gz_rest := data; gz_end := ending; gz_past := false; gz_err := 0 |}
    output nul buffer
  = Some {| d_ret := if faulty ending then FALSE else TRUE;
            d_output := if faulty ending then stale_text buffer data
                        else c_str (drop (k * n) data);
            d_input := drained ending;
            d_nul := nul ++ replicate k (CHUNK - 1)
                     ++ [if faulty ending then -1
                         else Z.of_nat (length data mod n)];
            d_log := if faulty ending
                     then [Log LError "Decompressing failed with error: %s."
                             []]
                     else [] |}.
Proof.
  induction fuel as [|fuel IH];
    intros data ending output nul buffer Hlen Hbuf n k; [lia|].
  assert (Hn : (0 < n)%nat) by (subst n; lia).
  assert (HSn : Z.to_nat CHUNK = S n) by (subst n; lia).
  cbn [decompress_loop]. unfold gzread. cbn [gz_rest gz_err gz_end gz_past].
  destruct (CHUNK - 1 <? 0) eqn:E0; [apply Z.ltb_lt in E0; lia|].
  cbn [Z.eqb negb andb].
  destruct (CHUNK - 1 <=? Z.of_nat (length data)) eqn:E1.
  - apply Z.leb_le in E1.
    rewrite E0, Z.ltb_irrefl.
    assert (Hle : (n <= length data)%nat) by (subst n; lia).
    destruct (chunks_step (length data) n Hn Hle) as [Hdiv Hmod].
    fold n.
    assert (Htake : length (take n data) = n) by (rewrite length_take; lia).
    rewrite Htake.
    destruct (drop n buffer) as [|y tl] eqn:Hdrop.
    { apply (f_equal length) in Hdrop. rewrite length_drop in Hdrop.
      cbn in Hdrop. lia. }
    assert (Htl : tl = []).
    { apply (f_equal length) in Hdrop. rewrite length_drop in Hdrop.
      cbn in Hdrop. destruct tl; [done|cbn in Hdrop; lia]. }
    subst tl.
    rewrite <- Htake at 1. rewrite insert_app_r_alt by lia.
    rewrite Htake at 1. rewrite Htake, Nat.sub_diag. cbn [insert list_insert].
    rewrite IH; [|rewrite length_drop; fold n; lia
                 |rewrite length_app, Htake; cbn; lia].
    fold n. rewrite length_drop. subst k. rewrite Hdiv, Hmod.
    rewrite drop_drop. cbn [replicate].
    replace (n + (length data - n) / n * n)%nat
      with (S ((length data - n) / n) * n)%nat by lia.
    rewrite <- app_assoc.
    pose proof (stale_text_step buffer data Hle) as Hst.
    cbn zeta in Hst. fold n in Hst. rewrite Hst. reflexivity.
  - apply Z.leb_gt in E1.
    assert (Hlt : (length data < n)%nat) by (subst n; lia).
    subst k. rewrite Nat.div_small, Nat.mod_small by lia.
    cbn [replicate Nat.mul drop app].
    assert (E3 : (Z.of_nat (length data) <? CHUNK - 1) = true)
      by (apply Z.ltb_lt; lia).
    assert (E4 : (-1 <? CHUNK - 1) = true) by (apply Z.ltb_lt; lia).
    assert (E5 : (Z.of_nat (length data) <? 0) = false)
      by (apply Z.ltb_ge; lia).
    destruct ending as [| |code]; cbn [faulty drained].
    + rewrite E3, E5. unfold g_string_printf_s.
      rewrite Nat2Z.id, c_str_store. reflexivity.
    + rewrite E3, E5. unfold g_string_printf_s.
      rewrite Nat2Z.id, c_str_store. reflexivity.
    + rewrite E4. cbn [Z.ltb Z.compare]. unfold g_string_printf_s, stale_text.
      fold n. rewrite Nat.div_small by lia. reflexivity.
Qed.

(** The run of [decompress] on a file as [gzopen] returns it. *)
Lemma decompress_loop_opened (fuel : nat) :
  forall (data : list byte) (ending : gz_ending) (output : GString)
         (nul : list Z),
  (length data < fuel)%nat ->
  let n := Z.to_nat (CHUNK - 1) in
  let k := (length data / n)%nat in
  decompress_loop fuel
    {| gz_rest := data; gz_end := ending; gz_past := false; gz_err := 0 |}
    output nul (fresh_array CHUNK)
  = Some {| d_ret := if faulty ending then FALSE else TRUE;
            d_output := if faulty ending
                        then stale_text (fresh_array CHUNK) data
                        else c_str (drop (k * n) data);
            d_input := drained ending;
            d_nul := nul ++ replicate k (CHUNK - 1)
                     ++ [if faulty ending then -1
                         else Z.of_nat (length data mod n)];
            d_log := if faulty ending
                     then [Log LError "Decompressing failed with error: %s."
                             []]
                     else [] |}.
Proof.
  intros data ending output nul Hlen.
  apply decompress_loop_run; [done|apply length_fresh_array].
Qed.

End DecompressFacts.

(** ** [getActive] *)

Lemma string_compare_refl (s : string) : String.compare s s = Eq.
Proof.
  pose proof (String.compare_antisym s s) as H.
  destruct (String.compare s s); simpl in H; congruence.
Qed.

Lemma g_strcmp0_eq (str1 str2 : string) :
  (g_strcmp0 str1 str2 =? 0) = bool_decide (str1 = str2).
Proof.
  unfold g_strcmp0. destruct (String.compare str1 str2) eqn:E.
  - apply String.compare_eq_iff in E. by rewrite bool_decide_eq_true_2.
  - rewrite bool_decide_eq_false_2; [done|]. intros ->.
    rewrite string_compare_refl in E. congruence.
  - rewrite bool_decide_eq_false_2; [done|]. intros ->.
    rewrite string_compare_refl in E. congruence.
Qed.

Lemma find_installed_spec (repo : DnfRepo) (i j : nat) (pkg : DnfPackage)
    (installedPackages : list DnfPackage) :
  forall (k : nat) (before : list DnfPackage),
  k = length before -> Forall (λ q, ¬ same_nevra pkg q) before ->
  forall (package_found : bool) (log : list event),
  find_installed repo i j k pkg installedPackages = (package_found, log) ->
  package_found = bool_decide (Exists (same_nevra pkg) installedPackages)
  /\ Forall (scan_event i) log
  /\ forall i' j' k', Compare i' j' k' ∈ log ->
       j' = j /\ forall m q, (m < k')%nat ->
                  (before ++ installedPackages) !! m = Some q ->
                  ¬ same_nevra pkg q.
Proof.
  induction installedPackages as [|instPkg rest IH];
    intros k before Hk Hbefore package_found log; cbn [find_installed].
  - intros [= <- <-]. split_and!; [done|constructor|].
    intros i' j' k' Hin. by apply elem_of_nil in Hin.
  - rewrite g_strcmp0_eq.
    destruct (bool_decide (dnf_package_get_nevra pkg
                           = dnf_package_get_nevra instPkg)) eqn:Hsame;
      [apply bool_decide_eq_true in Hsame
      |apply bool_decide_eq_false in Hsame].
    + intros [= <- <-]. split_and!.
      * symmetry. apply bool_decide_eq_true. by constructor.
      * repeat constructor.
      * intros i' j' k' Hin.
        apply elem_of_cons in Hin as [[= -> -> ->]|Hin].
        2:{ apply elem_of_cons in Hin as [?|Hin]; [done|].
            by apply elem_of_nil in Hin. }
        split; [done|]. intros m q Hm Hq.
        rewrite lookup_app_l in Hq by lia.
        rewrite Forall_forall in Hbefore. apply Hbefore.
        eapply list_elem_of_lookup_2. done.
    + destruct (find_installed repo i j (S k) pkg rest) as [b l] eqn:Hrec.
      intros [= <- <-].
      assert (Hk' : S k = length (before ++ [instPkg])).
      { rewrite length_app. cbn. lia. }
      assert (Hbefore' : Forall (λ q, ¬ same_nevra pkg q) (before ++ [instPkg])).
      { apply Forall_app. split; [done|]. by constructor. }
      destruct (IH _ _ Hk' Hbefore' _ _ Hrec) as (Hb & Hev & Hcmp).
      split_and!.
      * rewrite Hb. apply bool_decide_ext. rewrite Exists_cons.
        unfold same_nevra at 2. tauto.
      * constructor; [done|done].
      * intros i' j' k' Hin.
        apply elem_of_cons in Hin as [[= -> -> ->]|Hin].
        -- split; [done|]. intros m q Hm Hq.
           rewrite lookup_app_l in Hq by lia.
           rewrite Forall_forall in Hbefore. apply Hbefore.
           eapply list_elem_of_lookup_2. done.
        -- destruct (Hcmp _ _ _ Hin) as [-> Hmiss]. split; [done|].
           intros m q Hm Hq. apply (Hmiss m q Hm).
           by rewrite <- app_assoc.
Qed.

Lemma scan_event_not_query (i : nat) (log : list event) :
  Forall (scan_event i) log -> Forall (λ e, e ≠ QueryInstalled) log.
Proof. intros H. eapply Forall_impl; [exact H|]. by intros [] ?. Qed.

Lemma occurrences_none (e : event) (log : list event) :
  Forall (λ x, x ≠ e) log -> occurrences e log = 0%nat.
Proof.
  unfold occurrences. induction 1 as [|x l Hx _ IH]; [done|].
  by rewrite filter_cons_False.
Qed.

Lemma occurrences_app (e : event) (l1 l2 : list event) :
  occurrences e (l1 ++ l2) = (occurrences e l1 + occurrences e l2)%nat.
Proof. unfold occurrences. by rewrite filter_app, length_app. Qed.

Lemma scan_available_spec (repo : DnfRepo) (i : nat)
    (installedPackages availPackageList : list DnfPackage) :
  forall (j : nat) (before : list DnfPackage),
  j = length before ->
  Forall (λ p, ¬ Exists (same_nevra p) installedPackages) before ->
  forall (added : bool) (log : list event),
  scan_available repo i j availPackageList installedPackages = (added, log) ->
  added = bool_decide (Exists (λ pkg, Exists (same_nevra pkg) installedPackages)
                         availPackageList)
  /\ Forall (scan_event i) log
  /\ forall i' j' k', Compare i' j' k' ∈ log ->
       no_match_before (before ++ availPackageList)
         installedPackages j' k'.
Proof.
  induction availPackageList as [|pkg rest IH];
    intros j before Hj Hbefore added log; cbn [scan_available].
  - intros [= <- <-]. split_and!; [done|constructor|].
    intros i' j' k' Hin. by apply elem_of_nil in Hin.
  - destruct (find_installed repo i j 0 pkg installedPackages)
      as [package_found log1] eqn:Hfind.
    destruct (find_installed_spec repo i j pkg installedPackages 0 []
                eq_refl (Forall_nil_2 _) _ _ Hfind) as (Hb & Hev & Hcmp).
    assert (Hfirst : forall i' j' k', Compare i' j' k' ∈ log1 ->
              no_match_before (before ++ pkg :: rest)
                installedPackages j' k').
    { intros i' j' k' Hin. destruct (Hcmp _ _ _ Hin) as [-> Hmiss].
      intros j'' k'' p q [Hlt|[-> Hlt]] Hp Hq.
      - rewrite lookup_app_l in Hp by lia.
        rewrite Forall_forall in Hbefore.
        intros Hsame. eapply Hbefore; [by eapply list_elem_of_lookup_2|].
        apply Exists_exists. exists q. split; [|done].
        by eapply list_elem_of_lookup_2.
      - rewrite lookup_app_r in Hp by lia.
        replace (j - length before)%nat with 0%nat in Hp by lia.
        cbn in Hp. injection Hp as <-. by apply (Hmiss k'' q). }
    destruct package_found.
    + intros [= <- <-]. split_and!; [|done|done].
      symmetry. apply bool_decide_eq_true. constructor.
      symmetry in Hb. by apply bool_decide_eq_true in Hb.
    + destruct (scan_available repo i (S j) rest installedPackages)
        as [added' log'] eqn:Hrec.
      intros [= <- <-].
      symmetry in Hb. apply bool_decide_eq_false in Hb.
      assert (Hj' : S j = length (before ++ [pkg])).
      { rewrite length_app. cbn. lia. }
      assert (Hbefore' :
        Forall (λ p, ¬ Exists (same_nevra p) installedPackages)
          (before ++ [pkg])).
      { apply Forall_app. split; [done|]. by constructor. }
      destruct (IH _ _ Hj' Hbefore' _ _ Hrec) as (Hb' & Hev' & Hcmp').
      split_and!.
      * rewrite Hb'. apply bool_decide_ext. rewrite Exists_cons. tauto.
      * by apply Forall_app.
      * intros i' j' k' [Hin|Hin]%elem_of_app; [by eauto|].
        specialize (Hcmp' _ _ _ Hin). by rewrite <- app_assoc in Hcmp'.
Qed.

Lemma scan_repos_spec (dnfSack installedPackages : list DnfPackage)
    (repoAndProductIds : list RepoProductId) :
  let avail rp := hy_query_run dnfSack (dnf_repo_get_id (repo rp)) in
  let supplies rp :=
    Exists (λ pkg, Exists (same_nevra pkg) installedPackages) (avail rp) in
  forall (i : nat) (before : list RepoProductId),
  i = length before ->
  forall (activeRepoAndProductIds active : list RepoProductId)
         (log : list event),
  scan_repos dnfSack i repoAndProductIds installedPackages
    activeRepoAndProductIds = (active, log) ->
  active = activeRepoAndProductIds ++ filter supplies repoAndProductIds
  /\ Forall (λ e, e ≠ QueryInstalled) log
  /\ forall i' j' k', Compare i' j' k' ∈ log ->
       exists rp, (before ++ repoAndProductIds) !! i' = Some rp
         /\ no_match_before (avail rp) installedPackages
              j' k'.
Proof.
  intros avail supplies.
  induction repoAndProductIds as [|rp rest IH];
    intros i before Hi active0 active log; cbn [scan_repos].
  - intros [= <- <-]. split_and!; [by rewrite app_nil_r|constructor|].
    intros i' j' k' Hin. by apply elem_of_nil in Hin.
  - destruct (scan_available (repo rp) i 0
                (hy_query_run dnfSack (dnf_repo_get_id (repo rp)))
                installedPackages) as [added log1] eqn:Hscan.
    destruct (scan_available_spec _ _ _ _ 0 [] eq_refl (Forall_nil_2 _)
                _ _ Hscan) as (Hadded & Hev & Hcmp).
    destruct (scan_repos dnfSack (S i) rest installedPackages
                (if added then active0 ++ [rp] else active0))
      as [active' log'] eqn:Hrec.
    intros [= <- <-].
    assert (Hi' : S i = length (before ++ [rp])).
    { rewrite length_app. cbn. lia. }
    destruct (IH _ _ Hi' _ _ _ Hrec) as (Hactive & Hnq & Hcmp').
    split_and!.
    + rewrite Hactive. destruct added; symmetry in Hadded.
      * apply bool_decide_eq_true in Hadded.
        rewrite filter_cons_True by done. by rewrite <- app_assoc.
      * apply bool_decide_eq_false in Hadded.
        by rewrite filter_cons_False by done.
    + constructor; [done|]. apply Forall_app. split; [|done].
      by eapply scan_event_not_query.
    + intros i' j' k' Hin.
      apply elem_of_cons in Hin as [?|Hin]; [done|].
      apply elem_of_app in Hin as [Hin|Hin].
      * exists rp. split.
        -- rewrite Forall_forall in Hev. specialize (Hev _ Hin). cbn in Hev.
           subst i'. rewrite lookup_app_r by lia.
           by replace (i - length before)%nat with 0%nat by lia.
        -- by apply (Hcmp i').
      * destruct (Hcmp' _ _ _ Hin) as (rp' & Hrp & Hfirst).
        exists rp'. by rewrite <- app_assoc in Hrp.
Qed.

(** C2. When the sack for the rpm database can be made, [getActive] marks
    as active exactly the repositories with a fetched productid file that
    supply an installed package: a package available from the repository
    has the NEVRA of an installed package. The active repositories are the
    filter of the candidates, in their order. The installed packages are
    queried once in the pass. Each comparison the scan makes for a
    repository comes before any match of that repository: once a package
    matches, no further comparison is made for it. *)
Theorem getActive_marks_suppliers_of_installed_packages
    (context : DnfContext) (db : RpmDb)
    (repoAndProductIds : list RepoProductId) :
  rpmdb_new db = true ->
  exists active log,
    getActive context db repoAndProductIds [] = (active, log)
    /\ active = filter (supplies_installed context db) repoAndProductIds
    /\ occurrences QueryInstalled log = 1%nat
    /\ forall i j k, Compare i j k ∈ log ->
         exists rp, repoAndProductIds !! i = Some rp
           /\ no_match_before (available context rp)
                (installed db) j k.
Proof.
  intros Hnew. unfold getActive. rewrite Hnew. cbn [negb].
  destruct (scan_repos (ctx_sack context) 0 repoAndProductIds
              (hy_query_run (rpmDbSack db) HY_SYSTEM_REPO_NAME) [])
    as [active log] eqn:Hscan.
  destruct (scan_repos_spec _ _ _ 0 [] eq_refl _ _ _ Hscan)
    as (Hactive & Hnq & Hcmp).
  eexists _, _. split; [reflexivity|]. split_and!.
  - exact Hactive.
  - rewrite !occurrences_app.
    rewrite (occurrences_none _ (if rpmdb_setup db then _ else _))
      by (destruct (rpmdb_setup db); repeat constructor; done).
    rewrite (occurrences_none _ (match rpmdb_system db with _ => _ end))
      by (destruct (rpmdb_system db); repeat constructor; done).
    pose proof (occurrences_none _ _ Hnq) as Hlog.
    unfold occurrences in *. rewrite filter_cons_True by done.
    cbn [length]. rewrite Hlog. reflexivity.
  - intros i j k Hin.
    apply elem_of_app in Hin as [Hin|Hin].
    { destruct (rpmdb_setup db); [by apply elem_of_nil in Hin|].
      apply elem_of_cons in Hin as [?|Hin]; [done|by apply elem_of_nil in Hin]. }
    apply elem_of_app in Hin as [Hin|Hin].
    { destruct (rpmdb_system db); [by apply elem_of_nil in Hin|].
      apply elem_of_cons in Hin as [?|Hin]; [done|by apply elem_of_nil in Hin]. }
    apply elem_of_cons in Hin as [?|Hin]; [done|].
    by apply Hcmp.
Qed.

Lemma getActive_marks_suppliers_of_installed_packages_witness :
  rpmdb_new sample_rpmdb = true
  /\ exists active log,
       getActive sample_context sample_rpmdb [rp_a; rp_b] [] = (active, log)
       /\ active = filter (supplies_installed sample_context sample_rpmdb)
                     [rp_a; rp_b]
       /\ occurrences QueryInstalled log = 1%nat
       /\ forall i j k, Compare i j k ∈ log ->
            exists rp, [rp_a; rp_b] !! i = Some rp
              /\ no_match_before (available sample_context rp)
                   (installed sample_rpmdb) j k.
Proof.
  split; [reflexivity|].
  exact (getActive_marks_suppliers_of_installed_packages sample_context sample_rpmdb [rp_a; rp_b] eq_refl).
Defined.

(** On the sample data [repo-a] supplies the installed package [foo] and
    [repo-b] supplies none; the scan of [repo-a] stops at [foo], its second
    package, and never looks at the third. *)
Example getActive_sample :
  getActive sample_context sample_rpmdb [rp_a; rp_b] []
  = ([rp_a],
     [QueryInstalled;
      QueryAvailable 0 "repo-a";
      Compare 0 0 0; Compare 0 0 1; Compare 0 1 0; Compare 0 1 1;
      Log LDebug "Repo %s marked active due to installed package %s"
        ["repo-a"; "foo-0:1.0-1.x86_64"];
      QueryAvailable 1 "repo-b"; Compare 1 0 0; Compare 1 0 1]).
Proof. vm_compute. reflexivity. Qed.

(** ** The loop of [findProductId] *)

Section FindFacts.
Context `{hdr : ProductIdH} `{pem : Pem} `{stk : Stack}.

Lemma scan_extensions_none (x509 : X509) (ret_val : Z) (result : string) :
  forall (rest before : list X509_EXTENSION),
  x509_extensions x509 = before ++ rest ->
  Forall (λ e, vendor e = false) rest ->
  scan_extensions (length rest) (length before) x509 ret_val result
  = (ret_val, false, result, []).
Proof.
  induction rest as [|ext rest IH]; intros before Hx Hall; [done|].
  cbn [length scan_extensions]. unfold X509_get_ext.
  rewrite Hx, lookup_app_r by lia.
  replace (length before - length before)%nat with 0%nat by lia.
  cbn [lookup list_lookup]. apply Forall_cons in Hall as [Hv Hall].
  unfold vendor, oid_text in Hv. rewrite Hv.
  replace (S (length before)) with (length (before ++ [ext]))
    by (rewrite length_app; cbn; lia).
  apply IH; [by rewrite <- app_assoc | done].
Qed.

Lemma scan_extensions_first (x509 : X509) (ret_val : Z) (result : string)
    (ext : X509_EXTENSION) (after : list X509_EXTENSION) :
  forall (skipped before : list X509_EXTENSION),
  x509_extensions x509 = before ++ skipped ++ ext :: after ->
  Forall (λ e, vendor e = false) skipped ->
  vendor ext = true ->
  scan_extensions (length (skipped ++ ext :: after)) (length before) x509
    ret_val result
  = if (9 <? Z.of_nat (length (components ext))) then
      let id := default EmptyString (components ext !! 9%nat) in
      (ret_val, true, id, [Log LDebug "ID of product certificate: %s" [id]])
    else
      (-1, true, result,
       [Log LError "Product certificate does not contain required ID" []]).
Proof.
  induction skipped as [|e skipped IH]; intros before Hx Hall Hv.
  - cbn [app length scan_extensions]. unfold X509_get_ext.
    rewrite Hx, lookup_app_r by lia.
    replace (length before - length before)%nat with 0%nat by lia.
    cbn [app lookup list_lookup].
    unfold vendor, oid_text in Hv. rewrite Hv. reflexivity.
  - cbn [app length scan_extensions]. unfold X509_get_ext.
    rewrite Hx, lookup_app_r by lia.
    replace (length before - length before)%nat with 0%nat by lia.
    cbn [app lookup list_lookup]. apply Forall_cons in Hall as [He Hall].
    unfold vendor, oid_text in He. rewrite He.
    replace (S (length before)) with (length (before ++ [e]))
      by (rewrite length_app; cbn; lia).
    apply IH; [by rewrite <- app_assoc | done | done].
Qed.

End FindFacts.

(** ** The product database and the certificate directory *)
Lemma hasProductId_init (productId : string) :
  hasProductId initProductDb productId = false.
Proof.
  unfold hasProductId, initProductDb. cbn. apply bool_decide_eq_false.
  rewrite lookup_empty. by intros [? ?].
Qed.

Lemma hasProductId_addRepoId (productDb : ProductDb) (p r q : string) :
  hasProductId (addRepoId productDb p r) q = true
  <-> q = p \/ hasProductId productDb q = true.
Proof.
  unfold hasProductId, addRepoId. cbn. rewrite !bool_decide_eq_true.
  destruct (decide (p = q)) as [->|Hne].
  - rewrite lookup_insert_eq. split; [by left | by eauto].
  - rewrite lookup_insert_ne by done. split; [by right|].
    intros [->|?]; done.
Qed.

Lemma repos_of_addRepoId (productDb : ProductDb) (p r q x : string) :
  x ∈ repos_of (addRepoId productDb p r) q
  <-> (q = p /\ x = r) \/ x ∈ repos_of productDb q.
Proof.
  unfold repos_of, addRepoId. cbn.
  destruct (decide (p = q)) as [->|Hne].
  - rewrite lookup_insert_eq. cbn. rewrite elem_of_union, elem_of_singleton.
    tauto.
  - rewrite lookup_insert_ne by done. split; [by right|].
    intros [[-> _]|?]; done.
Qed.

Lemma repos_of_init (p x : string) : x ∉ repos_of initProductDb p.
Proof. unfold repos_of, initProductDb. cbn. rewrite lookup_empty. set_solver. Qed.

Lemma mkdir_certs_spec (cs cs' : CertStore) (ret : Z) :
  mkdir_certs cs = (ret, cs') ->
  cs_creatable cs' = cs_creatable cs /\ cs_frozen cs' = cs_frozen cs
  /\ cs_errno cs' = cs_errno cs
  /\ (forall f, cert_file cs' f = cert_file cs f).
Proof.
  unfold mkdir_certs, cert_file. destruct (cs_dir cs) eqn:Hdir.
  - intros [= <- <-]. by rewrite Hdir.
  - destruct (cs_creatable cs) eqn:Hc; intros [= <- <-]; cbn;
      [|by rewrite Hdir].
    by split_and!.
Qed.

Lemma write_cert_spec (cs cs' : CertStore) (name : string)
    (content : list byte) :
  write_cert cs name content = Some cs' ->
  cs_creatable cs' = cs_creatable cs /\ cs_frozen cs' = cs_frozen cs
  /\ cs_errno cs' = cs_errno cs
  /\ (forall f, cert_file cs' f =
        if bool_decide (f = name) then Some (c_str content)
        else cert_file cs f).
Proof.
  unfold write_cert, cert_file. destruct (cs_dir cs) eqn:Hdir; [|done].
  destruct (bool_decide (name ∈ cs_unwritable cs)); [done|].
  intros [= <-]. cbn. split_and!; try done. intros f.
  destruct (decide (f = name)) as [->|Hne].
  - rewrite bool_decide_eq_true_2 by done. apply lookup_insert_eq.
  - rewrite bool_decide_eq_false_2 by done. by apply lookup_insert_ne.
Qed.

(** Making the directory and writing a file leave the names that cannot be
    written as they are; a file is written exactly when there is a directory
    and its name is not among them. *)
Lemma mkdir_certs_unwritable (cs cs' : CertStore) (ret : Z) :
  mkdir_certs cs = (ret, cs') -> cs_unwritable cs' = cs_unwritable cs.
Proof.
  unfold mkdir_certs. destruct (cs_dir cs); [by intros [= <- <-]|].
  destruct (cs_creatable cs); by intros [= <- <-].
Qed.

Lemma write_cert_unwritable (cs : CertStore) (name : string)
    (content : list byte) :
  match write_cert cs name content with
  | Some cs' =>
      cs_unwritable cs' = cs_unwritable cs /\ (name ∉ cs_unwritable cs)
      /\ is_Some (cs_dir cs')
  | None => is_Some (cs_dir cs) -> name ∈ cs_unwritable cs
  end.
Proof.
  unfold write_cert. destruct (cs_dir cs) as [files|]; [|by intros [? ?]].
  destruct (bool_decide (name ∈ cs_unwritable cs)) eqn:E.
  - intros _. by apply bool_decide_eq_true in E.
  - apply bool_decide_eq_false in E. cbn. by eauto.
Qed.

Lemma certs_grown_refl (w : World) : certs_grown w w.
Proof. by destruct w. Qed.

Lemma certs_grown_trans (w1 w2 w3 : World) :
  certs_grown w1 w2 -> certs_grown w2 w3 -> certs_grown w1 w3.
Proof.
  intros (Ha&?&?&?&Hfa) (Hb&?&?&?&Hfb). split_and!; try congruence.
  - rewrite Hb. rewrite Ha at 1. reflexivity.
  - eauto.
Qed.

(** ** [installProductId] *)

Section InstallFacts.
Context `{hdr : ProductIdH} `{pem : Pem} `{stk : Stack}.

Lemma decompress_loop_log (fuel : nat) :
  forall (input : gzFile) (output : GString) (nul : list Z)
         (buffer : list byte) (d : decompressed),
  decompress_loop fuel input output nul buffer = Some d ->
  d_log d = []
  \/ d_log d = [Log LError "Decompressing failed with error: %s." []].
Proof.
  induction fuel as [|fuel IH]; intros input output nul buffer d; [done|].
  cbn [decompress_loop].
  destruct (gzread input (CHUNK - 1)) as [[bytes_read stored] input'].
  destruct (bytes_read <? CHUNK - 1); [|by apply IH].
  destruct (gzeof input'); [intros [= <-]; by left|].
  destruct (negb _); [intros [= <-]; by right|by apply IH].
Qed.

Lemma findProductId_log (certContent : GString) (result : string) :
  Forall (λ e, ∃ lvl fmt args, e = Log lvl fmt args)
    (f_log (findProductId certContent result)).
Proof.
  assert (Hscan : forall n i x509 ret_val res,
            Forall (λ e, ∃ lvl fmt args, e = Log lvl fmt args)
              (scan_extensions n i x509 ret_val res).2).
  { induction n as [|n IH]; intros i x509 ret_val res; cbn [scan_extensions].
    - constructor.
    - destruct (X509_get_ext x509 i); [|repeat constructor; eauto].
      destruct (g_str_has_prefix _ _); [|apply IH].
      destruct (9 <? _); repeat constructor; eauto. }
  unfold findProductId.
  destruct (BIO_new_mem_buf certContent); [|repeat constructor; eauto].
  destruct (PEM_read_bio_X509 _) as [x509|]; [|repeat constructor; eauto].
  specialize (Hscan (Z.to_nat (X509_get_ext_count x509)) 0%nat x509 1 result).
  destruct (scan_extensions _ _ _ _ _) as [[[ret_val found_] res] log].
  cbn in Hscan. destruct found_; cbn; [done|].
  apply Forall_app. split; [done|]. repeat constructor; eauto.
Qed.

Lemma log_lines_install (log : list event) :
  Forall (λ e, ∃ lvl fmt args, e = Log lvl fmt args) log ->
  Forall install_event log /\ forall p r, AddRepoId p r ∉ log.
Proof.
  intros H. split.
  - eapply Forall_impl; [exact H|]. by intros ? (?&?&?&->).
  - intros p r Hin. rewrite Forall_forall in H.
    by destruct (H _ Hin) as (?&?&?&?).
Qed.

Lemma installProductId_spec (rp : RepoProductId) (productDb db' : ProductDb)
    (w w' : World) (ret : Z) (log : list event) :
  installProductId rp productDb w = Some (ret, db', w', log) ->
  Forall install_event log /\ certs_grown w w'
  /\ ((exists productId,
         db' = addRepoId productDb productId (dnf_repo_get_id (repo rp))
         /\ is_Some (cert_file (w_certs w') (productId +:+ ".pem"))
         /\ forall p r, AddRepoId p r ∈ log
                        <-> p = productId /\ r = dnf_repo_get_id (repo rp))
      \/ (db' = productDb /\ forall p r, AddRepoId p r ∉ log)).
Proof.
  unfold installProductId.
  destruct (gzopen w (productIdPath rp)) as [input|].
  2:{ intros [= <- <- <- <-]. split_and!.
      - repeat constructor.
      - apply certs_grown_refl.
      - right. split; [done|]. intros p r Hin.
        split_elem_of_in Hin. naive_solver. }
  destruct (decompress _ input []) as [d|] eqn:Hdec; [|done].
  assert (Hd : Forall (λ e, ∃ lvl fmt args, e = Log lvl fmt args) (d_log d)).
  { destruct (decompress_loop_log _ _ _ _ _ _ Hdec) as [-> | ->];
      repeat constructor; eauto. }
  apply log_lines_install in Hd as [Hd1 Hd2].
  pose proof (findProductId_log (d_output d) EmptyString) as Hf.
  apply log_lines_install in Hf as [Hf1 Hf2].
  set (f := findProductId (d_output d) EmptyString) in *.
  destruct (d_ret d =? FALSE).
  { intros [= <- <- <- <-]. split_and!.
    - by repeat constructor.
    - apply certs_grown_refl.
    - right. split; [done|]. intros p r Hin.
      split_elem_of_in Hin. naive_solver. }
  destruct (negb (f_ret f =? 0)).
  2:{ intros [= <- <- <- <-]. split_and!.
      - split_Forall; done.
      - apply certs_grown_refl.
      - right. split; [done|]. intros p r Hin.
        split_elem_of_in Hin. naive_solver. }
  destruct (mkdir_certs (w_certs w)) as [ret_val cs] eqn:Hmk.
  destruct (mkdir_certs_spec _ _ _ Hmk) as (Hc&Hz&He&Hfile).
  assert (Hgrow : certs_grown w (set_certs w cs)).
  { unfold certs_grown. cbn. split_and!; try done.
    intros g. by rewrite Hfile. }
  destruct (ret_val =? 0).
  2:{ intros [= <- <- <- <-]. split_and!; [|done|].
      - split_Forall; done.
      - right. split; [done|]. intros p r Hin.
        split_elem_of_in Hin. naive_solver. }
  destruct (write_cert cs (f_result f +:+ ".pem") (d_output d))
    as [cs'|] eqn:Hwr.
  2:{ intros [= <- <- <- <-]. split_and!; [|done|].
      - split_Forall; done.
      - right. split; [done|]. intros p r Hin.
        split_elem_of_in Hin. naive_solver. }
  destruct (write_cert_spec _ _ _ _ Hwr) as (Hc'&Hz'&He'&Hfile').
  intros [= <- <- <- <-]. split_and!.
  - split_Forall; done.
  - unfold certs_grown. cbn. split_and!; try congruence.
    intros g Hg. rewrite Hfile'. destruct (bool_decide _); [by eauto|].
    by rewrite Hfile.
  - left. exists (f_result f). split_and!; [done| |].
    + cbn. rewrite Hfile'. rewrite bool_decide_eq_true_2 by done. by eauto.
    + intros p r.
      split_elem_of. naive_solver.
Qed.

Lemma install_active_spec (active : list RepoProductId) :
  forall (productDb db' : ProductDb) (w w' : World) (log : list event),
  install_active active productDb w = Some (db', w', log) ->
  Forall install_event log /\ certs_grown w w'
  /\ path db' = path productDb
  /\ (forall p, hasProductId db' p = true
                <-> hasProductId productDb p = true
                    \/ exists r, AddRepoId p r ∈ log)
  /\ (forall p r, r ∈ repos_of db' p
                  <-> r ∈ repos_of productDb p \/ AddRepoId p r ∈ log)
  /\ (forall p r, AddRepoId p r ∈ log
                  -> is_Some (cert_file (w_certs w') (p +:+ ".pem"))).
Proof.
  induction active as [|rp rest IH]; intros productDb db' w w' log;
    cbn [install_active].
  - intros [= <- <- <-]. split_and!; [constructor|apply certs_grown_refl|done| | |].
    + intros p. split; [by left|]. intros [?|[r Hin]]; [done|].
      by apply elem_of_nil in Hin.
    + intros p r. split; [by left|]. intros [?|Hin]; [done|].
      by apply elem_of_nil in Hin.
    + intros p r Hin. by apply elem_of_nil in Hin.
  - destruct (installProductId rp productDb w)
      as [[[[ret db1] w1] log1]|] eqn:Hinst; [|done].
    destruct (install_active rest db1 w1) as [[[db2 w2] log2]|] eqn:Hrec;
      [|done].
    intros [= <- <- <-].
    destruct (installProductId_spec _ _ _ _ _ _ _ Hinst) as (Hev1&Hg1&Hdb1).
    destruct (IH _ _ _ _ _ Hrec) as (Hev2&Hg2&Hp2&Hhas2&Hrep2&Hfile2).
    assert (Hadd : forall p r,
              AddRepoId p r ∈ Log LDebug "Handling active repo %s\n"
                                 [dnf_repo_get_id (repo rp)] :: log1 ++ log2
              <-> AddRepoId p r ∈ log1 \/ AddRepoId p r ∈ log2).
    { intros p r. rewrite elem_of_cons, elem_of_app. split; [|by auto].
      intros [?|?]; done. }
    split_and!.
    + constructor; [done|]. by apply Forall_app_2.
    + by eapply certs_grown_trans.
    + rewrite Hp2. destruct Hdb1 as [(pid&->&_)|[-> _]]; done.
    + intros p. rewrite Hhas2. setoid_rewrite Hadd.
      destruct Hdb1 as [(pid&->&_&Hlog1)|[-> Hlog1]].
      * rewrite hasProductId_addRepoId. setoid_rewrite Hlog1.
        split; [intros [[->|?]|[r ?]]; eauto 6|].
        intros [?|[r [[-> _]|?]]]; eauto.
      * split; [intros [?|[r ?]]; eauto|].
        intros [?|[r [Hin|?]]]; eauto. by apply Hlog1 in Hin.
    + intros p r. rewrite Hrep2, Hadd.
      destruct Hdb1 as [(pid&->&_&Hlog1)|[-> Hlog1]].
      * rewrite repos_of_addRepoId, Hlog1. tauto.
      * split; [tauto|]. intros [?|[Hin|?]]; auto. by apply Hlog1 in Hin.
    + intros p r [Hin|Hin]%Hadd; [|by eauto].
      destruct Hdb1 as [(pid&->&Hfile1&Hlog1)|[-> Hlog1]];
        [|by apply Hlog1 in Hin].
      apply Hlog1 in Hin as [-> ->].
      destruct Hg2 as (_&_&_&_&Hmono). by apply Hmono.
Qed.

End InstallFacts.

(** ** The pass of [pluginHook] *)

Section HookFacts.
Context `{hdr : ProductIdH} `{pem : Pem} `{stk : Stack}.

Lemma fetch_enabled_log (dnfContext : DnfContext) (enabledRepos : list DnfRepo) :
  forall (acc all : list RepoProductId) (log : list event),
  fetch_enabled dnfContext enabledRepos acc = (all, log) ->
  Forall fetch_event log.
Proof.
  induction enabledRepos as [|r rest IH]; intros acc all log;
    cbn [fetch_enabled].
  - intros [= <- <-]. constructor.
  - destruct (repo_md r) as [| |[]].
    + destruct (fetch_enabled dnfContext rest acc) as [all' log'] eqn:Hrec.
      intros [= <- <-]. apply IH in Hrec. split_Forall; done.
    + destruct (fetch_enabled dnfContext rest acc) as [all' log'] eqn:Hrec.
      intros [= <- <-]. apply IH in Hrec. split_Forall; done.
    + unfold fetchProductId. destruct (repo_fetch r) as [local|].
      * destruct (fetch_enabled dnfContext rest _) as [all' log'] eqn:Hrec.
        intros [= <- <-]. apply IH in Hrec.
        destruct (ctx_cache_only dnfContext); split_Forall; done.
      * destruct (fetch_enabled dnfContext rest _) as [all' log'] eqn:Hrec.
        intros [= <- <-]. apply IH in Hrec.
        destruct (ctx_cache_only dnfContext); split_Forall; done.
    + destruct (fetch_enabled dnfContext rest acc) as [all' log'] eqn:Hrec.
      intros [= <- <-]. apply IH in Hrec. split_Forall; done.
Qed.

Lemma find_installed_log (repo : DnfRepo) (i j : nat) (pkg : DnfPackage)
    (installedPackages : list DnfPackage) :
  forall k, Forall active_event (find_installed repo i j k pkg installedPackages).2.
Proof.
  induction installedPackages as [|q rest IH]; intros k; cbn [find_installed].
  - constructor.
  - destruct (_ =? 0); [by repeat constructor|].
    specialize (IH (S k)). destruct (find_installed _ _ _ _ _ _).
    by constructor.
Qed.

Lemma scan_available_log (repo : DnfRepo) (i : nat)
    (availPackageList installedPackages : list DnfPackage) :
  forall j,
  Forall active_event
    (scan_available repo i j availPackageList installedPackages).2.
Proof.
  induction availPackageList as [|p rest IH]; intros j; cbn [scan_available].
  - constructor.
  - pose proof (find_installed_log repo i j p installedPackages 0) as Hf.
    destruct (find_installed _ _ _ _ _ _) as [[] log]; [done|].
    specialize (IH (S j)). destruct (scan_available _ _ _ _ _).
    by apply Forall_app_2.
Qed.

Lemma scan_repos_log (dnfSack installedPackages : list DnfPackage)
    (repoAndProductIds : list RepoProductId) :
  forall i acc,
  Forall active_event
    (scan_repos dnfSack i repoAndProductIds installedPackages acc).2.
Proof.
  induction repoAndProductIds as [|rp rest IH]; intros i acc;
    cbn [scan_repos].
  - constructor.
  - pose proof (scan_available_log (repo rp) i
                  (hy_query_run dnfSack (dnf_repo_get_id (repo rp)))
                  installedPackages 0) as Ha.
    destruct (scan_available _ _ _ _ _) as [added log].
    specialize (IH (S i) (if added then acc ++ [rp] else acc)).
    destruct (scan_repos _ _ _ _ _). cbn in *.
    constructor; [done|]. by apply Forall_app_2.
Qed.

Lemma getActive_log (context : DnfContext) (db : RpmDb)
    (repoAndProductIds acc : list RepoProductId) :
  Forall active_event (getActive context db repoAndProductIds acc).2.
Proof.
  unfold getActive. destruct (rpmdb_new db); cbn [negb]; [|by repeat constructor].
  pose proof (scan_repos_log (ctx_sack context)
                (hy_query_run (rpmDbSack db) HY_SYSTEM_REPO_NAME)
                repoAndProductIds 0 acc) as Hs.
  destruct (scan_repos _ _ _ _ _). cbn in *.
  destruct (rpmdb_setup db), (rpmdb_system db); split_Forall; done.
Qed.

Lemma sweep_names_log (productDb : ProductDb) (names : list string) :
  forall cs, Forall sweep_event (sweep_names productDb names cs).2.
Proof.
  induction names as [|n rest IH]; intros cs; cbn [sweep_names].
  - cbn. destruct (_ && _ && _); by repeat constructor.
  - destruct (g_str_has_suffix n ".pem"); [|apply IH].
    destruct (negb (is_num _)).
    { specialize (IH cs). destruct (sweep_names _ _ _). by constructor. }
    destruct (negb (hasProductId _ _)); [|apply IH].
    destruct (g_remove cs n) as [ret cs0]. specialize (IH cs0).
    destruct (sweep_names _ _ _). cbn in *.
    destruct (ret =? -1); split_Forall; done.
Qed.

Lemma removeUnusedProductCerts_log (productDb : ProductDb) (cs : CertStore) :
  Forall sweep_event (removeUnusedProductCerts productDb cs).2.
Proof.
  unfold removeUnusedProductCerts. destruct (g_dir_open cs) as [names|].
  - pose proof (sweep_names_log productDb names cs) as Hs.
    destruct (sweep_names _ _ _). by constructor.
  - by repeat constructor.
Qed.

(** What [removeUnusedProductCerts] does to the directory, whatever its
    state. *)
Lemma removeUnusedProductCerts_spec (productDb : ProductDb) (cs : CertStore) :
  exists cs' log,
    removeUnusedProductCerts productDb cs = (0, cs', log)
    /\ cs_frozen cs' = cs_frozen cs
    /\ (forall f, cert_file cs' f =
          if doomed productDb f && bool_decide (f ∉ cs_frozen cs)
          then None else cert_file cs f)
    /\ (forall f, Remove (PRODUCT_CERT_DIR +:+ f) ∈ log
                  <-> is_Some (cert_file cs f) /\ doomed productDb f = true).
Proof.
  unfold removeUnusedProductCerts, g_dir_open.
  destruct (cs_dir cs) as [files|] eqn:Hdir.
  - destruct (sweep_names productDb (elements (dom files)) cs)
      as [cs' log] eqn:Hs.
    destruct (sweep_names_spec _ _ _ _ _ Hs) as (_&Hz&_&_&Hf&Hr).
    eexists _, _. split; [reflexivity|]. split_and!; [done| |].
    + intros f. rewrite Hf.
      destruct (files !! f) eqn:Hl.
      * rewrite bool_decide_eq_true_2; [done|].
        apply elem_of_elements, elem_of_dom. by eauto.
      * assert (Hc : cert_file cs f = None)
          by (unfold cert_file; by rewrite Hdir).
        rewrite Hc. by destruct (_ && _ && _), (_ && _).
    + intros f. rewrite elem_of_cons, Hr, elem_of_elements, elem_of_dom.
      unfold cert_file. rewrite Hdir. split; [|by auto].
      intros [?|?]; done.
  - eexists _, _. split; [reflexivity|]. split_and!; [done| |].
    + intros f. unfold cert_file. rewrite Hdir. by destruct (_ && _).
    + intros f. unfold cert_file. rewrite Hdir. split.
      * intros Hin. split_elem_of_in Hin. naive_solver.
      * intros [[? ?] _]. done.
Qed.

Lemma installProductId_total (rp : RepoProductId) (productDb : ProductDb)
    (w : World) :
  2 <= CHUNK -> is_Some (installProductId rp productDb w).
Proof.
  intros HC. unfold installProductId, gzopen.
  destruct (w_gz w !! productIdPath rp) as [[data ending]|]; [|by eauto].
  unfold decompress, opened, decompress_fuel. cbn [gz_rest].
  rewrite (decompress_loop_opened HC) by lia. cbn [d_ret d_output d_log].
  destruct (_ =? FALSE); [by eauto|].
  destruct (negb _); [|by eauto].
  destruct (mkdir_certs _) as [ret_val cs]. destruct (ret_val =? 0); [|by eauto].
  destruct (write_cert _ _ _); by eauto.
Qed.

Lemma install_active_total (active : list RepoProductId) :
  2 <= CHUNK ->
  forall productDb w, is_Some (install_active active productDb w).
Proof.
  intros HC. induction active as [|rp rest IH]; intros productDb w;
    cbn [install_active]; [by eauto|].
  destruct (installProductId_total rp productDb w HC) as [[[[r db1] w1] l1] ->].
  destruct (IH db1 w1) as [[[db2 w2] l2] ->]. by eauto.
Qed.

(** The steps of a pass that gets as far as the sweep. *)
Lemma pluginHook_pass (handle : PluginHandle) (w : World) (h : hooked)
    (p : pass) :
  pluginHook (Some handle) PLUGIN_HOOK_ID_CONTEXT_TRANSACTION w = Some h ->
  h_pass h = Some p ->
  exists repos log1 log2 w3 log3 cs log4 w5 log5,
    w_productdb_dir w = true
    /\ ctx_repos (initData handle) = Some repos
    /\ fetch_enabled (initData handle) (getEnabled repos []) []
       = (p_repoAndProductIds p, log1)
    /\ getActive (initData handle) (w_rpmdb w) (p_repoAndProductIds p) []
       = (p_activeRepoAndProductIds p, log2)
    /\ install_active (p_activeRepoAndProductIds p)
         {| path := PRODUCTDB_FILE; repoMap := repoMap initProductDb |} w
       = Some (p_productDb p, w3, log3)
    /\ p_certs p = w_certs w3
    /\ removeUnusedProductCerts (p_productDb p) (w_certs w3) = (0, cs, log4)
    /\ writeRepoMap (p_productDb p) (set_certs w3 cs) = (w5, log5)
    /\ h_ret h = 1 /\ h_world h = w5
    /\ h_log h =
         [Log LDebug "%s v%s, running hook_id: %s on DNF version %d"
            [strHookId PLUGIN_HOOK_ID_CONTEXT_TRANSACTION]]
         ++ [Mkdir PRODUCTDB_DIR; GetRepos]
         ++ log1 ++ log2 ++ log3 ++ log4 ++ log5.
Proof.
  unfold pluginHook.
  destruct (w_productdb_dir w); cbn [negb Z.eqb];
    [|intros [= <-]; by cbn].
  destruct (ctx_repos (initData handle)) as [repos|]; [|intros [= <-]; by cbn].
  destruct (fetch_enabled _ _ _) as [rps log1] eqn:H1.
  destruct (getActive _ _ _ _) as [active log2] eqn:H2.
  destruct (install_active _ _ _) as [[[db w3] log3]|] eqn:H3; [|done].
  destruct (removeUnusedProductCerts_spec db (w_certs w3))
    as (cs & log4 & H4 & _).
  rewrite H4.
  destruct (writeRepoMap _ _) as [w5 log5] eqn:H5.
  intros [= <-]. cbn. intros [= <-]. cbn.
  eexists repos, log1, log2, w3, log3, cs, log4, w5, log5.
  by split_and!.
Qed.

Lemma pluginHook_total (handle : option PluginHandle) (id : PluginHookId)
    (w : World) :
  2 <= CHUNK -> is_Some (pluginHook handle id w).
Proof.
  intros HC. unfold pluginHook. destruct handle as [handle|]; [|by eauto].
  destruct id; try by eauto.
  destruct (negb _); [by eauto|].
  destruct (ctx_repos _); [|by eauto].
  destruct (fetch_enabled _ _ _) as [rps log1].
  destruct (getActive _ _ _ _) as [active log2].
  destruct (install_active_total active HC
              {| path := PRODUCTDB_FILE; repoMap := repoMap initProductDb |} w)
    as [[[db w3] log3] ->].
  destruct (removeUnusedProductCerts _ _) as [[? cs] log4].
  destruct (writeRepoMap _ _). by eauto.
Qed.

(** A transaction hook with a handle gets as far as the sweep when the
    directory of the database is there and the context has a list of
    repositories. *)
Lemma pluginHook_reaches_the_sweep (handle : PluginHandle) (w : World)
    (repos : list DnfRepo) :
  2 <= CHUNK ->
  w_productdb_dir w = true ->
  ctx_repos (initData handle) = Some repos ->
  exists h p,
    pluginHook (Some handle) PLUGIN_HOOK_ID_CONTEXT_TRANSACTION w = Some h
    /\ h_pass h = Some p.
Proof.
  intros HC Hdir Hrepos. unfold pluginHook. rewrite Hdir, Hrepos.
  cbn [negb Z.eqb].
  destruct (fetch_enabled _ _ _) as [rps log1].
  destruct (getActive _ _ _ _) as [active log2].
  destruct (install_active_total active HC
              {| path := PRODUCTDB_FILE; repoMap := repoMap initProductDb |} w)
    as [[[db w3] log3] ->].
  destruct (removeUnusedProductCerts _ _) as [[? cs] log4].
  destruct (writeRepoMap _ _). by eexists _, _.
Qed.

End HookFacts.

(** ** [decompress]: what it returns, what it keeps, where it stores *)

Section DecompressClaims.
Context `{hdr : ProductIdH} `{stk : Stack}.

(** What [decompress] returns, for every ending of the stream. It comes to
    an end; it returns [FALSE] exactly when a read meets an error of the
    decoder: [gzread] has returned -1, the end of the file is not marked and
    [gzerror] gives the error. It returns [TRUE] when the end of the file is
    marked ([gzeof]), also for a file that ends in the middle of its stream,
    whose error code it does not look at. *)
Lemma decompress_returns
    (data : list byte) (ending : gz_ending) (output : GString) (fuel : nat) :
  2 <= CHUNK ->
  (decompress_fuel (length data) <= fuel)%nat ->
  exists d,
    decompress fuel (opened data ending) output = Some d
    /\ (d_ret d = FALSE <-> exists code, ending = Fault code)
    /\ (d_ret d = TRUE <-> ending = Complete \/ ending = Truncated)
    /\ (d_ret d = FALSE <-> last (d_nul d) = Some (-1))
    /\ (d_ret d = TRUE -> gzeof (d_input d) = true)
    /\ (d_ret d = FALSE -> gzeof (d_input d) = false
                           /\ gzerror (d_input d) <> 0).
Proof.
  intros HC Hfuel. unfold decompress, opened, decompress_fuel in *.
  rewrite (decompress_loop_opened HC) by lia.
  eexists. split; [reflexivity|]. cbn [d_ret d_input d_nul app].
  rewrite last_snoc. unfold TRUE, FALSE.
  pose proof (Nat2Z.is_nonneg
                (length data mod Z.to_nat (CHUNK - 1))) as Hmod.
  destruct ending as [| |code]; cbn [faulty drained gzeof gzerror gz_past
                                     gz_err].
  - split_and!; [naive_solver|naive_solver| |done|done].
    split; [done|]. intros [= ?]. lia.
  - split_and!; [naive_solver|naive_solver| |done|done].
    split; [done|]. intros [= ?]. lia.
  - split_and!; [naive_solver|naive_solver|done|done|].
    intros _. split; [done|lia].
Qed.

(** What [decompress] leaves in [output] when it returns [TRUE]: the text of
    the last chunk read, that is of what remains of the content after the
    whole chunks of [CHUNK - 1] bytes. *)
Lemma decompress_output (data : list byte) (output : GString) (fuel : nat) :
  2 <= CHUNK ->
  (decompress_fuel (length data) <= fuel)%nat ->
  exists d,
    decompress fuel (opened data Complete) output = Some d
    /\ d_ret d = TRUE
    /\ d_output d =
         c_str (drop (length data / Z.to_nat (CHUNK - 1)
                      * Z.to_nat (CHUNK - 1)) data).
Proof.
  intros HC Hfuel. unfold decompress, opened, decompress_fuel in *.
  rewrite (decompress_loop_opened HC) by lia.
  eexists. split; [reflexivity|]. by cbn.
Qed.

(** C10, as amended. For every stream whose reads all give a byte count,
    [decompress] comes to an end and every index at which it has stored the
    NUL terminator is between 0 and [CHUNK - 1], within the [CHUNK] bytes of
    the buffer. *)
Theorem decompress_nul_index_within_buffer
    (data : list byte) (ending : gz_ending) (output : GString) (fuel : nat) :
  2 <= CHUNK ->
  faulty ending = false ->
  (decompress_fuel (length data) <= fuel)%nat ->
  exists d,
    decompress fuel (opened data ending) output = Some d
    /\ d_nul d <> []
    /\ Forall (λ index, 0 <= index <= CHUNK - 1) (d_nul d).
Proof.
  intros HC Hend Hfuel. unfold decompress, opened, decompress_fuel in *.
  rewrite (decompress_loop_opened HC) by lia.
  eexists. split; [reflexivity|]. cbn [d_nul app]. rewrite Hend. split.
  - by destruct (replicate _ _).
  - apply Forall_app_2.
    + apply Forall_replicate. lia.
    + constructor; [|constructor].
      pose proof (Nat.mod_upper_bound (length data) (Z.to_nat (CHUNK - 1))).
      lia.
Qed.

(** When the stream reports an error, the last store of the NUL terminator
    is at index -1, before the buffer. *)
Lemma decompress_nul_index_on_read_error
    (data : list byte) (code : positive) (output : GString) (fuel : nat) :
  2 <= CHUNK ->
  (decompress_fuel (length data) <= fuel)%nat ->
  exists d,
    decompress fuel (opened data (Fault code)) output = Some d
    /\ last (d_nul d) = Some (-1).
Proof.
  intros HC Hfuel. unfold decompress, opened, decompress_fuel in *.
  rewrite (decompress_loop_opened HC) by lia.
  eexists. split; [reflexivity|]. cbn [d_nul app faulty].
  by rewrite last_snoc.
Qed.

End DecompressClaims.

(** C1. The content of 16384 bytes, 16383 times the letter A and then the
    letter B, is read in two chunks when [CHUNK] is 16384: [decompress]
    returns [TRUE] and leaves the second chunk alone in [output]. *)
Theorem decompress_keeps_the_last_chunk_only :
  exists d,
    decompress (hdr := sample_header)
      (stk := sample_stack) (decompress_fuel (length two_chunks))
      (opened two_chunks Complete) [] = Some d
    /\ d_ret d = TRUE
    /\ d_output d = ["B"%byte]
    /\ d_output d <> two_chunks.
Proof.
  set (data := two_chunks).
  assert (HC : 2 <= @CHUNK sample_header) by (cbn; lia).
  destruct (decompress_output (hdr := sample_header)
              (stk := sample_stack) data []
              (decompress_fuel (length data)) HC (Nat.le_refl _))
    as (d & Hd & Hret & Hout).
  exists d. split; [exact Hd|]. split; [exact Hret|].
  assert (Ho : d_output d = ["B"%byte]).
  { rewrite Hout. vm_compute. reflexivity. }
  split; [exact Ho|]. rewrite Ho. subst data. vm_compute. discriminate.
Qed.

(** A content of exactly [CHUNK - 1] bytes is read whole by the first call of
    [gzread]; the second call reads nothing, and [output] is left empty. *)
Lemma decompress_of_one_full_chunk_is_empty :
  exists d,
    decompress (hdr := sample_header)
      (stk := sample_stack) (decompress_fuel (length one_chunk))
      (opened one_chunk Complete) [] = Some d
    /\ d_ret d = TRUE /\ d_output d = [].
Proof.
  set (data := one_chunk).
  assert (HC : 2 <= @CHUNK sample_header) by (cbn; lia).
  destruct (decompress_output (hdr := sample_header)
              (stk := sample_stack) data []
              (decompress_fuel (length data)) HC (Nat.le_refl _))
    as (d & Hd & Hret & Hout).
  exists d. split; [exact Hd|]. split; [exact Hret|].
  rewrite Hout. vm_compute. reflexivity.
Qed.

(** A NUL byte in the content ends the text that is kept. *)
Lemma decompress_cuts_at_nul :
  exists d,
    decompress (hdr := sample_header) (stk := sample_stack) 4
      (opened ["A"%byte; x00; "B"%byte] Complete) [] = Some d
    /\ d_ret d = TRUE /\ d_output d = ["A"%byte].
Proof. eexists. split; [vm_compute; reflexivity|]. by split. Qed.

(** C10, counterexample to the bound [CHUNK - 2]: after a read that fills the chunk the NUL
    terminator is stored at index [CHUNK - 1], which is within the buffer
    but above [CHUNK - 2]. *)
Lemma decompress_nul_index_after_full_chunk :
  exists d index,
    decompress (hdr := sample_header)
      (stk := sample_stack) (decompress_fuel (length one_chunk))
      (opened one_chunk Complete) [] = Some d
    /\ index ∈ d_nul d
    /\ ¬ (0 <= index <= @CHUNK sample_header - 2).
Proof.
  set (data := one_chunk).
  assert (HC : 2 <= @CHUNK sample_header) by (cbn; lia).
  unfold decompress, opened, decompress_fuel.
  rewrite (decompress_loop_opened (hdr := sample_header)
             (stk := sample_stack) HC) by lia.
  eexists _, 16383. split; [reflexivity|]. cbn [d_nul app]. split.
  - apply elem_of_app. left.
    replace (length data / Z.to_nat (@CHUNK sample_header - 1))%nat
      with 1%nat by (vm_compute; reflexivity).
    cbn. apply list_elem_of_here.
  - cbn. lia.
Qed.

Lemma decompress_nul_index_within_buffer_witness :
  2 <= @CHUNK sample_header
  /\ faulty Complete = false
  /\ (decompress_fuel (length one_chunk) <= decompress_fuel (length one_chunk))%nat
  /\ exists d,
       decompress (hdr := sample_header)
         (stk := sample_stack) (decompress_fuel (length one_chunk))
         (opened one_chunk Complete) [] = Some d
       /\ d_nul d <> []
       /\ Forall (λ index, 0 <= index <= @CHUNK sample_header - 1) (d_nul d).
Proof.
  assert (H1 : 2 <= @CHUNK sample_header) by (cbn; lia).
  split; [exact H1|]. split; [reflexivity|]. split; [apply Nat.le_refl|].
  exact (decompress_nul_index_within_buffer (hdr := sample_header)
           (stk := sample_stack)
           one_chunk Complete [] (decompress_fuel (length one_chunk))
           H1 eq_refl (Nat.le_refl _)).
Defined.

(** C8. A file that ends in the middle of its stream, after the six bytes
    of [CERT 6]: the stream reports the error [Z_BUF_ERROR] and its end is
    never reached. The read gives the six bytes and marks the end of the
    file; [decompress] leaves the loop on [gzeof] without a look at
    [gzerror], logs nothing and returns [TRUE] with the six bytes in
    [output]. *)
Theorem decompress_accepts_a_truncated_stream :
  exists d,
    decompress (hdr := sample_header) (stk := sample_stack) 8
      (opened (bytes_of "CERT 6") Truncated) [] = Some d
    /\ d_ret d = TRUE /\ d_log d = []
    /\ d_output d = bytes_of "CERT 6"
    /\ gzeof (d_input d) = true
    /\ gzerror (d_input d) = Z_BUF_ERROR /\ gzerror (d_input d) <> 0.
Proof.
  eexists. split; [vm_compute; reflexivity|]. by split_and!.
Qed.

(** A read that fails leaves in [output] what the array holds: here the
    byte B that the failed read has stored, and behind it the 16382 bytes
    that are left of the chunk of the read before. *)
Example decompress_prints_the_stale_chunk :
  exists d,
    decompress (hdr := sample_header) (stk := sample_stack)
      (decompress_fuel (length two_chunks)) (opened two_chunks (Fault 3))
      [] = Some d
    /\ d_ret d = FALSE /\ d_nul d = [16383; -1]
    /\ d_output d = "B"%byte :: replicate (Z.to_nat 16382) "A"%byte.
Proof.
  eexists. split; [vm_compute; reflexivity|]. by split_and!.
Qed.

(** ** [findProductId] *)

Section FindClaims.
Context `{hdr : ProductIdH} `{pem : Pem} `{stk : Stack}.

(** The first extension of the vendor decides: with ten components or more
    in its text, the one at index 9 is the result. *)
Lemma findProductId_first_vendor_extension_text
    (certContent bio : list byte) (x509 : X509) (result : string)
    (skipped after : list X509_EXTENSION) (ext : X509_EXTENSION) :
  BIO_new_mem_buf certContent = Some bio ->
  PEM_read_bio_X509 bio = Some x509 ->
  x509_extensions x509 = skipped ++ ext :: after ->
  Forall (λ e, vendor e = false) skipped ->
  vendor ext = true ->
  (10 <= length (components ext))%nat ->
  f_ret (findProductId certContent result) = 1
  /\ Some (f_result (findProductId certContent result))
     = components ext !! 9%nat.
Proof.
  intros Hbio Hpem Hx Hskip Hv Hlen. unfold findProductId.
  rewrite Hbio, Hpem. unfold X509_get_ext_count. rewrite Nat2Z.id, Hx.
  rewrite (scan_extensions_first x509 1 result ext after skipped []) by done.
  destruct (9 <? Z.of_nat (length (components ext))) eqn:E;
    [|apply Z.ltb_ge in E; lia].
  cbn. split; [done|].
  destruct (lookup_lt_is_Some_2 (components ext) 9%nat) as [id Hid]; [lia|].
  by rewrite Hid.
Qed.




(** X8. When the numerical form of the object identifier fits the buffer,
    the components are the arcs in decimal: the product id is the arc at
    index 9. *)
Lemma findProductId_tenth_arc
    (certContent bio : list byte) (x509 : X509) (result : string)
    (skipped after : list X509_EXTENSION) (ext : X509_EXTENSION) (arc : N) :
  BIO_new_mem_buf certContent = Some bio ->
  PEM_read_bio_X509 bio = Some x509 ->
  x509_extensions x509 = skipped ++ ext :: after ->
  Forall (λ e, vendor e = false) skipped ->
  vendor ext = true ->
  Z.of_nat (String.length (numerical_form (ext_object ext))) < MAX_BUFF ->
  ext_object ext !! 9%nat = Some arc ->
  f_ret (findProductId certContent result) = 1
  /\ f_result (findProductId certContent result) = pretty arc.
Proof.
  intros Hbio Hpem Hx Hskip Hv Hfit Harc.
  assert (Hc : components ext = map pretty (ext_object ext)).
  { unfold components, oid_text, X509_EXTENSION_get_object.
    rewrite OBJ_obj2txt_fits by done. apply g_strsplit_numerical_form. }
  assert (Hlen : (10 <= length (components ext))%nat).
  { rewrite Hc, length_map. apply lookup_lt_Some in Harc. lia. }
  destruct (findProductId_first_vendor_extension_text _ _ _ result _ _ _
              Hbio Hpem Hx Hskip Hv Hlen) as [Hret Hres].
  split; [exact Hret|].
  rewrite Hc, list_lookup_fmap, Harc in Hres. by injection Hres.
Qed.

(** C6, as amended. For every certificate that can be read, [findProductId]
    fails when no extension starts with the prefix of the vendor, and fails
    when the first that does has fewer than ten components. Both times it
    returns -1 and leaves [result] as it was: the caller gets the same
    result. The two failures differ in the line that is logged, a warning
    that the identifier was not found for the first and an error that the
    certificate does not contain the required ID for the second. *)
Theorem findProductId_failures_differ_in_log_only
    (absent malformed bio1 bio2 : list byte) (x1 x2 : X509) (result : string)
    (skipped after : list X509_EXTENSION) (ext : X509_EXTENSION) :
  BIO_new_mem_buf absent = Some bio1 ->
  PEM_read_bio_X509 bio1 = Some x1 ->
  Forall (λ e, vendor e = false) (x509_extensions x1) ->
  BIO_new_mem_buf malformed = Some bio2 ->
  PEM_read_bio_X509 bio2 = Some x2 ->
  x509_extensions x2 = skipped ++ ext :: after ->
  Forall (λ e, vendor e = false) skipped ->
  vendor ext = true ->
  (length (components ext) < 10)%nat ->
  findProductId absent result
  = {| f_ret := -1; f_result := result;
       f_log := [Log LWarn "Red Hat Product OID: %s not found"
                   [REDHAT_PRODUCT_OID]] |}
  /\ findProductId malformed result
     = {| f_ret := -1; f_result := result;
          f_log := [Log LError
                      "Product certificate does not contain required ID"
                      []] |}
  /\ f_ret (findProductId absent result)
     = f_ret (findProductId malformed result)
  /\ f_result (findProductId absent result)
     = f_result (findProductId malformed result)
  /\ f_log (findProductId absent result)
     <> f_log (findProductId malformed result).
Proof.
  intros Hb1 Hp1 Hnone Hb2 Hp2 Hx Hskip Hv Hlen.
  assert (H1 : findProductId absent result
               = {| f_ret := -1; f_result := result;
                    f_log := [Log LWarn "Red Hat Product OID: %s not found"
                                [REDHAT_PRODUCT_OID]] |}).
  { unfold findProductId. rewrite Hb1, Hp1.
    unfold X509_get_ext_count. rewrite Nat2Z.id.
    by rewrite (scan_extensions_none x1 1 result (x509_extensions x1) []). }
  assert (H2 : findProductId malformed result
               = {| f_ret := -1; f_result := result;
                    f_log := [Log LError
                                "Product certificate does not contain required ID"
                                []] |}).
  { unfold findProductId. rewrite Hb2, Hp2.
    unfold X509_get_ext_count. rewrite Nat2Z.id, Hx.
    rewrite (scan_extensions_first x2 1 result ext after skipped []) by done.
    destruct (9 <? Z.of_nat (length (components ext))) eqn:E;
      [apply Z.ltb_lt in E; lia|]. done. }
  rewrite H1, H2. by split_and!.
Qed.

End FindClaims.



(** C6, counterexample to a distinction in the result: a certificate without an extension of the
    vendor and one whose vendor extension has nine components give the
    caller the same return value and the same [result]. *)
Lemma findProductId_failures_same_result :
  Forall (λ e, vendor (hdr := sample_header) e = false)
    (x509_extensions cert_plain)
  /\ (exists ext, x509_extensions cert_short = [ext]
        /\ vendor (hdr := sample_header) ext = true
        /\ length (components (hdr := sample_header) ext) = 9%nat)
  /\ f_ret (findProductId (hdr := sample_header) (pem := sample_pem)
              (bytes_of "CERT PLAIN") EmptyString) = -1
  /\ f_ret (findProductId (hdr := sample_header) (pem := sample_pem)
              (bytes_of "CERT SHORT") EmptyString) = -1
  /\ f_result (findProductId (hdr := sample_header) (pem := sample_pem)
                 (bytes_of "CERT PLAIN") EmptyString)
     = f_result (findProductId (hdr := sample_header) (pem := sample_pem)
                   (bytes_of "CERT SHORT") EmptyString).
Proof.
  split_and!.
  - repeat constructor.
  - eexists. split_and!; reflexivity.
  - reflexivity.
  - reflexivity.
  - reflexivity.
Qed.

Lemma findProductId_failures_differ_in_log_only_witness :
  findProductId (hdr := sample_header) (pem := sample_pem)
    (bytes_of "CERT PLAIN") "7"
  = {| f_ret := -1; f_result := "7";
       f_log := [Log LWarn "Red Hat Product OID: %s not found"
                   ["1.3.6.1.4.1.2312.9.1"]] |}
  /\ findProductId (hdr := sample_header) (pem := sample_pem)
       (bytes_of "CERT SHORT") "7"
     = {| f_ret := -1; f_result := "7";
          f_log := [Log LError
                      "Product certificate does not contain required ID"
                      []] |}
  /\ f_ret (findProductId (hdr := sample_header) (pem := sample_pem)
              (bytes_of "CERT PLAIN") "7")
     = f_ret (findProductId (hdr := sample_header) (pem := sample_pem)
                (bytes_of "CERT SHORT") "7")
  /\ f_result (findProductId (hdr := sample_header) (pem := sample_pem)
                 (bytes_of "CERT PLAIN") "7")
     = f_result (findProductId (hdr := sample_header) (pem := sample_pem)
                   (bytes_of "CERT SHORT") "7")
  /\ f_log (findProductId (hdr := sample_header) (pem := sample_pem)
              (bytes_of "CERT PLAIN") "7")
     <> f_log (findProductId (hdr := sample_header) (pem := sample_pem)
                 (bytes_of "CERT SHORT") "7").
Proof.
  refine (findProductId_failures_differ_in_log_only
            (hdr := sample_header) (pem := sample_pem)
            (bytes_of "CERT PLAIN") (bytes_of "CERT SHORT")
            (bytes_of "CERT PLAIN") (bytes_of "CERT SHORT")
            cert_plain cert_short "7" [] []
            {| ext_object := [1; 3; 6; 1; 4; 1; 2312; 9; 1]%N |}
            _ _ _ _ _ _ _ _ _).
  - reflexivity.
  - reflexivity.
  - repeat constructor.
  - reflexivity.
  - reflexivity.
  - reflexivity.
  - constructor.
  - reflexivity.
  - vm_compute. lia.
Defined.

(** ** [removeUnusedProductCerts] *)

Section SweepClaims.
Context `{hdr : ProductIdH}.

(** C4. For every state of the certificate directory and every database,
    when no file of the directory is protected against removal, the sweep
    deletes exactly the files that are [stale]: those whose name ends in
    [.pem] with a stem of ASCII digits only that has no entry in the
    database. These are the files it asks [g_remove] for. Every other file
    keeps its content; so does a file whose stem has an entry in the
    database, and so does a file whose stem is not made of digits, whatever
    the database holds. *)
Theorem sweep_deletes_exactly_stale_certificates
    (productDb : ProductDb) (cs : CertStore) :
  cs_frozen cs = ∅ ->
  exists cs' log,
    removeUnusedProductCerts productDb cs = (0, cs', log)
    /\ (forall f, stale productDb f -> cert_file cs' f = None)
    /\ (forall f, ¬ stale productDb f -> cert_file cs' f = cert_file cs f)
    /\ (forall f, Remove (PRODUCT_CERT_DIR +:+ f) ∈ log
                  <-> is_Some (cert_file cs f) /\ stale productDb f)
    /\ (forall s, hasProductId productDb s = true ->
          cert_file cs' (s +:+ ".pem") = cert_file cs (s +:+ ".pem"))
    /\ (forall s, ¬ digits_only s ->
          cert_file cs' (s +:+ ".pem") = cert_file cs (s +:+ ".pem")).
Proof.
  intros Hfrozen.
  destruct (removeUnusedProductCerts_spec productDb cs)
    as (cs' & log & Heq & _ & Hf & Hr).
  assert (Hkeep : forall f, ¬ stale productDb f ->
                            cert_file cs' f = cert_file cs f).
  { intros f Hns. rewrite Hf.
    destruct (doomed productDb f) eqn:Hd; [|done].
    by apply doomed_spec in Hd. }
  exists cs', log. split; [exact Heq|]. split_and!.
  - intros f Hs. rewrite Hf. apply doomed_spec in Hs. rewrite Hs.
    rewrite bool_decide_eq_true_2; [done|]. rewrite Hfrozen. set_solver.
  - exact Hkeep.
  - intros f. by rewrite Hr, doomed_spec.
  - intros s Hhas. apply Hkeep. intros (s' & Heq' & _ & Hno).
    apply string_app_inv_tail in Heq'. subst. congruence.
  - intros s Hnd. apply Hkeep. intros (s' & Heq' & Hd & _).
    apply string_app_inv_tail in Heq'. by subst.
Qed.

End SweepClaims.

Lemma sweep_deletes_exactly_stale_certificates_witness :
  cs_frozen sample_certs = ∅
  /\ exists cs' log,
       removeUnusedProductCerts (hdr := sample_header)
         (addRepoId initProductDb "42" "repo-c") sample_certs = (0, cs', log)
       /\ cert_file cs' "99.pem" = None
       /\ cert_file cs' "42.pem" = Some (bytes_of "OLD 42")
       /\ cert_file cs' "abc.pem" = Some (bytes_of "STRAY").
Proof.
  split; [reflexivity|].
  destruct (sweep_deletes_exactly_stale_certificates (hdr := sample_header)
              (addRepoId initProductDb "42" "repo-c") sample_certs eq_refl)
    as (cs' & log & Heq & Hgone & _ & _ & Hhas & Hnum).
  exists cs', log. split; [exact Heq|]. split_and!.
  - apply Hgone. exists "99". split_and!; [reflexivity| |reflexivity].
    by apply is_num_spec.
  - pose proof (Hhas "42" eq_refl) as H42.
    change ("42" +:+ ".pem") with "42.pem" in H42. by rewrite H42.
  - assert (Habc : ¬ digits_only "abc").
    { rewrite <- is_num_spec. by vm_compute. }
    apply Hnum in Habc.
    change ("abc" +:+ ".pem") with "abc.pem" in Habc. by rewrite Habc.
Defined.

(** ** The pass: sweep after the installs, from an empty database *)

Lemma in_log (P : event -> Prop) (log : list event) (e : event) :
  Forall P log -> e ∈ log -> P e.
Proof. intros H Hin. rewrite Forall_forall in H. by apply H. Qed.

Lemma writeRepoMap_spec `{hdr : ProductIdH} (productDb : ProductDb)
    (w w' : World) (log : list event) :
  writeRepoMap productDb w = (w', log) ->
  w_certs w' = w_certs w
  /\ (forall e, e ∈ log -> e = DbWrite (path productDb)
                           \/ exists lvl fmt args, e = Log lvl fmt args).
Proof.
  unfold writeRepoMap, writeProductDb.
  destruct (w_db_writable w); intros [= <- <-]; (split; [done|]);
    intros e He; split_elem_of_in He; naive_solver.
Qed.

Lemma hasProductId_fresh (file p : string) :
  hasProductId {| path := file; repoMap := repoMap initProductDb |} p = false.
Proof. exact (hasProductId_init p). Qed.

Lemma repos_of_fresh (file p x : string) :
  x ∉ repos_of {| path := file; repoMap := repoMap initProductDb |} p.
Proof. exact (repos_of_init p x). Qed.

Lemma doomed_recorded (productDb : ProductDb) (productId : string) :
  hasProductId productDb productId = true ->
  doomed productDb (productId +:+ ".pem") = false.
Proof.
  intros Hhas. unfold doomed. rewrite stem_pem, Hhas.
  by rewrite andb_false_r.
Qed.

Section PassClaims.
Context `{hdr : ProductIdH} `{pem : Pem} `{stk : Stack}.

(** The records of a pass are those of its installs, and the files the sweep
    asks to remove are the doomed ones of the directory it finds. *)
Lemma pluginHook_pass_log (handle : PluginHandle) (w : World) (h : hooked)
    (p : pass) :
  pluginHook (Some handle) PLUGIN_HOOK_ID_CONTEXT_TRANSACTION w = Some h ->
  h_pass h = Some p ->
  certs_grown w (set_certs w (p_certs p))
  /\ cs_frozen (w_certs (h_world h)) = cs_frozen (w_certs w)
  /\ (forall productId, hasProductId (p_productDb p) productId = true
        <-> exists repoId, AddRepoId productId repoId ∈ h_log h)
  /\ (forall productId repoId, repoId ∈ repos_of (p_productDb p) productId
        <-> AddRepoId productId repoId ∈ h_log h)
  /\ (forall productId repoId, AddRepoId productId repoId ∈ h_log h ->
        is_Some (cert_file (p_certs p) (productId +:+ ".pem")))
  /\ (forall f, Remove (PRODUCT_CERT_DIR +:+ f) ∈ h_log h
        <-> is_Some (cert_file (p_certs p) f)
            /\ doomed (p_productDb p) f = true)
  /\ (forall f, cert_file (w_certs (h_world h)) f =
        if doomed (p_productDb p) f && bool_decide (f ∉ cs_frozen (w_certs w))
        then None else cert_file (p_certs p) f)
  /\ (exists before after,
        h_log h = before ++ after
        /\ (forall x, Remove x ∉ before)
        /\ (forall productId repoId, AddRepoId productId repoId ∉ after)).
Proof.
  intros Hhook Hpass.
  destruct (pluginHook_pass _ _ _ _ Hhook Hpass)
    as (repos & log1 & log2 & w3 & log3 & cs & log4 & w5 & log5 & _ & _
        & H1 & H2 & H3 & Hcerts & H4 & H5 & _ & Hworld & Hlog).
  apply fetch_enabled_log in H1.
  pose proof (getActive_log (initData handle) (w_rpmdb w)
                (p_repoAndProductIds p) []) as Hl2.
  rewrite H2 in Hl2. cbn in Hl2.
  destruct (install_active_spec _ _ _ _ _ _ H3)
    as (Hl3 & Hgrow & _ & Hhas & Hrep & Hfile).
  pose proof (removeUnusedProductCerts_log (p_productDb p) (w_certs w3))
    as Hl4.
  rewrite H4 in Hl4. cbn in Hl4.
  destruct (removeUnusedProductCerts_spec (p_productDb p) (w_certs w3))
    as (cs' & log4' & H4' & Hz4 & Hf4 & Hr4).
  rewrite H4 in H4'. injection H4' as <- <-.
  destruct (writeRepoMap_spec _ _ _ _ H5) as [Hc5 Hl5].
  assert (Hfrozen : cs_frozen (w_certs w3) = cs_frozen (w_certs w))
    by (by destruct Hgrow as (_&_&?&_)).
  assert (Hadd : forall a b, AddRepoId a b ∈ h_log h <-> AddRepoId a b ∈ log3).
  { intros a b. rewrite Hlog. split.
    - intros Hin. split_elem_of_in Hin. destruct_or!; try done.
      + by apply (in_log _ _ _ H1) in Hin.
      + by apply (in_log _ _ _ Hl2) in Hin.
      + by apply (in_log _ _ _ Hl4) in Hin.
      + apply Hl5 in Hin. naive_solver.
    - intros Hin. split_elem_of. by auto 10. }
  assert (Hrem : forall x, Remove x ∈ h_log h <-> Remove x ∈ log4).
  { intros x. rewrite Hlog. split.
    - intros Hin. split_elem_of_in Hin. destruct_or!; try done.
      + by apply (in_log _ _ _ H1) in Hin.
      + by apply (in_log _ _ _ Hl2) in Hin.
      + by apply (in_log _ _ _ Hl3) in Hin.
      + apply Hl5 in Hin. naive_solver.
    - intros Hin. split_elem_of. by auto 10. }
  split_and!.
  - rewrite Hcerts. destruct Hgrow as (Hw&?&?&?&?).
    unfold certs_grown. cbn. by split_and!.
  - rewrite Hworld, Hc5. cbn. congruence.
  - intros productId. rewrite Hhas, hasProductId_fresh.
    setoid_rewrite Hadd. naive_solver.
  - intros productId repoId. rewrite Hrep, Hadd.
    pose proof (repos_of_fresh PRODUCTDB_FILE productId repoId). tauto.
  - intros productId repoId Hin. rewrite Hcerts. eapply Hfile.
    by apply Hadd.
  - intros f. by rewrite Hrem, Hr4, Hcerts.
  - intros f. by rewrite Hworld, Hc5, Hcerts, <- Hfrozen.
  - exists ([Log LDebug "%s v%s, running hook_id: %s on DNF version %d"
               [strHookId PLUGIN_HOOK_ID_CONTEXT_TRANSACTION]]
            ++ [Mkdir PRODUCTDB_DIR; GetRepos] ++ log1 ++ log2 ++ log3),
           (log4 ++ log5).
    split_and!.
    + rewrite Hlog. by rewrite <- !app_assoc.
    + intros x Hin. split_elem_of_in Hin. destruct_or!; try done.
      * by apply (in_log _ _ _ H1) in Hin.
      * by apply (in_log _ _ _ Hl2) in Hin.
      * by apply (in_log _ _ _ Hl3) in Hin.
    + intros a b Hin. split_elem_of_in Hin. destruct_or!.
      * by apply (in_log _ _ _ Hl4) in Hin.
      * apply Hl5 in Hin. naive_solver.
Qed.

(** C5. Every pass comes to an end, and when it gets as far as the sweep,
    the database the sweep is given holds every record that an install of
    the pass has made: in the log of the pass every record comes before
    every removal. For every product id that has an entry in that database,
    the sweep does not ask to remove the certificate of that id, which is in
    the directory when the sweep starts and is there, with the same content,
    when the pass ends. *)
Theorem sweep_keeps_certificates_recorded_in_pass
    (handle : PluginHandle) (w : World) :
  2 <= CHUNK ->
  exists h,
    pluginHook (Some handle) PLUGIN_HOOK_ID_CONTEXT_TRANSACTION w = Some h
    /\ forall p, h_pass h = Some p ->
         (forall productId repoId,
            AddRepoId productId repoId ∈ h_log h ->
            hasProductId (p_productDb p) productId = true
            /\ repoId ∈ repos_of (p_productDb p) productId)
         /\ (exists before after,
               h_log h = before ++ after
               /\ (forall x, Remove x ∉ before)
               /\ (forall productId repoId,
                     AddRepoId productId repoId ∉ after))
         /\ forall productId,
              hasProductId (p_productDb p) productId = true ->
              (Remove (PRODUCT_CERT_DIR +:+ productId +:+ ".pem") ∉ h_log h)
              /\ is_Some (cert_file (p_certs p) (productId +:+ ".pem"))
              /\ cert_file (w_certs (h_world h)) (productId +:+ ".pem")
                 = cert_file (p_certs p) (productId +:+ ".pem").
Proof.
  intros HC.
  destruct (pluginHook_total (Some handle) PLUGIN_HOOK_ID_CONTEXT_TRANSACTION
              w HC) as [h Hhook].
  exists h. split; [exact Hhook|]. intros p Hpass.
  destruct (pluginHook_pass_log _ _ _ _ Hhook Hpass)
    as (_ & _ & Hhas & Hrep & Hfile & Hrem & Hend & Horder).
  split_and!.
  - intros productId repoId Hin. split; [apply Hhas; by eauto|by apply Hrep].
  - exact Horder.
  - intros productId Hin. pose proof (doomed_recorded _ _ Hin) as Hd.
    split_and!.
    + rewrite Hrem, Hd. by intros [_ ?].
    + apply Hhas in Hin as [repoId Hin]. by eapply Hfile.
    + by rewrite Hend, Hd.
Qed.

End PassClaims.

Section PassClaims2.
Context `{hdr : ProductIdH} `{pem : Pem} `{stk : Stack}.

Lemma installProductId_put_db_file (rp : RepoProductId) (productDb : ProductDb)
    (w : World) (file : option (gmap string (gset string))) :
  installProductId rp productDb (put_db_file w file)
  = match installProductId rp productDb w with
    | Some (ret, db', w', log) => Some (ret, db', put_db_file w' file, log)
    | None => None
    end.
Proof.
  unfold installProductId.
  change (gzopen (put_db_file w file)) with (gzopen w).
  change (w_certs (put_db_file w file)) with (w_certs w).
  destruct (gzopen w (productIdPath rp)) as [input|]; [|done].
  destruct (decompress _ input []) as [d|]; [|done].
  destruct (d_ret d =? FALSE); [done|].
  destruct (negb _); [|done].
  destruct (mkdir_certs (w_certs w)) as [ret_val cs].
  destruct (ret_val =? 0); [|done].
  by destruct (write_cert _ _ _).
Qed.

Lemma install_active_put_db_file (active : list RepoProductId)
    (file : option (gmap string (gset string))) :
  forall (productDb : ProductDb) (w : World),
  install_active active productDb (put_db_file w file)
  = match install_active active productDb w with
    | Some (db', w', log) => Some (db', put_db_file w' file, log)
    | None => None
    end.
Proof.
  induction active as [|rp rest IH]; intros productDb w;
    cbn [install_active]; [done|].
  rewrite installProductId_put_db_file.
  destruct (installProductId rp productDb w) as [[[[ret db1] w1] log1]|];
    [|done].
  rewrite IH. by destruct (install_active rest db1 w1) as [[[db2 w2] log2]|].
Qed.

(** The persisted database plays no part in a call of [pluginHook] but for
    being written at the end. *)
Lemma pluginHook_put_db_file (handle : option PluginHandle)
    (id : PluginHookId) (w : World)
    (file : option (gmap string (gset string))) :
  match pluginHook handle id w, pluginHook handle id (put_db_file w file) with
  | Some h, Some h' =>
      h_ret h' = h_ret h /\ h_log h' = h_log h /\ h_pass h' = h_pass h
      /\ w_certs (h_world h') = w_certs (h_world h)
  | None, None => True
  | _, _ => False
  end.
Proof.
  unfold pluginHook. destruct handle as [handle|]; [|done].
  destruct id; try done.
  change (w_productdb_dir (put_db_file w file)) with (w_productdb_dir w).
  change (w_rpmdb (put_db_file w file)) with (w_rpmdb w).
  destruct (negb _); [done|].
  destruct (ctx_repos _); [|done].
  destruct (fetch_enabled _ _ _) as [rps log1].
  destruct (getActive _ _ _ _) as [active log2].
  rewrite install_active_put_db_file.
  destruct (install_active _ _ w) as [[[db w3] log3]|]; [|done].
  change (w_certs (put_db_file w3 file)) with (w_certs w3).
  destruct (removeUnusedProductCerts _ _) as [[r cs] log4].
  unfold writeRepoMap, writeProductDb. cbn.
  by destruct (w_db_writable w3).
Qed.

(** C9. A transaction hook that has a handle, the directory of the database
    and the list of the repositories goes through the whole pass, and it
    gives the same return value, the same log, the same local variables at
    the sweep and the same directory of certificates whatever the persisted
    database holds. The database that the sweep is given holds exactly the
    pairs of product id and repository id recorded by the installs of this
    pass; so a certificate whose stem consists of digits and for which this
    pass has recorded nothing is gone when the pass ends, if its removal is
    not refused, whatever the persisted database says of it. *)
Theorem pass_starts_from_empty_database (handle : PluginHandle) (w : World)
    (repos : list DnfRepo) :
  2 <= CHUNK ->
  w_productdb_dir w = true ->
  ctx_repos (initData handle) = Some repos ->
  exists h p,
    pluginHook (Some handle) PLUGIN_HOOK_ID_CONTEXT_TRANSACTION w = Some h
    /\ h_pass h = Some p
    /\ (forall file, exists h',
          pluginHook (Some handle) PLUGIN_HOOK_ID_CONTEXT_TRANSACTION
            (put_db_file w file) = Some h'
          /\ h_ret h' = h_ret h /\ h_log h' = h_log h
          /\ h_pass h' = h_pass h
          /\ w_certs (h_world h') = w_certs (h_world h))
    /\ (forall productId repoId,
          repoId ∈ repos_of (p_productDb p) productId
          <-> AddRepoId productId repoId ∈ h_log h)
    /\ forall s,
         digits_only s ->
         (forall repoId, AddRepoId s repoId ∉ h_log h) ->
         (s +:+ ".pem") ∉ cs_frozen (w_certs w) ->
         hasProductId (p_productDb p) s = false
         /\ cert_file (w_certs (h_world h)) (s +:+ ".pem") = None.
Proof.
  intros HC Hdir Hrepos.
  destruct (pluginHook_reaches_the_sweep handle w repos HC Hdir Hrepos)
    as (h & p & Hhook & Hpass).
  exists h, p. split; [exact Hhook|]. split; [exact Hpass|]. split.
  - intros file.
    pose proof (pluginHook_put_db_file (Some handle)
                  PLUGIN_HOOK_ID_CONTEXT_TRANSACTION w file) as Hsame.
    rewrite Hhook in Hsame.
    destruct (pluginHook (Some handle) PLUGIN_HOOK_ID_CONTEXT_TRANSACTION
                (put_db_file w file)) as [h'|]; [|done].
    by exists h'.
  - destruct (pluginHook_pass_log _ _ _ _ Hhook Hpass)
      as (_ & _ & Hhas & Hrep & _ & _ & Hend & _).
    split; [exact Hrep|]. intros s Hdigits Hnone Hfree.
    assert (Hno : hasProductId (p_productDb p) s = false).
    { destruct (hasProductId (p_productDb p) s) eqn:E; [|done].
      apply Hhas in E as [repoId Hin]. by apply Hnone in Hin. }
    split; [exact Hno|]. rewrite Hend.
    assert (Hd : doomed (p_productDb p) (s +:+ ".pem") = true).
    { apply doomed_spec. by exists s. }
    by rewrite Hd, bool_decide_eq_true_2.
Qed.

(** C7, as amended. When the directory of the database cannot be made at the
    start of a transaction hook, the call ends there: the world is left as
    it was, the pass does not get to the sweep, and the log holds the
    attempt to make the directory and log lines only, no event of a later
    step. The hook returns 1, the value that every call for a transaction
    with a handle returns, a pass that goes through included; the failure is
    told by the error line of the log. *)
Theorem pluginHook_stops_when_database_directory_fails
    (handle : PluginHandle) (w : World) :
  w_productdb_dir w = false ->
  exists h,
    pluginHook (Some handle) PLUGIN_HOOK_ID_CONTEXT_TRANSACTION w = Some h
    /\ h_world h = w /\ h_pass h = None
    /\ h_log h =
         [Log LDebug "%s v%s, running hook_id: %s on DNF version %d"
            [strHookId PLUGIN_HOOK_ID_CONTEXT_TRANSACTION];
          Mkdir PRODUCTDB_DIR;
          Log LError "Unable to create %s directory, %s" [PRODUCTDB_DIR]]
    /\ Forall (λ e, ¬ later_step e) (h_log h)
    /\ h_ret h = 1
    /\ forall handle' w' h',
         pluginHook (Some handle') PLUGIN_HOOK_ID_CONTEXT_TRANSACTION w'
         = Some h' ->
         h_ret h' = 1.
Proof.
  intros Hdir. unfold pluginHook at 1. rewrite Hdir. cbn [negb Z.eqb].
  eexists. split; [reflexivity|]. cbn. split_and!; try done.
  - repeat constructor; by intros [].
  - intros handle' w' h'. unfold pluginHook.
    destruct (negb _); [by intros [= <-]|].
    destruct (ctx_repos _); [|by intros [= <-]].
    destruct (fetch_enabled _ _ _) as [rps log1].
    destruct (getActive _ _ _ _) as [active log2].
    destruct (install_active _ _ _) as [[[db w3] log3]|]; [|done].
    destruct (removeUnusedProductCerts _ _) as [[r cs] log4].
    destruct (writeRepoMap _ _). by intros [= <-].
Qed.

End PassClaims2.

(** ** The statements on the sample data *)

Lemma sweep_keeps_certificates_recorded_in_pass_witness :
  2 <= @CHUNK sample_header
  /\ exists h,
       pluginHook (hdr := sample_header) (pem := sample_pem)
         (stk := sample_stack)
         (Some sample_handle) PLUGIN_HOOK_ID_CONTEXT_TRANSACTION sample_world
       = Some h
       /\ forall p, h_pass h = Some p ->
            (forall productId repoId,
               AddRepoId productId repoId ∈ h_log h ->
               hasProductId (p_productDb p) productId = true
               /\ repoId ∈ repos_of (p_productDb p) productId)
            /\ (exists before after,
                  h_log h = before ++ after
                  /\ (forall x, Remove x ∉ before)
                  /\ (forall productId repoId,
                        AddRepoId productId repoId ∉ after))
            /\ forall productId,
                 hasProductId (p_productDb p) productId = true ->
                 (Remove (@PRODUCT_CERT_DIR sample_header +:+ productId
                          +:+ ".pem") ∉ h_log h)
                 /\ is_Some (cert_file (p_certs p) (productId +:+ ".pem"))
                 /\ cert_file (w_certs (h_world h)) (productId +:+ ".pem")
                    = cert_file (p_certs p) (productId +:+ ".pem").
Proof.
  assert (HC : 2 <= @CHUNK sample_header) by (cbn; lia).
  split; [exact HC|].
  exact (sweep_keeps_certificates_recorded_in_pass
           (hdr := sample_header) (pem := sample_pem) (stk := sample_stack)
           sample_handle sample_world HC).
Defined.

(** The pass on the sample world: the certificate of product 69 is
    installed for [repo-a]; [99.pem] has no record and is removed, and so is
    [42.pem], although the persisted database maps 42 to a repository;
    [abc.pem] stays. *)
Example sample_pass_installs_69 :
  option_map
    (λ h, (h_ret h,
           cert_file (w_certs (h_world h)) "69.pem",
           cert_file (w_certs (h_world h)) "42.pem",
           cert_file (w_certs (h_world h)) "99.pem",
           cert_file (w_certs (h_world h)) "abc.pem",
           bool_decide (is_Some (h_pass h))))
    (pluginHook (hdr := sample_header) (pem := sample_pem) (stk := sample_stack)
       (Some sample_handle) PLUGIN_HOOK_ID_CONTEXT_TRANSACTION sample_world)
  = Some (1, Some (bytes_of "CERT 69"), None, None, Some (bytes_of "STRAY"),
          true).
Proof. vm_compute. reflexivity. Qed.

(** C7, counterexample to a distinction in the return value: the call that cannot make the directory
    of the database and the call that goes through the whole pass return
    the same value. *)
Lemma pluginHook_returns_1_on_failure_and_on_success :
  w_productdb_dir sample_world_no_dir = false
  /\ w_productdb_dir sample_world = true
  /\ option_map (λ h, (h_ret h, bool_decide (is_Some (h_pass h))))
       (pluginHook (hdr := sample_header) (pem := sample_pem)
          (stk := sample_stack)
          (Some sample_handle) PLUGIN_HOOK_ID_CONTEXT_TRANSACTION
          sample_world_no_dir)
     = Some (1, false)
  /\ option_map (λ h, (h_ret h, bool_decide (is_Some (h_pass h))))
       (pluginHook (hdr := sample_header) (pem := sample_pem)
          (stk := sample_stack)
          (Some sample_handle) PLUGIN_HOOK_ID_CONTEXT_TRANSACTION
          sample_world)
     = Some (1, true).
Proof. split_and!; vm_compute; reflexivity. Qed.

Lemma pluginHook_stops_when_database_directory_fails_witness :
  w_productdb_dir sample_world_no_dir = false
  /\ exists h,
       pluginHook (hdr := sample_header) (pem := sample_pem)
         (stk := sample_stack)
         (Some sample_handle) PLUGIN_HOOK_ID_CONTEXT_TRANSACTION
         sample_world_no_dir = Some h
       /\ h_world h = sample_world_no_dir /\ h_pass h = None
       /\ h_log h =
            [Log LDebug "%s v%s, running hook_id: %s on DNF version %d"
               ["CONTEXT_TRANSACTION"];
             Mkdir "/var/lib/rhsm/";
             Log LError "Unable to create %s directory, %s"
               ["/var/lib/rhsm/"]]
       /\ Forall (λ e, ¬ later_step e) (h_log h)
       /\ h_ret h = 1
       /\ forall handle' w' h',
            pluginHook (hdr := sample_header) (pem := sample_pem)
              (stk := sample_stack)
              (Some handle') PLUGIN_HOOK_ID_CONTEXT_TRANSACTION w' = Some h' ->
            h_ret h' = 1.
Proof.
  split; [reflexivity|].
  exact (pluginHook_stops_when_database_directory_fails
           (hdr := sample_header) (pem := sample_pem) (stk := sample_stack)
           sample_handle sample_world_no_dir eq_refl).
Defined.

Lemma pass_starts_from_empty_database_witness :
  exists h p,
    pluginHook (hdr := sample_header) (pem := sample_pem)
      (stk := sample_stack) (Some sample_handle)
      PLUGIN_HOOK_ID_CONTEXT_TRANSACTION sample_world = Some h
    /\ h_pass h = Some p
    /\ (forall file, exists h',
          pluginHook (hdr := sample_header) (pem := sample_pem)
            (stk := sample_stack) (Some sample_handle)
            PLUGIN_HOOK_ID_CONTEXT_TRANSACTION
            (put_db_file sample_world file) = Some h'
          /\ h_ret h' = h_ret h /\ h_log h' = h_log h
          /\ h_pass h' = h_pass h
          /\ w_certs (h_world h') = w_certs (h_world h))
    /\ (forall productId repoId,
          repoId ∈ repos_of (p_productDb p) productId
          <-> AddRepoId productId repoId ∈ h_log h)
    /\ forall s,
         digits_only s ->
         (forall repoId, AddRepoId s repoId ∉ h_log h) ->
         (s +:+ ".pem") ∉ cs_frozen (w_certs sample_world) ->
         hasProductId (p_productDb p) s = false
         /\ cert_file (w_certs (h_world h)) (s +:+ ".pem") = None.
Proof.
  apply (pass_starts_from_empty_database
           (hdr := sample_header) (pem := sample_pem) (stk := sample_stack)
           sample_handle sample_world [repo_a; repo_b]).
  - cbn; lia.
  - reflexivity.
  - reflexivity.
Defined.
(** * Further properties of the code

    ** The lists of repositories of a pass *)

Lemma land_packages_bit (enabled : Z) :
  (0 <? Z.land enabled DNF_REPO_ENABLED_PACKAGES) = Z.testbit enabled 0.
Proof.
  unfold DNF_REPO_ENABLED_PACKAGES.
  change 1 with (Z.ones 1). rewrite Z.land_ones by lia.
  rewrite Z.bit0_odd. change (2 ^ 1) with 2. rewrite Zmod_odd.
  by destruct (Z.odd enabled).
Qed.

Lemma getEnabled_spec (repos enabledRepos : list DnfRepo) :
  getEnabled repos enabledRepos
  = enabledRepos ++ filter (λ r, enabled_for_packages r = true) repos.
Proof.
  revert enabledRepos.
  induction repos as [|r repos IH]; intros enabledRepos; cbn [getEnabled].
  - by rewrite app_nil_r.
  - rewrite land_packages_bit, filter_cons.
    destruct (decide (enabled_for_packages r = true)) as [E|E];
      unfold enabled_for_packages in E.
    + rewrite E, IH. by rewrite <- app_assoc.
    + apply not_true_is_false in E. rewrite E. apply IH.
Qed.

(** X1. [getEnabled] adds to [enabledRepos], behind what the array holds, the
    repositories whose enabled value has the bit for packages set, in the
    order of [repos]; the other bits of the value play no part, and a
    repository is added as often as [repos] holds it. *)
Theorem getEnabled_appends_package_repositories
    (repos enabledRepos : list DnfRepo) :
  getEnabled repos enabledRepos
  = enabledRepos ++ filter (λ r, Z.testbit (repo_enabled r) 0 = true) repos.
Proof.
  exact (getEnabled_spec repos enabledRepos).
Qed.

Lemma fetches_app (l1 l2 : list event) :
  fetches (l1 ++ l2) = fetches l1 ++ fetches l2.
Proof. apply omap_app. Qed.

Lemma fetch_enabled_spec (dnfContext : DnfContext)
    (enabledRepos : list DnfRepo) :
  forall (acc all : list RepoProductId) (log : list event),
  fetch_enabled dnfContext enabledRepos acc = (all, log) ->
  all = acc ++ omap candidate enabledRepos
  /\ fetches log
     = map dnf_repo_get_id (filter (λ r, has_productid r = true) enabledRepos).
Proof.
  induction enabledRepos as [|r rest IH]; intros acc all log;
    cbn [fetch_enabled].
  - intros [= <- <-]. by rewrite app_nil_r.
  - rewrite filter_cons. cbn [omap list_omap].
    destruct (decide (has_productid r = true)) as [E|E];
      unfold has_productid in E; unfold candidate at 1; unfold fetchProductId;
      (destruct (repo_md r) as [| |[]]; try done);
      [destruct (repo_fetch r) as [local|]|..];
      cbn [Z.eqb Pos.eqb];
      destruct (fetch_enabled dnfContext rest _) as [all' log'] eqn:Hrest;
      destruct (IH _ _ _ Hrest) as [-> Hf]; intros [= <- <-];
      (split; [by rewrite <- ?app_assoc|]);
      destruct (ctx_cache_only dnfContext); cbn; rewrite ?fetches_app;
      unfold fetches in *; cbn; by rewrite Hf.
Qed.

(** X2. The loop of [pluginHook] over the enabled repositories makes
    candidates, in order, of exactly those that have a record of type
    productid and whose download succeeds, and it starts a download for
    every repository with such a record, once and in order, also when the
    context is set to cache-only. *)
Theorem fetch_enabled_candidates (dnfContext : DnfContext)
    (enabledRepos : list DnfRepo) (acc : list RepoProductId) :
  (fetch_enabled dnfContext enabledRepos acc).1
  = acc ++ omap candidate enabledRepos
  /\ fetches (fetch_enabled dnfContext enabledRepos acc).2
     = map dnf_repo_get_id
         (filter (λ r, has_productid r = true) enabledRepos).
Proof.
  destruct (fetch_enabled dnfContext enabledRepos acc) as [all log] eqn:H.
  exact (fetch_enabled_spec _ _ _ _ _ H).
Qed.

(** ** [getActive]: its result in every state, its queries, its cost *)

Lemma queries_app (l1 l2 : list event) :
  queries (l1 ++ l2) = queries l1 ++ queries l2.
Proof. apply omap_app. Qed.

Lemma comparisons_app (l1 l2 : list event) :
  comparisons (l1 ++ l2) = (comparisons l1 + comparisons l2)%nat.
Proof. unfold comparisons. by rewrite omap_app, length_app. Qed.

Lemma find_installed_cost (repo : DnfRepo) (i j : nat) (pkg : DnfPackage)
    (installedPackages : list DnfPackage) :
  forall (k : nat),
  queries (find_installed repo i j k pkg installedPackages).2 = []
  /\ (comparisons (find_installed repo i j k pkg installedPackages).2
      <= length installedPackages)%nat.
Proof.
  induction installedPackages as [|instPkg rest IH]; intros k;
    cbn [find_installed]; [by cbn|].
  destruct (_ =? 0); [cbn; split; [done|lia]|].
  specialize (IH (S k)).
  destruct (find_installed repo i j (S k) pkg rest) as [package_found log].
  cbn in *. destruct IH as [Hq Hc]. split; [done|].
  unfold comparisons in *. cbn. lia.
Qed.

Lemma scan_available_cost (repo : DnfRepo) (i : nat)
    (installedPackages availPackageList : list DnfPackage) :
  forall (j : nat),
  queries (scan_available repo i j availPackageList installedPackages).2 = []
  /\ (comparisons
        (scan_available repo i j availPackageList installedPackages).2
      <= length availPackageList * length installedPackages)%nat.
Proof.
  induction availPackageList as [|pkg rest IH]; intros j;
    cbn [scan_available]; [by cbn|].
  pose proof (find_installed_cost repo i j pkg installedPackages 0) as [Hq Hc].
  destruct (find_installed repo i j 0 pkg installedPackages)
    as [package_found log].
  cbn [snd] in Hq, Hc. specialize (IH (S j)).
  destruct (scan_available repo i (S j) rest installedPackages)
    as [added log'].
  cbn [snd] in IH. destruct IH as [Hq' Hc'].
  destruct package_found; cbn [snd length].
  - split; [done|]. lia.
  - rewrite queries_app, comparisons_app, Hq, Hq'. split; [done|]. lia.
Qed.

Lemma scan_repos_cost (dnfSack installedPackages : list DnfPackage)
    (repoAndProductIds : list RepoProductId) :
  forall (i : nat) (activeRepoAndProductIds : list RepoProductId),
  let log :=
    (scan_repos dnfSack i repoAndProductIds installedPackages
       activeRepoAndProductIds).2 in
  queries log
  = imap (λ k rp, ((i + k)%nat, dnf_repo_get_id (repo rp))) repoAndProductIds
  /\ (comparisons log
      <= sum_list
           (map (λ rp, length (hy_query_run dnfSack
                                 (dnf_repo_get_id (repo rp))))
              repoAndProductIds)
         * length installedPackages)%nat.
Proof.
  induction repoAndProductIds as [|rp rest IH]; intros i active0;
    cbn [scan_repos]; [by cbn|].
  pose proof (scan_available_cost (repo rp) i installedPackages
                (hy_query_run dnfSack (dnf_repo_get_id (repo rp))) 0)
    as [Hq Hc].
  destruct (scan_available (repo rp) i 0 _ installedPackages)
    as [added log1].
  cbn [snd] in Hq, Hc.
  specialize (IH (S i) (if added then active0 ++ [rp] else active0)).
  destruct (scan_repos dnfSack (S i) rest installedPackages _)
    as [active log2].
  cbn [snd] in *. destruct IH as [Hq' Hc']. split.
  - change (QueryAvailable i (dnf_repo_get_id (repo rp)) :: log1 ++ log2)
      with ([QueryAvailable i (dnf_repo_get_id (repo rp))] ++ log1 ++ log2).
    rewrite !queries_app, Hq, Hq'. cbn.
    rewrite Nat.add_0_r. f_equal. apply imap_ext.
    intros k x _. cbn. f_equal. lia.
  - change (QueryAvailable i (dnf_repo_get_id (repo rp)) :: log1 ++ log2)
      with ([QueryAvailable i (dnf_repo_get_id (repo rp))] ++ log1 ++ log2).
    rewrite !comparisons_app. cbn [map sum_list sum_list_with].
    change (comparisons [QueryAvailable i (dnf_repo_get_id (repo rp))])
      with 0%nat.
    unfold id. rewrite Nat.mul_add_distr_r. cbn [Nat.add].
    apply Nat.add_le_mono; assumption.
Qed.

Lemma getActive_result (context : DnfContext) (db : RpmDb)
    (repoAndProductIds activeRepoAndProductIds : list RepoProductId) :
  (getActive context db repoAndProductIds activeRepoAndProductIds).1
  = activeRepoAndProductIds
    ++ (if rpmdb_new db
        then filter (supplies_installed context db) repoAndProductIds
        else []).
Proof.
  unfold getActive. destruct (rpmdb_new db); cbn [negb fst].
  - destruct (scan_repos _ _ _ _ _) as [active log] eqn:Hscan.
    by destruct (scan_repos_spec _ _ _ 0%nat [] eq_refl _ _ _ Hscan)
      as (-> & _).
  - by rewrite app_nil_r.
Qed.

Lemma installed_none (db : RpmDb) :
  rpmdb_system db = None \/ rpmdb_system db = Some [] -> installed db = [].
Proof. unfold installed, rpmDbSack. by intros [->| ->]. Qed.

Lemma supplies_nothing (context : DnfContext) (db : RpmDb)
    (repoAndProductIds : list RepoProductId) :
  installed db = [] ->
  filter (supplies_installed context db) repoAndProductIds = [].
Proof.
  intros Hinst. induction repoAndProductIds as [|rp rest IH]; [done|].
  rewrite filter_cons, decide_False; [exact IH|].
  unfold supplies_installed. rewrite Hinst, Exists_exists.
  intros (pkg & _ & Hex). by apply Exists_nil in Hex.
Qed.

(** X3. When the installed packages cannot be had, because the sack cannot
    be made, or the system repository cannot be loaded, or nothing is
    installed, [getActive] marks no candidate and compares no two
    packages. *)
Theorem getActive_without_installed_packages (context : DnfContext)
    (db : RpmDb)
    (repoAndProductIds activeRepoAndProductIds : list RepoProductId) :
  rpmdb_new db = false \/ rpmdb_system db = None
  \/ rpmdb_system db = Some [] ->
  (getActive context db repoAndProductIds activeRepoAndProductIds).1
  = activeRepoAndProductIds
  /\ comparisons
       (getActive context db repoAndProductIds activeRepoAndProductIds).2
     = 0%nat.
Proof.
  intros H. unfold getActive.
  destruct (rpmdb_new db) eqn:Hnew; cbn [negb]; [|done].
  assert (Hinst : hy_query_run (rpmDbSack db) HY_SYSTEM_REPO_NAME = []).
  { unfold rpmDbSack. by destruct H as [?|[->| ->]]. }
  rewrite Hinst.
  pose proof (scan_repos_cost (ctx_sack context) [] repoAndProductIds 0
                activeRepoAndProductIds) as [_ Hc].
  destruct (scan_repos _ _ _ _ _) as [active log] eqn:Hscan.
  destruct (scan_repos_spec _ _ _ 0%nat [] eq_refl _ _ _ Hscan) as (-> & _).
  cbn [fst snd] in *. split.
  - rewrite <- (app_nil_r activeRepoAndProductIds) at 2. f_equal.
    clear. induction repoAndProductIds as [|rp rest IH]; [done|].
    rewrite filter_cons, decide_False; [exact IH|].
    rewrite Exists_exists. intros (pkg & _ & Hex). by apply Exists_nil in Hex.
  - rewrite Nat.mul_0_r in Hc. rewrite !comparisons_app.
    change (QueryInstalled :: log) with ([QueryInstalled] ++ log).
    rewrite comparisons_app.
    destruct (rpmdb_setup db), (rpmdb_system db); cbn; lia.
Qed.

(** X4. Once the sack for the rpm database is made, [getActive] queries the
    packages of every candidate, once and in the order of the candidates,
    whether the candidate is then marked or not; without the sack it makes
    no query. *)
Theorem getActive_queries_every_candidate (context : DnfContext) (db : RpmDb)
    (repoAndProductIds activeRepoAndProductIds : list RepoProductId) :
  queries (getActive context db repoAndProductIds activeRepoAndProductIds).2
  = if rpmdb_new db
    then imap (λ i rp, (i, dnf_repo_get_id (repo rp))) repoAndProductIds
    else [].
Proof.
  unfold getActive. destruct (rpmdb_new db); cbn [negb]; [|done].
  pose proof (scan_repos_cost (ctx_sack context)
                (hy_query_run (rpmDbSack db) HY_SYSTEM_REPO_NAME)
                repoAndProductIds 0 activeRepoAndProductIds) as [Hq _].
  destruct (scan_repos _ _ _ _ _) as [active log]. cbn [snd] in *.
  rewrite !queries_app.
  change (QueryInstalled :: log) with ([QueryInstalled] ++ log).
  rewrite queries_app, Hq.
  by destruct (rpmdb_setup db), (rpmdb_system db).
Qed.

(** X5. The comparisons of [getActive] are at most the number of installed
    packages times the number of packages available from the candidates:
    every available package is compared with an installed one once at
    most. *)
Theorem getActive_comparisons_bounded (context : DnfContext) (db : RpmDb)
    (repoAndProductIds activeRepoAndProductIds : list RepoProductId) :
  (comparisons
     (getActive context db repoAndProductIds activeRepoAndProductIds).2
   <= sum_list (map (λ rp, length (available context rp)) repoAndProductIds)
      * length (installed db))%nat.
Proof.
  unfold getActive, available, installed.
  destruct (rpmdb_new db); cbn [negb]; [|cbn; lia].
  pose proof (scan_repos_cost (ctx_sack context)
                (hy_query_run (rpmDbSack db) HY_SYSTEM_REPO_NAME)
                repoAndProductIds 0 activeRepoAndProductIds) as [_ Hc].
  destruct (scan_repos _ _ _ _ _) as [active log]. cbn [snd] in *.
  rewrite !comparisons_app.
  change (QueryInstalled :: log) with ([QueryInstalled] ++ log).
  rewrite comparisons_app.
  destruct (rpmdb_setup db), (rpmdb_system db); cbn in *; lia.
Qed.

(** ** [findProductId]: when it succeeds, and what a product id looks like *)

Lemma dotted_decimal_app (s t : string) :
  dotted_decimal s -> dotted_decimal t -> dotted_decimal (s +:+ t).
Proof.
  unfold dotted_decimal. induction s as [|c s IH]; intros Hs Ht; [done|].
  rewrite string_app_cons. cbn in *. apply Forall_cons in Hs as [Hc Hs].
  constructor; [done|by apply IH].
Qed.

Lemma digits_only_dotted (s : string) : digits_only s -> dotted_decimal s.
Proof.
  intros H. eapply Forall_impl; [exact H|]. intros c Hc. by right.
Qed.

Lemma numerical_form_dotted (a : ASN1_OBJECT) :
  dotted_decimal (numerical_form a).
Proof.
  unfold numerical_form. induction a as [|x a IH]; [constructor|].
  destruct a as [|y a].
  - cbn. apply digits_only_dotted, pretty_N_digits.
  - cbn [map] in *. rewrite concat_cons2.
    apply dotted_decimal_app; [apply digits_only_dotted, pretty_N_digits|].
    apply dotted_decimal_app; [|exact IH].
    constructor; [by left|constructor].
Qed.

Lemma substring_dotted (s : string) :
  forall n : nat, dotted_decimal s -> dotted_decimal (String.substring 0 n s).
Proof.
  unfold dotted_decimal.
  induction s as [|c s IH]; intros [|n] Hs; cbn; try constructor.
  - by apply Forall_cons in Hs as [? ?].
  - apply IH. by apply Forall_cons in Hs as [? ?].
Qed.

Lemma strsplit_tokens_dotted (s : string) :
  forall token tokens,
  strsplit_tokens "." s = (token, tokens) ->
  dotted_decimal s -> Forall digits_only (token :: tokens).
Proof.
  induction s as [|c s IH]; intros token tokens; cbn [strsplit_tokens].
  - intros [= <- <-] _. repeat constructor.
  - destruct (strsplit_tokens "." s) as [token' tokens'].
    specialize (IH _ _ eq_refl). intros Hsplit Hs.
    apply Forall_cons in Hs as [Hc Hs]. specialize (IH Hs).
    apply Forall_cons in IH as [Ht Hts].
    destruct (Ascii.eqb c ".") eqn:E; injection Hsplit as <- <-.
    + repeat constructor; done.
    + constructor; [|done]. constructor; [|done].
      destruct Hc as [->|Hc]; [done|exact Hc].
Qed.

Lemma g_strsplit_dotted (s : string) :
  dotted_decimal s -> Forall digits_only (g_strsplit s ".").
Proof.
  intros Hs. unfold g_strsplit. destruct s as [|c s]; [constructor|].
  destruct (strsplit_tokens "." (String c s)) as [token tokens] eqn:E.
  by apply (strsplit_tokens_dotted _ _ _ E).
Qed.

Section FindMore.
Context `{hdr : ProductIdH} `{pem : Pem} `{stk : Stack}.

Lemma components_digits (ext : X509_EXTENSION) :
  Forall digits_only (components ext).
Proof.
  unfold components, oid_text, OBJ_obj2txt. apply g_strsplit_dotted.
  apply substring_dotted, numerical_form_dotted.
Qed.

Lemma first_vendor (exts : list X509_EXTENSION) :
  Forall (λ e, vendor e = false) exts
  \/ exists skipped ext after,
       exts = skipped ++ ext :: after
       /\ Forall (λ e, vendor e = false) skipped /\ vendor ext = true.
Proof.
  induction exts as [|e exts IH]; [left; constructor|].
  destruct (vendor e) eqn:He.
  - right. exists [], e, exts. by split_and!.
  - destruct IH as [IH|(skipped & ext & after & -> & Hs & Hv)].
    + left. by constructor.
    + right. exists (e :: skipped), ext, after. split_and!; [done| |done].
      by constructor.
Qed.

(** The outcomes of [findProductId]. *)
Lemma findProductId_cases (certContent : GString) (result : string) :
  let f := findProductId certContent result in
  (f_ret f = -1 /\ f_result f = result
   /\ forall bio x509 skipped ext after,
        BIO_new_mem_buf certContent = Some bio ->
        PEM_read_bio_X509 bio = Some x509 ->
        x509_extensions x509 = skipped ++ ext :: after ->
        Forall (λ e, vendor e = false) skipped ->
        vendor ext = true ->
        (length (components ext) < 10)%nat)
  \/ (f_ret f = 1
      /\ exists bio x509 skipped ext after,
           BIO_new_mem_buf certContent = Some bio
           /\ PEM_read_bio_X509 bio = Some x509
           /\ x509_extensions x509 = skipped ++ ext :: after
           /\ Forall (λ e, vendor e = false) skipped
           /\ vendor ext = true
           /\ (10 <= length (components ext))%nat
           /\ components ext !! 9%nat = Some (f_result f)).
Proof.
  cbn zeta. unfold findProductId.
  destruct (BIO_new_mem_buf certContent) as [bio|] eqn:Hbio;
    [|left; by split_and!].
  destruct (PEM_read_bio_X509 bio) as [x509|] eqn:Hpem;
    [|left; split_and!; try done; intros ? ? ? ? ? [= <-]; congruence].
  unfold X509_get_ext_count. rewrite Nat2Z.id.
  destruct (first_vendor (x509_extensions x509))
    as [Hnone|(skipped & ext & after & Hx & Hs & Hv)].
  - rewrite (scan_extensions_none x509 1 result (x509_extensions x509) [])
      by done.
    left. cbn. split_and!; try done.
    intros bio' x509' skipped ext after [= <-] Hpem' Hx _ Hv.
    rewrite Hpem in Hpem'. injection Hpem' as <-. rewrite Hx in Hnone.
    apply Forall_app in Hnone as [_ Hnone].
    apply Forall_cons in Hnone as [Hnone _]. congruence.
  - rewrite Hx.
    rewrite (scan_extensions_first x509 1 result ext after skipped []) by done.
    destruct (9 <? Z.of_nat (length (components ext))) eqn:E.
    + apply Z.ltb_lt in E. right. cbn. split; [done|].
      exists bio, x509, skipped, ext, after. split_and!; try done; [lia|].
      destruct (lookup_lt_is_Some_2 (components ext) 9%nat) as [id Hid];
        [lia|].
      by rewrite Hid.
    + apply Z.ltb_ge in E. left. cbn. split_and!; try done.
      intros bio' x509' skipped' ext' after' [= <-] Hpem' Hx' Hs' Hv'.
      rewrite Hpem in Hpem'. injection Hpem' as <-.
      assert (Hsame : skipped' = skipped /\ ext' = ext).
      { rewrite Hx in Hx'. clear -Hx' Hs Hv Hs' Hv'.
        revert skipped' Hx' Hs'.
        induction skipped as [|e skipped IH]; intros [|e' skipped'] Hx' Hs';
          cbn in Hx'.
        - by injection Hx' as -> _.
        - injection Hx' as -> _. apply Forall_cons in Hs' as [? _].
          congruence.
        - injection Hx' as <- _. apply Forall_cons in Hs as [? _].
          congruence.
        - injection Hx' as <- Hx'. apply Forall_cons in Hs as [_ Hs].
          apply Forall_cons in Hs' as [_ Hs'].
          destruct (IH Hs _ Hx' Hs') as [-> ->]. done. }
      destruct Hsame as [_ ->]. lia.
Qed.

(** X6. [findProductId] returns 1 or -1 and never 0. It returns 1 exactly
    when the certificate can be read and the first of its extensions whose
    text starts with the prefix of the vendor has ten components or more;
    when it returns -1, [result] is as the caller passed it. *)
Theorem findProductId_succeeds_exactly_when
    (certContent : GString) (result : string) :
  let f := findProductId certContent result in
  (f_ret f = 1 \/ f_ret f = -1)
  /\ (f_ret f = 1
      <-> exists bio x509 skipped ext after,
            BIO_new_mem_buf certContent = Some bio
            /\ PEM_read_bio_X509 bio = Some x509
            /\ x509_extensions x509 = skipped ++ ext :: after
            /\ Forall (λ e, vendor e = false) skipped
            /\ vendor ext = true
            /\ (10 <= length (components ext))%nat)
  /\ (f_ret f = -1 -> f_result f = result).
Proof.
  cbn zeta.
  destruct (findProductId_cases certContent result)
    as [(Hret & Hres & Hno)|(Hret & bio & x509 & skipped & ext & after & H)].
  - split_and!; [by right| |done]. rewrite Hret. split; [done|].
    intros (bio & x509 & skipped & ext & after & Hb & Hp & Hx & Hs & Hv & Hl).
    specialize (Hno _ _ _ _ _ Hb Hp Hx Hs Hv). lia.
  - split_and!; [by left| |rewrite Hret; done]. split; [|done].
    intros _. exists bio, x509, skipped, ext, after. naive_solver.
Qed.

(** X7. A product id that [findProductId] returns with 1 consists of
    decimal digits only, whatever the certificate: it has no dot, no slash
    and no other character that could lead the name of the certificate file
    out of its directory; it can be empty. *)
Theorem findProductId_result_is_digits
    (certContent : GString) (result : string) :
  f_ret (findProductId certContent result) = 1 ->
  digits_only (f_result (findProductId certContent result)).
Proof.
  intros Hret.
  destruct (findProductId_cases certContent result)
    as [(Hret' & _)|(_ & bio & x509 & skipped & ext & after & H)];
    [congruence|].
  destruct H as (_ & _ & _ & _ & _ & _ & Hid).
  pose proof (components_digits ext) as Hall.
  rewrite Forall_lookup in Hall. exact (Hall _ _ Hid).
Qed.

End FindMore.

(** ** [decompress]: the text it leaves *)

Lemma c_str_no_nul (buffer : list byte) : Forall (λ b, b ≠ x00) (c_str buffer).
Proof.
  induction buffer as [|b rest IH]; cbn [c_str]; [constructor|].
  destruct (Byte.eqb b x00) eqn:E; constructor; [|done].
  intros ->. by vm_compute in E.
Qed.

Lemma c_str_all (buffer : list byte) :
  Forall (λ b, b ≠ x00) buffer -> c_str buffer = buffer.
Proof.
  induction 1 as [|b rest Hb _ IH]; cbn [c_str]; [done|].
  destruct (Byte.eqb b x00) eqn:E; [|by rewrite IH].
  by apply Byte.byte_dec_bl in E.
Qed.

Lemma c_str_idemp (buffer : list byte) : c_str (c_str buffer) = c_str buffer.
Proof. apply c_str_all, c_str_no_nul. Qed.

Lemma c_str_prefix (buffer : list byte) :
  exists after, buffer = c_str buffer ++ after.
Proof.
  induction buffer as [|b rest [after IH]]; cbn [c_str]; [by exists []|].
  destruct (Byte.eqb b x00); [by eexists|].
  exists after. cbn. by rewrite <- IH.
Qed.

Lemma c_str_length (buffer : list byte) :
  (length (c_str buffer) <= length buffer)%nat.
Proof.
  destruct (c_str_prefix buffer) as [after H]. rewrite H at 2.
  rewrite length_app. lia.
Qed.

Section DecompressMore.
Context `{hdr : ProductIdH} `{stk : Stack}.

Lemma last_chunk_text_short (data : list byte) :
  2 <= CHUNK -> Z.of_nat (length data) < CHUNK - 1 ->
  last_chunk_text data = c_str data.
Proof.
  intros HC Hlen. unfold last_chunk_text.
  rewrite Nat.div_small by lia. done.
Qed.

Lemma last_chunk_text_length (data : list byte) :
  2 <= CHUNK -> Z.of_nat (length (last_chunk_text data)) <= CHUNK - 2.
Proof.
  intros HC. unfold last_chunk_text.
  set (n := Z.to_nat (CHUNK - 1)).
  assert (Hn : (0 < n)%nat) by (subst n; lia).
  pose proof (c_str_length (drop (length data / n * n) data)) as Hle.
  rewrite length_drop in Hle.
  pose proof (Nat.div_mod_eq (length data) n) as Hdm.
  pose proof (Nat.mod_upper_bound (length data) n ltac:(lia)) as Hm.
  assert ((length data - length data / n * n = length data mod n)%nat) by lia.
  subst n. lia.
Qed.

(** Once a whole chunk has been read, the text that a failed read leaves
    does not depend on what the array held at first. *)
Lemma stale_text_after_a_chunk (buffer buffer' data : list byte) :
  2 <= CHUNK -> CHUNK - 1 <= Z.of_nat (length data) ->
  stale_text buffer data = stale_text buffer' data.
Proof.
  intros HC Hlen. unfold stale_text.
  destruct (length data / Z.to_nat (CHUNK - 1))%nat eqn:E; [|done].
  apply Nat.div_small_iff in E; lia.
Qed.

(** X9. The text [decompress] leaves in [output], for every content and
    ending of the stream and whatever [output] held before: it has no NUL
    byte. When the stream has no error of the decoder the text has
    [CHUNK - 2] bytes at most, however long the content is, and it is a
    piece of the content. When a read fails on an error of the decoder
    after a whole chunk has been read, the text is what the array holds
    then, whatever it held at first: the bytes the failed read has stored,
    and behind them what is left of the chunk of the read before. *)
Theorem decompress_output_is_a_bounded_piece (data : list byte)
    (ending : gz_ending) (output : GString) (fuel : nat) :
  2 <= CHUNK ->
  (decompress_fuel (length data) <= fuel)%nat ->
  exists d,
    decompress fuel (opened data ending) output = Some d
    /\ Forall (λ b, b ≠ x00) (d_output d)
    /\ (faulty ending = false ->
        Z.of_nat (length (d_output d)) <= CHUNK - 2
        /\ exists before after, data = before ++ d_output d ++ after)
    /\ (faulty ending = true ->
        CHUNK - 1 <= Z.of_nat (length data) ->
        forall buffer, d_output d = stale_text buffer data).
Proof.
  intros HC Hfuel. unfold decompress, opened, decompress_fuel in *.
  rewrite (decompress_loop_opened HC) by lia.
  eexists. split; [reflexivity|]. cbn [d_output].
  destruct (faulty ending).
  - split_and!; [apply c_str_no_nul|done|]. intros _ Hlen buffer.
    by apply stale_text_after_a_chunk.
  - split_and!; [apply c_str_no_nul| |done]. intros _. split.
    + exact (last_chunk_text_length data HC).
    + set (m := (length data / Z.to_nat (CHUNK - 1)
                 * Z.to_nat (CHUNK - 1))%nat).
      destruct (c_str_prefix (drop m data)) as [after Hafter].
      exists (take m data), after.
      rewrite <- Hafter. by rewrite take_drop.
Qed.

(** X10. When the stream has no error of the decoder, [decompress] returns
    [TRUE], and the text it leaves in [output] is the whole content exactly
    when the content is shorter than [CHUNK - 1] bytes and has no NUL byte:
    such a content comes out as it is, every other content comes out
    cut. *)
Theorem decompress_returns_the_content_exactly_when (data : list byte)
    (ending : gz_ending) (output : GString) (fuel : nat) :
  2 <= CHUNK ->
  faulty ending = false ->
  (decompress_fuel (length data) <= fuel)%nat ->
  exists d,
    decompress fuel (opened data ending) output = Some d
    /\ d_ret d = TRUE
    /\ (d_output d = data
        <-> Z.of_nat (length data) < CHUNK - 1 /\ Forall (λ b, b ≠ x00) data).
Proof.
  intros HC Hok Hfuel. unfold decompress, opened, decompress_fuel in *.
  rewrite (decompress_loop_opened HC) by lia. rewrite Hok.
  eexists. split; [reflexivity|]. cbn [d_ret d_output].
  split; [done|]. fold (last_chunk_text data). split.
  - intros Heq. split.
    + pose proof (last_chunk_text_length data HC) as Hlen.
      rewrite Heq in Hlen. lia.
    + rewrite <- Heq. apply c_str_no_nul.
  - intros [Hlen Hnul]. rewrite last_chunk_text_short by done.
    by apply c_str_all.
Qed.

(** X11. [decompress] reads the stream to its end, or to the error of the
    decoder, although it keeps the last chunk only: it makes one read more
    than the content has whole chunks of [CHUNK - 1] bytes, and no byte of
    the stream is left unread when it returns. *)
Theorem decompress_reads_the_whole_stream (data : list byte)
    (ending : gz_ending) (output : GString) (fuel : nat) :
  2 <= CHUNK ->
  (decompress_fuel (length data) <= fuel)%nat ->
  exists d,
    decompress fuel (opened data ending) output = Some d
    /\ gz_rest (d_input d) = []
    /\ length (d_nul d) = S (length data / Z.to_nat (CHUNK - 1)).
Proof.
  intros HC Hfuel. unfold decompress, opened, decompress_fuel in *.
  rewrite (decompress_loop_opened HC) by lia.
  eexists. split; [reflexivity|]. cbn [d_input d_nul]. split.
  - by destruct ending.
  - cbn [app]. rewrite length_app, length_replicate. cbn. lia.
Qed.

End DecompressMore.

Lemma decompress_output_is_a_bounded_piece_witness :
  exists d,
    decompress (hdr := sample_header) (stk := sample_stack)
      (decompress_fuel (length two_chunks)) (opened two_chunks (Fault 3))
      (bytes_of "before") = Some d
    /\ Forall (λ b, b ≠ x00) (d_output d)
    /\ (faulty (Fault 3) = false ->
        Z.of_nat (length (d_output d)) <= @CHUNK sample_header - 2
        /\ exists before after, two_chunks = before ++ d_output d ++ after)
    /\ (faulty (Fault 3) = true ->
        @CHUNK sample_header - 1 <= Z.of_nat (length two_chunks) ->
        forall buffer,
          d_output d = stale_text (hdr := sample_header) buffer two_chunks).
Proof.
  apply (decompress_output_is_a_bounded_piece
           (hdr := sample_header) (stk := sample_stack)
           two_chunks (Fault 3) (bytes_of "before")
           (decompress_fuel (length two_chunks))).
  - cbn; lia.
  - apply Nat.le_refl.
Defined.

Lemma decompress_returns_the_content_exactly_when_witness :
  exists d,
    decompress (hdr := sample_header) (stk := sample_stack) 8
      (opened (bytes_of "CERT 69") Truncated) [] = Some d
    /\ d_ret d = TRUE
    /\ (d_output d = bytes_of "CERT 69"
        <-> Z.of_nat (length (bytes_of "CERT 69")) < @CHUNK sample_header - 1
            /\ Forall (λ b, b ≠ x00) (bytes_of "CERT 69")).
Proof.
  apply (decompress_returns_the_content_exactly_when
           (hdr := sample_header) (stk := sample_stack)
           (bytes_of "CERT 69") Truncated [] 8).
  - cbn; lia.
  - reflexivity.
  - vm_compute; lia.
Defined.

Lemma decompress_reads_the_whole_stream_witness :
  2 <= @CHUNK sample_header
  /\ exists d,
       decompress (hdr := sample_header) (stk := sample_stack)
         (decompress_fuel (length two_chunks))
         (opened two_chunks (Fault 3)) [] = Some d
       /\ gz_rest (d_input d) = []
       /\ length (d_nul d)
          = S (length two_chunks / Z.to_nat (@CHUNK sample_header - 1)).
Proof.
  assert (HC : 2 <= @CHUNK sample_header) by (cbn; lia).
  split; [exact HC|].
  exact (decompress_reads_the_whole_stream
           (hdr := sample_header) (stk := sample_stack)
           two_chunks (Fault 3) [] (decompress_fuel (length two_chunks))
           HC (Nat.le_refl _)).
Defined.

(** ** [installProductId]: when it installs, and what an install changes *)

Lemma records_app (l1 l2 : list event) :
  records (l1 ++ l2) = records l1 ++ records l2.
Proof. apply omap_app. Qed.

Lemma records_log_lines (log : list event) :
  Forall (λ e, ∃ lvl fmt args, e = Log lvl fmt args) log -> records log = [].
Proof.
  induction 1 as [|e log (lvl & fmt & args & ->) _ IH]; [done|].
  exact IH.
Qed.


Lemma cert_dir_usable_mkdir (cs : CertStore) :
  (cert_dir_usable cs = true ->
   exists cs', mkdir_certs cs = (0, cs') /\ is_Some (cs_dir cs'))
  /\ (cert_dir_usable cs = false -> mkdir_certs cs = (-1, cs)).
Proof.
  unfold cert_dir_usable, mkdir_certs.
  destruct (cs_dir cs) as [files|] eqn:Hdir.
  - rewrite bool_decide_eq_true_2 by eauto. cbn. split; [|done].
    intros _. exists cs. rewrite Hdir. by eauto.
  - rewrite bool_decide_eq_false_2 by (by intros [? ?]). cbn.
    destruct (cs_creatable cs); split; try done.
    intros _. eexists. split; [reflexivity|]. cbn. by eauto.
Qed.

Section InstallMore.
Context `{hdr : ProductIdH} `{pem : Pem} `{stk : Stack}.

Lemma findProductId_ret_not_0 (certContent : GString) (result : string) :
  (f_ret (findProductId certContent result) =? 0) = false.
Proof.
  destruct (findProductId_cases certContent result) as [(-> & _)|(-> & _)];
    done.
Qed.

(** The run of [installProductId], case by case. *)
Lemma installProductId_run (rp : RepoProductId) (productDb : ProductDb)
    (w : World) :
  2 <= CHUNK ->
  match w_gz w !! productIdPath rp with
  | None =>
      exists log,
        installProductId rp productDb w = Some (0, productDb, w, log)
        /\ records log = []
  | Some (data, ending) =>
      if faulty ending then
        exists log,
          installProductId rp productDb w = Some (0, productDb, w, log)
          /\ records log = []
      else
        let text := last_chunk_text data in
        let productId := f_result (findProductId text EmptyString) in
        exists cs log,
          cs_creatable cs = cs_creatable (w_certs w)
          /\ cs_unwritable cs = cs_unwritable (w_certs w)
          /\ cs_frozen cs = cs_frozen (w_certs w)
          /\ cs_errno cs = cs_errno (w_certs w)
          /\ (is_Some (cs_dir cs) <-> cert_dir_usable (w_certs w) = true)
          /\ if cert_dir_usable (w_certs w)
                && bool_decide
                     (install_name text ∉ cs_unwritable (w_certs w))
             then
               installProductId rp productDb w
               = Some (1,
                       addRepoId productDb productId
                         (dnf_repo_get_id (repo rp)),
                       set_certs w cs, log)
               /\ records log = [(productId, dnf_repo_get_id (repo rp))]
               /\ forall f, cert_file cs f =
                    if bool_decide (f = install_name text) then Some text
                    else cert_file (w_certs w) f
             else
               installProductId rp productDb w
               = Some (0, productDb, set_certs w cs, log)
               /\ records log = []
               /\ forall f, cert_file cs f = cert_file (w_certs w) f
  end.
Proof.
  intros HC. unfold installProductId, gzopen.
  destruct (w_gz w !! productIdPath rp) as [[data ending]|];
    [|by eexists].
  unfold decompress, opened, decompress_fuel. cbn [gz_rest].
  rewrite (decompress_loop_opened HC) by lia. cbn [d_ret d_output d_log].
  destruct (faulty ending); [by eexists|].
  change (TRUE =? FALSE) with false. cbn iota.
  fold (last_chunk_text data). set (text := last_chunk_text data).
  rewrite findProductId_ret_not_0. cbn [negb].
  pose proof (findProductId_log text EmptyString) as Hflog.
  apply records_log_lines in Hflog.
  unfold install_name.
  set (productId := f_result (findProductId text EmptyString)).
  destruct (cert_dir_usable_mkdir (w_certs w)) as [Hyes Hno].
  destruct (cert_dir_usable (w_certs w)) eqn:Huse.
  - destruct (Hyes eq_refl) as (cs1 & Hmk & Hdir1). rewrite Hmk.
    destruct (mkdir_certs_spec _ _ _ Hmk) as (Hc1 & Hz1 & He1 & Hf1).
    pose proof (mkdir_certs_unwritable _ _ _ Hmk) as Hu1.
    change (0 =? 0) with true. cbn iota. cbn [andb].
    pose proof (write_cert_unwritable cs1 (productId +:+ ".pem") text)
      as Hwu.
    destruct (write_cert cs1 (productId +:+ ".pem") text) as [cs2|] eqn:Hwr.
    + destruct (write_cert_spec _ _ _ _ Hwr) as (Hc2 & Hz2 & He2 & Hf2).
      destruct Hwu as (Hu2 & Hfree & Hdir2). rewrite Hu1 in Hfree.
      rewrite bool_decide_eq_true_2 by done.
      exists cs2. eexists. split_and!; try congruence.
      * done.
      * reflexivity.
      * rewrite !records_app, Hflog. cbn. done.
      * intros f. rewrite Hf2, Hf1. unfold text, last_chunk_text.
        by rewrite c_str_idemp.
    + pose proof (Hwu Hdir1) as Hin. rewrite Hu1 in Hin.
      rewrite bool_decide_eq_false_2 by tauto.
      exists cs1. eexists. split_and!; try congruence.
      * split; [done|]. by intros _.
      * reflexivity.
      * rewrite !records_app, Hflog. cbn. done.
  - rewrite (Hno eq_refl). change (-1 =? 0) with false. cbn iota. cbn [andb].
    exists (w_certs w). eexists. split_and!; try done.
    + split; [|done]. intros Hdir. unfold cert_dir_usable in Huse.
      rewrite bool_decide_eq_true_2 in Huse by done. done.
    + rewrite !records_app, Hflog. cbn. done.
Qed.

(** X12. [installProductId] comes to an end and returns 1 or 0. It returns
    1 exactly when the productid file can be opened, its stream has no error
    of the decoder, the directory of the certificates is there or can be
    made, and the certificate file can be opened for writing. Whether
    [findProductId] found a product id plays no part: it returns 1 or -1,
    and the test [if (productIdFound)] holds for both. *)
Theorem installProductId_returns_1_exactly_when (rp : RepoProductId)
    (productDb : ProductDb) (w : World) :
  2 <= CHUNK ->
  exists ret db' w' log,
    installProductId rp productDb w = Some (ret, db', w', log)
    /\ (ret = 1 \/ ret = 0)
    /\ (ret = 1
        <-> exists data ending,
              w_gz w !! productIdPath rp = Some (data, ending)
              /\ faulty ending = false
              /\ cert_dir_usable (w_certs w) = true
              /\ install_name (last_chunk_text data)
                 ∉ cs_unwritable (w_certs w)).
Proof.
  intros HC. pose proof (installProductId_run rp productDb w HC) as Hrun.
  destruct (w_gz w !! productIdPath rp) as [[data ending]|] eqn:Hgz.
  2:{ destruct Hrun as (log & -> & _). eexists _, _, _, _.
      split_and!; [reflexivity|by right|].
      split; [done|]. by intros (? & ? & ? & _). }
  destruct (faulty ending) eqn:Hf.
  { destruct Hrun as (log & -> & _). eexists _, _, _, _.
    split_and!; [reflexivity|by right|].
    split; [done|]. intros (? & ? & [= <- <-] & ? & _). congruence. }
  cbn zeta in Hrun. destruct Hrun as (cs & log & _ & _ & _ & _ & _ & Hrun).
  destruct (cert_dir_usable (w_certs w)) eqn:Huse; cbn [andb] in Hrun.
  - destruct (decide (install_name (last_chunk_text data)
                      ∈ cs_unwritable (w_certs w))) as [Hin|Hout].
    + rewrite bool_decide_eq_false_2 in Hrun by tauto.
      destruct Hrun as (-> & _). eexists _, _, _, _.
      split_and!; [reflexivity|by right|].
      split; [done|]. intros (? & ? & [= <- <-] & _ & _ & ?). done.
    + rewrite bool_decide_eq_true_2 in Hrun by done.
      destruct Hrun as (-> & _). eexists _, _, _, _.
      split_and!; [reflexivity|by left|].
      split; [|done]. intros _. by exists data, ending.
  - destruct Hrun as (-> & _). eexists _, _, _, _.
    split_and!; [reflexivity|by right|].
    split; [done|]. intros (? & ? & _ & _ & ? & _). done.
Qed.



End InstallMore.

Lemma installProductId_returns_1_exactly_when_witness :
  2 <= @CHUNK sample_header
  /\ exists ret db' w' log,
       installProductId (hdr := sample_header) (pem := sample_pem)
         (stk := sample_stack)
         rp_a initProductDb sample_world = Some (ret, db', w', log)
       /\ (ret = 1 \/ ret = 0)
       /\ (ret = 1
           <-> exists data ending,
                 w_gz sample_world !! productIdPath rp_a
                 = Some (data, ending)
                 /\ faulty ending = false
                 /\ cert_dir_usable (w_certs sample_world) = true
                 /\ install_name (hdr := sample_header) (pem := sample_pem)
                      (last_chunk_text (hdr := sample_header) data)
                    ∉ cs_unwritable (w_certs sample_world)).
Proof.
  assert (HC : 2 <= @CHUNK sample_header) by (cbn; lia).
  split; [exact HC|].
  exact (installProductId_returns_1_exactly_when
           (hdr := sample_header) (pem := sample_pem) (stk := sample_stack)
           rp_a initProductDb sample_world HC).
Defined.



(** ** [removeUnusedProductCerts]: in every state of the directory *)

Lemma certs_eq (cs cs' : CertStore) :
  (is_Some (cs_dir cs') <-> is_Some (cs_dir cs)) ->
  (forall f, cert_file cs' f = cert_file cs f) ->
  cs_creatable cs' = cs_creatable cs ->
  cs_unwritable cs' = cs_unwritable cs -> cs_frozen cs' = cs_frozen cs ->
  cs_errno cs' = cs_errno cs ->
  cs' = cs.
Proof.
  destruct cs as [dir c u z e], cs' as [dir' c' u' z' e'].
  unfold cert_file. cbn.
  intros Hdir Hfiles -> -> -> ->. f_equal.
  destruct dir as [files|], dir' as [files'|].
  - f_equal. by apply map_eq.
  - destruct (proj2 Hdir) as [? ?]; [by eauto|done].
  - destruct (proj1 Hdir) as [? ?]; [by eauto|done].
  - done.
Qed.

Section SweepMore.
Context `{hdr : ProductIdH}.

(** The sweep, with all it leaves of the directory. *)
Lemma removeUnusedProductCerts_run (productDb : ProductDb) (cs : CertStore) :
  exists cs' log,
    removeUnusedProductCerts productDb cs = (0, cs', log)
    /\ cs_creatable cs' = cs_creatable cs /\ cs_frozen cs' = cs_frozen cs
    /\ cs_errno cs' = cs_errno cs
    /\ (is_Some (cs_dir cs') <-> is_Some (cs_dir cs))
    /\ (forall f, cert_file cs' f =
          if doomed productDb f && bool_decide (f ∉ cs_frozen cs)
          then None else cert_file cs f)
    /\ (forall f, Remove (PRODUCT_CERT_DIR +:+ f) ∈ log
                  <-> is_Some (cert_file cs f) /\ doomed productDb f = true).
Proof.
  destruct (removeUnusedProductCerts_spec productDb cs)
    as (cs' & log & Hrun & Hz & Hf & Hr).
  exists cs', log. split_and!; try done.
  - unfold removeUnusedProductCerts, g_dir_open in Hrun.
    destruct (cs_dir cs) as [files|]; [|by injection Hrun as <- _].
    destruct (sweep_names _ _ _) as [cs'' log''] eqn:Hs.
    injection Hrun as <- _.
    by destruct (sweep_names_spec _ _ _ _ _ Hs) as (?&_).
  - unfold removeUnusedProductCerts, g_dir_open in Hrun.
    destruct (cs_dir cs) as [files|]; [|by injection Hrun as <- _].
    destruct (sweep_names _ _ _) as [cs'' log''] eqn:Hs.
    injection Hrun as <- _.
    by destruct (sweep_names_spec _ _ _ _ _ Hs) as (_&_&?&_).
  - unfold removeUnusedProductCerts, g_dir_open in Hrun.
    destruct (cs_dir cs) as [files|] eqn:Hdir;
      [|injection Hrun as <- _; by rewrite Hdir].
    destruct (sweep_names _ _ _) as [cs'' log''] eqn:Hs.
    injection Hrun as <- _.
    destruct (sweep_names_spec _ _ _ _ _ Hs) as (_&_&_&Hd&_).
    by rewrite Hdir in Hd.
Qed.

(** The names that [fopen] cannot open, after a removal and after the
    sweep: the names of before that have not been removed. *)
Lemma g_remove_unwritable (cs cs' : CertStore) (name : string) (ret : Z) :
  g_remove cs name = (ret, cs') ->
  forall f, f ∈ cs_unwritable cs'
            <-> f ∈ cs_unwritable cs
                /\ ~ (f = name /\ is_Some (cert_file cs f)
                      /\ f ∉ cs_frozen cs).
Proof.
  unfold g_remove, cert_file. destruct (cs_dir cs) as [files|] eqn:Hdir.
  - destruct (bool_decide (name ∈ cs_frozen cs)) eqn:Hfr.
    + apply bool_decide_eq_true in Hfr. intros [= <- <-] f. naive_solver.
    + apply bool_decide_eq_false in Hfr.
      destruct (bool_decide (is_Some (files !! name))) eqn:Hex.
      * apply bool_decide_eq_true in Hex. intros [= <- <-] f. cbn.
        rewrite elem_of_difference, elem_of_singleton. naive_solver.
      * apply bool_decide_eq_false in Hex. intros [= <- <-] f.
        naive_solver.
  - intros [= <- <-] f. split; [|tauto]. intros Hin. split; [done|].
    intros (_ & [? ?] & _). done.
Qed.

Lemma sweep_names_unwritable (productDb : ProductDb) (names : list string) :
  forall (cs cs' : CertStore) (log : list event),
  sweep_names productDb names cs = (cs', log) ->
  forall f, f ∈ cs_unwritable cs'
            <-> f ∈ cs_unwritable cs
                /\ ~ (f ∈ names /\ is_Some (cert_file cs f)
                      /\ doomed productDb f = true /\ f ∉ cs_frozen cs).
Proof.
  induction names as [|file_name names IH]; intros cs cs' log.
  - cbn [sweep_names]. intros [= <- <-] f. set_solver.
  - assert (Hskip : doomed productDb file_name = false ->
                    forall (cs' : CertStore) (log : list event),
                    sweep_names productDb names cs = (cs', log) ->
                    forall f, f ∈ cs_unwritable cs'
                      <-> f ∈ cs_unwritable cs
                          /\ ~ (f ∈ file_name :: names
                                /\ is_Some (cert_file cs f)
                                /\ doomed productDb f = true
                                /\ f ∉ cs_frozen cs)).
    { intros Hd cs2 log2 Hs f. rewrite (IH _ _ _ Hs f), elem_of_cons.
      split; intros [Hin Hno]; (split; [done|]).
      - intros ([->|?] & ? & ? & ?); [congruence|]. by apply Hno.
      - intros (? & ? & ? & ?). apply Hno. by auto. }
    cbn [sweep_names].
    destruct (g_str_has_suffix file_name ".pem") eqn:Hsuf.
    2:{ apply Hskip. unfold doomed. by rewrite Hsuf. }
    fold (stem file_name).
    destruct (is_num (stem file_name)) eqn:Hnum; cbn [negb].
    2:{ destruct (sweep_names productDb names cs) as [cs1 log1] eqn:Hs.
        intros [= <- <-]. apply (Hskip ltac:(unfold doomed;
                                              by rewrite Hsuf, Hnum)
                                   _ _ eq_refl). }
    destruct (hasProductId productDb (stem file_name)) eqn:Hhas; cbn [negb].
    { apply Hskip. unfold doomed. by rewrite Hsuf, Hnum, Hhas. }
    clear Hskip.
    destruct (g_remove cs file_name) as [ret cs0] eqn:Hrm.
    destruct (sweep_names productDb names cs0) as [cs1 log1] eqn:Hs.
    intros [= <- <-] f.
    destruct (g_remove_spec _ _ _ _ Hrm) as (_ & Hz0 & _ & _ & Hf0).
    assert (Hdoom : doomed productDb file_name = true).
    { unfold doomed. by rewrite Hsuf, Hnum, Hhas. }
    rewrite (IH _ _ _ Hs f), (g_remove_unwritable _ _ _ _ Hrm f).
    rewrite Hf0, Hz0, elem_of_cons.
    destruct (decide (f = file_name)) as [->|Hne].
    + rewrite bool_decide_eq_true_2 by done. cbn [andb].
      destruct (decide (file_name ∈ cs_frozen cs)) as [Hin|Hout].
      * rewrite bool_decide_eq_false_2 by tauto. tauto.
      * rewrite bool_decide_eq_true_2 by done. split.
        -- intros [[Hu Hno] _]. split; [done|]. tauto.
        -- intros [Hu Hno]. split; [split; [done|tauto]|].
           intros (_ & [? ?] & _). done.
    + rewrite bool_decide_eq_false_2 by done. cbn [andb]. tauto.
Qed.

Lemma removeUnusedProductCerts_unwritable (productDb : ProductDb)
    (cs cs' : CertStore) (ret : Z) (log : list event) :
  removeUnusedProductCerts productDb cs = (ret, cs', log) ->
  forall f, f ∈ cs_unwritable cs'
            <-> f ∈ cs_unwritable cs
                /\ ~ (is_Some (cert_file cs f)
                      /\ doomed productDb f = true /\ f ∉ cs_frozen cs).
Proof.
  unfold removeUnusedProductCerts, g_dir_open.
  destruct (cs_dir cs) as [files|] eqn:Hdir.
  - destruct (sweep_names productDb (elements (dom files)) cs)
      as [cs1 log1] eqn:Hs.
    intros [= <- <- <-] f. rewrite (sweep_names_unwritable _ _ _ _ _ Hs f).
    rewrite elem_of_elements, elem_of_dom. unfold cert_file.
    rewrite Hdir. tauto.
  - intros [= <- <- <-] f. unfold cert_file. rewrite Hdir.
    split; [|tauto]. intros Hin. split; [done|]. intros ([? ?] & _). done.
Qed.

(** A sweep of a directory in which no name that cannot be written can be
    removed leaves these names as they are. *)
Lemma removeUnusedProductCerts_keeps_unwritable (productDb : ProductDb)
    (cs cs' : CertStore) (ret : Z) (log : list event) :
  removeUnusedProductCerts productDb cs = (ret, cs', log) ->
  cs_unwritable cs ⊆ cs_frozen cs ->
  cs_unwritable cs' = cs_unwritable cs.
Proof.
  intros Hrun Hsub. apply set_eq. intros f.
  rewrite (removeUnusedProductCerts_unwritable _ _ _ _ _ Hrun f).
  split; [tauto|]. intros Hin. split; [done|].
  intros (_ & _ & Hout). apply Hout, Hsub, Hin.
Qed.

(** X15. Whether or not files are protected from removal and whether or not
    the directory is there, [removeUnusedProductCerts] returns 0, adds no
    file and alters none; a file of the directory is gone after it exactly
    when it is stale and can be removed, so that a removal that fails does
    not keep the sweep from the other files; and a removal is tried for
    every stale file of the directory. *)
Theorem removeUnusedProductCerts_removes_what_it_can
    (productDb : ProductDb) (cs : CertStore) :
  exists cs' log,
    removeUnusedProductCerts productDb cs = (0, cs', log)
    /\ (forall f content, cert_file cs' f = Some content ->
                          cert_file cs f = Some content)
    /\ (forall f, is_Some (cert_file cs f) ->
          (cert_file cs' f = None
           <-> stale productDb f /\ (f ∉ cs_frozen cs)))
    /\ (forall f, is_Some (cert_file cs f) -> stale productDb f ->
          Remove (PRODUCT_CERT_DIR +:+ f) ∈ log).
Proof.
  destruct (removeUnusedProductCerts_run productDb cs)
    as (cs' & log & Hrun & _ & _ & _ & _ & Hf & Hr).
  exists cs', log. split_and!; [done| | |].
  - intros f content. rewrite Hf. by destruct (_ && _).
  - intros f [content Hc]. rewrite Hf, Hc, <- doomed_spec.
    destruct (doomed productDb f); cbn [andb].
    + destruct (decide (f ∈ cs_frozen cs)).
      * rewrite bool_decide_eq_false_2 by tauto. naive_solver.
      * rewrite bool_decide_eq_true_2 by done. naive_solver.
    + naive_solver.
  - intros f Hex Hst. apply Hr. split; [done|]. by apply doomed_spec.
Qed.

(** X16. A second sweep with the same database finds nothing more to do:
    it leaves the directory exactly as the first sweep left it. *)
Theorem removeUnusedProductCerts_twice (productDb : ProductDb)
    (cs : CertStore) :
  exists cs' log log',
    removeUnusedProductCerts productDb cs = (0, cs', log)
    /\ removeUnusedProductCerts productDb cs' = (0, cs', log').
Proof.
  destruct (removeUnusedProductCerts_run productDb cs)
    as (cs1 & log1 & Hrun1 & Hc1 & Hz1 & He1 & Hd1 & Hf1 & _).
  destruct (removeUnusedProductCerts_run productDb cs1)
    as (cs2 & log2 & Hrun2 & Hc2 & Hz2 & He2 & Hd2 & Hf2 & _).
  exists cs1, log1, log2. split; [done|].
  rewrite Hrun2. do 2 f_equal.
  apply certs_eq; try done.
  - intros f. rewrite Hf2, Hf1, Hz1. by destruct (_ && _).
  - apply set_eq. intros f.
    rewrite (removeUnusedProductCerts_unwritable _ _ _ _ _ Hrun2 f).
    split; [tauto|]. intros Hin. split; [done|].
    rewrite Hf1, Hz1. intros (Hsome & Hd & Hout).
    rewrite Hd, bool_decide_eq_true_2 in Hsome by done.
    by destruct Hsome.
Qed.

End SweepMore.

(** ** The pass of [pluginHook], step by step *)

Section PassFacts.
Context `{hdr : ProductIdH} `{pem : Pem} `{stk : Stack}.

Lemma install_active_records (active : list RepoProductId) :
  forall (productDb db' : ProductDb) (w w' : World) (log : list event),
  install_active active productDb w = Some (db', w', log) ->
  forall p r, AddRepoId p r ∈ log ->
    exists rp, rp ∈ active /\ r = dnf_repo_get_id (repo rp).
Proof.
  induction active as [|rp rest IH]; intros productDb db' w w' log;
    cbn [install_active].
  - intros [= <- <- <-] p r Hin. by apply elem_of_nil in Hin.
  - destruct (installProductId rp productDb w) as [[[[ret db1] w1] log1]|]
      eqn:Hinst; [|done].
    destruct (install_active rest db1 w1) as [[[db2 w2] log2]|] eqn:Hrest;
      [|done].
    intros [= <- <- <-] p r Hin.
    destruct (installProductId_spec _ _ _ _ _ _ _ Hinst) as (_ & _ & Hrec).
    split_elem_of_in Hin. destruct Hin as [Hin|[Hin|Hin]]; [done| |].
    + exists rp. split; [apply list_elem_of_here|].
      destruct Hrec as [(productId & _ & _ & Hadd)|[_ Hnone]].
      * by destruct (proj1 (Hadd _ _) Hin) as [_ Hr].
      * by apply Hnone in Hin.
    + destruct (IH _ _ _ _ _ Hrest _ _ Hin) as (rp' & Hel & ->).
      exists rp'. split; [by apply list_elem_of_further|done].
Qed.

(** The pass that gets through: its lists and its steps. *)
Lemma pluginHook_transaction (handle : PluginHandle) (w : World)
    (repos : list DnfRepo) :
  2 <= CHUNK ->
  w_productdb_dir w = true ->
  ctx_repos (initData handle) = Some repos ->
  let rps :=
    omap candidate (filter (λ r, enabled_for_packages r = true) repos) in
  let active :=
    if rpmdb_new (w_rpmdb w)
    then filter (supplies_installed (initData handle) (w_rpmdb w)) rps
    else [] in
  exists log1 log2 db3 w3 log3 cs4 log4 w5 log5,
    fetch_enabled (initData handle) (getEnabled repos []) [] = (rps, log1)
    /\ getActive (initData handle) (w_rpmdb w) rps [] = (active, log2)
    /\ install_active active
         {| path := PRODUCTDB_FILE; repoMap := repoMap initProductDb |} w
       = Some (db3, w3, log3)
    /\ removeUnusedProductCerts db3 (w_certs w3) = (0, cs4, log4)
    /\ writeRepoMap db3 (set_certs w3 cs4) = (w5, log5)
    /\ pluginHook (Some handle) PLUGIN_HOOK_ID_CONTEXT_TRANSACTION w
       = Some {| h_ret := 1; h_world := w5;
                 h_log :=
                   [Log LDebug "%s v%s, running hook_id: %s on DNF version %d"
                      [strHookId PLUGIN_HOOK_ID_CONTEXT_TRANSACTION]]
                   ++ [Mkdir PRODUCTDB_DIR; GetRepos]
                   ++ log1 ++ log2 ++ log3 ++ log4 ++ log5;
                 h_pass :=
                   Some {| p_productDb := db3; p_repoAndProductIds := rps;
                           p_activeRepoAndProductIds := active;
                           p_certs := w_certs w3 |} |}.
Proof.
  intros HC Hdir Hrepos rps active. unfold pluginHook.
  rewrite Hdir, Hrepos. cbn [negb Z.eqb].
  destruct (fetch_enabled _ _ _) as [rps' log1] eqn:H1.
  destruct (fetch_enabled_spec _ _ _ _ _ H1) as [Hrps _].
  rewrite getEnabled_spec in Hrps. cbn [app] in Hrps. fold rps in Hrps.
  subst rps'.
  destruct (getActive _ _ _ _) as [active' log2] eqn:H2.
  pose proof (getActive_result (initData handle) (w_rpmdb w) rps []) as Hact.
  rewrite H2 in Hact. cbn [fst app] in Hact. fold active in Hact. subst active'.
  destruct (install_active_total active HC
              {| path := PRODUCTDB_FILE; repoMap := repoMap initProductDb |} w)
    as [[[db3 w3] log3] H3].
  rewrite H3.
  destruct (removeUnusedProductCerts_spec db3 (w_certs w3))
    as (cs4 & log4 & H4 & _).
  rewrite H4.
  destruct (writeRepoMap _ _) as [w5 log5] eqn:H5.
  by exists log1, log2, db3, w3, log3, cs4, log4, w5, log5.
Qed.

End PassFacts.

(** ** [pluginHook]: what a pass selects, changes and writes *)

Section PassMore.
Context `{hdr : ProductIdH} `{pem : Pem} `{stk : Stack}.

(** The records in the log of a pass are those of its installs. *)
Lemma pass_records (log0 log1 log2 log3 log4 log5 : list event)
    (productDb : ProductDb) (w w' : World) (a b : string) :
  Forall (λ e, ∃ lvl fmt args, e = Log lvl fmt args) log0 ->
  Forall fetch_event log1 -> Forall active_event log2 ->
  Forall sweep_event log4 ->
  writeRepoMap productDb w = (w', log5) ->
  AddRepoId a b
  ∈ log0 ++ [Mkdir PRODUCTDB_DIR; GetRepos] ++ log1 ++ log2 ++ log3 ++ log4
    ++ log5 ->
  AddRepoId a b ∈ log3.
Proof.
  intros H0 H1 H2 H4 H5 Hin.
  destruct (writeRepoMap_spec _ _ _ _ H5) as [_ Hl5].
  split_elem_of_in Hin. destruct_or!; try done.
  - by destruct (in_log _ _ _ H0 Hin) as (?&?&?&?).
  - by apply (in_log _ _ _ H1) in Hin.
  - by apply (in_log _ _ _ H2) in Hin.
  - by apply (in_log _ _ _ H4) in Hin.
  - apply Hl5 in Hin. naive_solver.
Qed.

(** X17. What a pass selects. Its candidates are, in the order of the
    repositories, those enabled for packages that have a record of type
    productid and whose download succeeded; its active repositories are the
    candidates that supply an installed package, none when the sack for the
    rpm database cannot be made; and every record that the pass makes is
    for a repository that passed all of these tests. *)
Theorem pluginHook_selects_repositories (handle : PluginHandle) (w : World)
    (repos : list DnfRepo) :
  2 <= CHUNK ->
  w_productdb_dir w = true ->
  ctx_repos (initData handle) = Some repos ->
  exists h p,
    pluginHook (Some handle) PLUGIN_HOOK_ID_CONTEXT_TRANSACTION w = Some h
    /\ h_pass h = Some p
    /\ p_repoAndProductIds p
       = omap candidate (filter (λ r, enabled_for_packages r = true) repos)
    /\ p_activeRepoAndProductIds p
       = (if rpmdb_new (w_rpmdb w)
          then filter (supplies_installed (initData handle) (w_rpmdb w))
                 (p_repoAndProductIds p)
          else [])
    /\ forall productId repoId,
         AddRepoId productId repoId ∈ h_log h ->
         exists repo local,
           repo ∈ repos /\ repoId = dnf_repo_get_id repo
           /\ enabled_for_packages repo = true
           /\ has_productid repo = true
           /\ repo_fetch repo = Some local
           /\ rpmdb_new (w_rpmdb w) = true
           /\ supplies_installed (initData handle) (w_rpmdb w)
                {| repo := repo; productIdPath := local |}.
Proof.
  intros HC Hdir Hrepos.
  destruct (pluginHook_transaction handle w repos HC Hdir Hrepos)
    as (log1 & log2 & db3 & w3 & log3 & cs4 & log4 & w5 & log5
        & H1 & H2 & H3 & H4 & H5 & Hhook).
  eexists _, _. split; [exact Hhook|]. cbn [h_pass h_log].
  split; [reflexivity|]. cbn [p_repoAndProductIds p_activeRepoAndProductIds].
  split_and!; [done|done|].
  intros productId repoId Hin.
  apply fetch_enabled_log in H1.
  pose proof (getActive_log (initData handle) (w_rpmdb w)
                (omap candidate
                   (filter (λ r, enabled_for_packages r = true) repos)) [])
    as Hl2.
  rewrite H2 in Hl2. cbn [snd] in Hl2.
  pose proof (removeUnusedProductCerts_log db3 (w_certs w3)) as Hl4.
  rewrite H4 in Hl4. cbn [snd] in Hl4.
  eapply pass_records in Hin; [|by repeat constructor; eauto|done..].
  destruct (install_active_records _ _ _ _ _ _ H3 _ _ Hin) as (rp & Hel & ->).
  destruct (rpmdb_new (w_rpmdb w)) eqn:Hnew; [|by apply elem_of_nil in Hel].
  apply list_elem_of_filter in Hel as [Hsup Hel].
  apply list_elem_of_omap in Hel as (r & Hr & Hcand).
  apply list_elem_of_filter in Hr as [Hen Hr].
  unfold candidate in Hcand.
  destruct (repo_md r) as [| |[]] eqn:Hmd; try done.
  destruct (repo_fetch r) as [local|] eqn:Hfetch; [|done].
  injection Hcand as <-. exists r, local. cbn [repo].
  split_and!; try done. unfold has_productid. by rewrite Hmd.
Qed.

Lemma world_parts (w w' : World) :
  w_productdb_dir w' = w_productdb_dir w -> w_gz w' = w_gz w ->
  w_db_writable w' = w_db_writable w -> w_rpmdb w' = w_rpmdb w ->
  w' = put_db_file (set_certs w (w_certs w')) (w_db_file w').
Proof. destruct w, w'. cbn. by intros -> -> -> ->. Qed.

Lemma writeRepoMap_run (productDb : ProductDb) (w : World) :
  writeRepoMap productDb w
  = if w_db_writable w
    then (set_db_file w (repoMap productDb), [DbWrite (path productDb)])
    else (w, [DbWrite (path productDb);
              Log LError "Unable to write productdb to file: %s"
                [PRODUCTDB_FILE]]).
Proof. unfold writeRepoMap, writeProductDb. by destruct (w_db_writable w). Qed.

(** X18. [pluginHook] acts on the transaction hook only. For every handle
    and hook the call comes to an end; it returns 0 without a handle and 1
    with one. Without a handle it does nothing and logs nothing. With a
    handle and a hook other than the transaction hook it writes the debug
    line with the name of the hook and does nothing else. For the
    transaction hook it first makes the directory of the database, and
    stops there with an error line when that fails; it then asks for the
    repositories and stops when there is no list; otherwise it goes
    through the whole pass. *)
Theorem pluginHook_acts_on_the_transaction_hook_only
    (handle : option PluginHandle) (id : PluginHookId) (w : World) :
  2 <= CHUNK ->
  exists h,
    pluginHook handle id w = Some h
    /\ h_ret h = match handle with Some _ => 1 | None => 0 end
    /\ (handle = None -> h_log h = [] /\ h_world h = w /\ h_pass h = None)
    /\ forall handle', handle = Some handle' ->
         (id <> PLUGIN_HOOK_ID_CONTEXT_TRANSACTION ->
          h_log h
          = [Log LDebug "%s v%s, running hook_id: %s on DNF version %d"
               [strHookId id]]
          /\ h_world h = w /\ h_pass h = None)
         /\ (id = PLUGIN_HOOK_ID_CONTEXT_TRANSACTION ->
             w_productdb_dir w = false ->
             h_log h
             = [Log LDebug "%s v%s, running hook_id: %s on DNF version %d"
                  [strHookId id];
                Mkdir PRODUCTDB_DIR;
                Log LError "Unable to create %s directory, %s"
                  [PRODUCTDB_DIR]]
             /\ h_pass h = None)
         /\ (id = PLUGIN_HOOK_ID_CONTEXT_TRANSACTION ->
             w_productdb_dir w = true ->
             ctx_repos (initData handle') = None ->
             h_log h
             = [Log LDebug "%s v%s, running hook_id: %s on DNF version %d"
                  [strHookId id];
                Mkdir PRODUCTDB_DIR; GetRepos]
             /\ h_pass h = None)
         /\ (id = PLUGIN_HOOK_ID_CONTEXT_TRANSACTION ->
             w_productdb_dir w = true ->
             is_Some (ctx_repos (initData handle')) ->
             is_Some (h_pass h)
             /\ exists rest,
                  h_log h
                  = [Log LDebug
                       "%s v%s, running hook_id: %s on DNF version %d"
                       [strHookId id];
                     Mkdir PRODUCTDB_DIR; GetRepos] ++ rest).
Proof.
  intros HC. destruct handle as [handle|].
  2:{ eexists. split; [reflexivity|]. cbn. by split_and!. }
  assert (Hcase : id = PLUGIN_HOOK_ID_CONTEXT_TRANSACTION
                  \/ id <> PLUGIN_HOOK_ID_CONTEXT_TRANSACTION)
    by (destruct id; (by left) || (by right)).
  destruct Hcase as [->|Hid].
  2:{ exists {| h_ret := 1; h_world := w;
                h_log :=
                  [Log LDebug
                     "%s v%s, running hook_id: %s on DNF version %d"
                     [strHookId id]];
                h_pass := None |}.
      split; [by destruct id|]. cbn.
      split_and!; try done; intros handle' _; by split_and!. }
  destruct (w_productdb_dir w) eqn:Hdir.
  2:{ eexists. split; [unfold pluginHook; rewrite Hdir; reflexivity|].
      cbn. split_and!; try done; intros handle' _; by split_and!. }
  destruct (ctx_repos (initData handle)) as [repos|] eqn:Hrepos.
  2:{ eexists. split; [unfold pluginHook; rewrite Hdir, Hrepos; reflexivity|].
      cbn. split_and!; try done; intros handle' [= <-].
      split_and!; try done. rewrite Hrepos. by intros _ _ [? ?]. }
  destruct (pluginHook_transaction handle w repos HC Hdir Hrepos)
    as (log1 & log2 & db3 & w3 & log3 & cs4 & log4 & w5 & log5
        & H1 & H2 & H3 & H4 & H5 & Hhook).
  eexists. split; [exact Hhook|]. cbn [h_ret h_log h_pass].
  split_and!; try done; intros handle' [= <-]. rewrite Hrepos.
  split_and!; try done; intros _ _ _. split; [by eauto|].
  by eexists.
Qed.

(** X19. The database is written once the sweep is done, under the path
    [PRODUCTDB_FILE], and the write is the last step of the pass. When it
    succeeds the persisted mapping is that of the pass; when it fails the
    persisted mapping is as before and an error is logged. Either way the
    certificate directory stays as the sweep left it: a failed write takes
    back no install and no removal. *)
Theorem pluginHook_writes_the_database_last (handle : PluginHandle)
    (w : World) (repos : list DnfRepo) :
  2 <= CHUNK ->
  w_productdb_dir w = true ->
  ctx_repos (initData handle) = Some repos ->
  exists h p log4,
    pluginHook (Some handle) PLUGIN_HOOK_ID_CONTEXT_TRANSACTION w = Some h
    /\ h_pass h = Some p
    /\ path (p_productDb p) = PRODUCTDB_FILE
    /\ removeUnusedProductCerts (p_productDb p) (p_certs p)
       = (0, w_certs (h_world h), log4)
    /\ (exists before,
          h_log h
          = before ++ log4 ++ DbWrite PRODUCTDB_FILE
              :: (if w_db_writable w then []
                  else [Log LError "Unable to write productdb to file: %s"
                          [PRODUCTDB_FILE]])
          /\ (forall x, DbWrite x ∉ before) /\ (forall x, Remove x ∉ before))
    /\ w_db_file (h_world h)
       = if w_db_writable w then Some (repoMap (p_productDb p))
         else w_db_file w.
Proof.
  intros HC Hdir Hrepos.
  destruct (pluginHook_transaction handle w repos HC Hdir Hrepos)
    as (log1 & log2 & db3 & w3 & log3 & cs4 & log4 & w5 & log5
        & H1 & H2 & H3 & H4 & H5 & Hhook).
  eexists _, _, log4. split; [exact Hhook|].
  cbn [h_pass h_log h_world]. split; [reflexivity|].
  cbn [p_productDb p_certs].
  destruct (install_active_spec _ _ _ _ _ _ H3)
    as (Hl3 & (Hw3 & _) & Hpath & _).
  cbn [path] in Hpath.
  rewrite writeRepoMap_run, Hpath in H5.
  assert (Hwr : w_db_writable (set_certs w3 cs4) = w_db_writable w)
    by (by rewrite Hw3).
  assert (Hfile : w_db_file (set_certs w3 cs4) = w_db_file w)
    by (by rewrite Hw3).
  rewrite Hwr in H5.
  apply fetch_enabled_log in H1.
  pose proof (getActive_log (initData handle) (w_rpmdb w)
                (omap candidate
                   (filter (λ r, enabled_for_packages r = true) repos)) [])
    as Hl2.
  rewrite H2 in Hl2. cbn [snd] in Hl2.
  split_and!; [done| | |].
  - destruct (w_db_writable w); injection H5 as <- _; cbn; exact H4.
  - exists ([Log LDebug "%s v%s, running hook_id: %s on DNF version %d"
               [strHookId PLUGIN_HOOK_ID_CONTEXT_TRANSACTION]]
            ++ [Mkdir PRODUCTDB_DIR; GetRepos] ++ log1 ++ log2 ++ log3).
    split_and!.
    + rewrite <- !app_assoc. do 6 f_equal.
      by destruct (w_db_writable w); injection H5 as _ <-.
    + intros x Hin. split_elem_of_in Hin. destruct_or!; try done.
      * by apply (in_log _ _ _ H1) in Hin.
      * by apply (in_log _ _ _ Hl2) in Hin.
      * by apply (in_log _ _ _ Hl3) in Hin.
    + intros x Hin. split_elem_of_in Hin. destruct_or!; try done.
      * by apply (in_log _ _ _ H1) in Hin.
      * by apply (in_log _ _ _ Hl2) in Hin.
      * by apply (in_log _ _ _ Hl3) in Hin.
  - destruct (w_db_writable w); injection H5 as <- _; cbn; [done|exact Hfile].
Qed.

(** X20. When the installed packages cannot be had, because the sack for
    the rpm database cannot be made, or the system repository cannot be
    loaded, or nothing is installed, the pass makes no record, removes every
    certificate whose name is digits and [.pem] and that can be removed,
    leaves every other file as it is, and writes an empty mapping when the
    database can be written. *)
Theorem pluginHook_without_installed_packages (handle : PluginHandle)
    (w : World) (repos : list DnfRepo) :
  2 <= CHUNK ->
  w_productdb_dir w = true ->
  ctx_repos (initData handle) = Some repos ->
  rpmdb_new (w_rpmdb w) = false \/ rpmdb_system (w_rpmdb w) = None
  \/ rpmdb_system (w_rpmdb w) = Some [] ->
  exists h,
    pluginHook (Some handle) PLUGIN_HOOK_ID_CONTEXT_TRANSACTION w = Some h
    /\ h_ret h = 1
    /\ (forall productId repoId, AddRepoId productId repoId ∉ h_log h)
    /\ (forall s, digits_only s ->
          (s +:+ ".pem") ∉ cs_frozen (w_certs w) ->
          cert_file (w_certs (h_world h)) (s +:+ ".pem") = None)
    /\ (forall f, (forall s, digits_only s -> f ≠ s +:+ ".pem") ->
          cert_file (w_certs (h_world h)) f = cert_file (w_certs w) f)
    /\ (w_db_writable w = true -> w_db_file (h_world h) = Some ∅).
Proof.
  intros HC Hdir Hrepos Hnone.
  destruct (pluginHook_transaction handle w repos HC Hdir Hrepos)
    as (log1 & log2 & db3 & w3 & log3 & cs4 & log4 & w5 & log5
        & H1 & H2 & H3 & H4 & H5 & Hhook).
  assert (Hactive :
            (if rpmdb_new (w_rpmdb w)
             then filter (supplies_installed (initData handle) (w_rpmdb w))
                    (omap candidate
                       (filter (λ r, enabled_for_packages r = true) repos))
             else []) = []).
  { destruct (rpmdb_new (w_rpmdb w)); [|done].
    apply supplies_nothing, installed_none.
    by destruct Hnone as [?|?]. }
  rewrite Hactive in H3. cbn [install_active] in H3.
  destruct (removeUnusedProductCerts_run db3 (w_certs w3))
    as (cs4' & log4' & H4' & _ & _ & _ & _ & Hf4 & _).
  rewrite H4 in H4'. injection H4' as <- <-.
  pose proof (removeUnusedProductCerts_log db3 (w_certs w3)) as Hl4.
  rewrite H4 in Hl4. cbn [snd] in Hl4.
  assert (Hdb : forall p, hasProductId db3 p = false)
    by (injection H3 as <- _ _; apply hasProductId_fresh).
  assert (Hrm : repoMap db3 = ∅) by (by injection H3 as <- _ _).
  assert (Hw : w3 = w) by (by injection H3 as _ <- _).
  assert (Hl3 : log3 = []) by (by injection H3 as _ _ <-).
  subst w3 log3. clear H3.
  eexists. split; [exact Hhook|]. cbn [h_ret h_log h_world].
  pose proof H5 as H5'.
  rewrite writeRepoMap_run in H5. cbn [path w_db_writable set_certs] in H5.
  apply fetch_enabled_log in H1.
  pose proof (getActive_log (initData handle) (w_rpmdb w)
                (omap candidate
                   (filter (λ r, enabled_for_packages r = true) repos)) [])
    as Hl2.
  rewrite H2 in Hl2. cbn [snd] in Hl2.
  assert (Hcerts : w_certs w5 = cs4)
    by (by destruct (w_db_writable w); injection H5 as <- _).
  split_and!; [done| | | |].
  - intros productId repoId Hin.
    eapply pass_records in Hin; [|by repeat constructor; eauto|done..].
    by apply elem_of_nil in Hin.
  - intros s Hs Hfree. rewrite Hcerts, Hf4.
    assert (Hd : doomed db3 (s +:+ ".pem") = true).
    { apply doomed_spec. exists s. by split_and!. }
    rewrite Hd. by rewrite bool_decide_eq_true_2.
  - intros f Hf. rewrite Hcerts, Hf4.
    destruct (doomed _ f) eqn:Hd; [|done].
    apply doomed_spec in Hd as (s & -> & Hs & _). by destruct (Hf s Hs).
  - intros Hwr. rewrite Hwr in H5. injection H5 as <- _. cbn.
    by rewrite Hrm.
Qed.

End PassMore.

(** ** A second pass *)

Lemma akin_refl (w : World) : akin w w.
Proof. by unfold akin. Qed.

Lemma akin_trans (w1 w2 w3 : World) : akin w1 w2 -> akin w2 w3 -> akin w1 w3.
Proof.
  unfold akin. intros (?&?&?&?&?&?&?) (?&?&?&?&?&?&?).
  split_and!; congruence.
Qed.

Lemma akin_set_certs (w : World) (cs : CertStore) :
  cs_unwritable cs = cs_unwritable (w_certs w) ->
  cs_frozen cs = cs_frozen (w_certs w) ->
  cert_dir_usable cs = cert_dir_usable (w_certs w) ->
  akin w (set_certs w cs).
Proof. unfold akin. cbn. by intros -> -> ->. Qed.

Lemma cert_dir_usable_kept (cs cs' : CertStore) :
  cs_creatable cs' = cs_creatable cs ->
  (is_Some (cs_dir cs') <-> cert_dir_usable cs = true) ->
  cert_dir_usable cs' = cert_dir_usable cs.
Proof.
  intros Hc Hd. unfold cert_dir_usable at 1. rewrite Hc.
  destruct (cert_dir_usable cs) eqn:Huse.
  - rewrite bool_decide_eq_true_2; [done|]. by apply Hd.
  - rewrite bool_decide_eq_false_2.
    + unfold cert_dir_usable in Huse. by apply orb_false_iff in Huse as [_ ->].
    + intros H. by apply Hd in H.
Qed.

Section AgainFacts.
Context `{hdr : ProductIdH} `{pem : Pem} `{stk : Stack}.

(** An install in two worlds that are akin goes the same way, and a file
    that it leaves different from what it was is the certificate of a
    product id that it has recorded. *)
Lemma installProductId_akin (rp : RepoProductId) (productDb : ProductDb)
    (w v : World) :
  2 <= CHUNK -> akin w v ->
  exists ret db' w' v' log logv,
    installProductId rp productDb w = Some (ret, db', w', log)
    /\ installProductId rp productDb v = Some (ret, db', v', logv)
    /\ akin w w' /\ akin w' v'
    /\ forall f,
         (cert_file (w_certs w') f = cert_file (w_certs w) f
          /\ cert_file (w_certs v') f = cert_file (w_certs v) f)
         \/ (cert_file (w_certs w') f = cert_file (w_certs v') f
             /\ exists p, f = p +:+ ".pem" /\ hasProductId db' p = true).
Proof.
  intros HC Hakin.
  pose proof Hakin as (Hd & Hgz & Hwr & Hrpm & Hu & Hz & Huse).
  pose proof (installProductId_run rp productDb w HC) as Hw.
  pose proof (installProductId_run rp productDb v HC) as Hv.
  rewrite Hgz in Hv.
  destruct (w_gz w !! productIdPath rp) as [[data ending]|].
  2:{ destruct Hw as (log & -> & _), Hv as (logv & -> & _).
      eexists _, _, _, _, _, _.
      split_and!; try done; try apply akin_refl. intros f. by left. }
  destruct (faulty ending).
  { destruct Hw as (log & -> & _), Hv as (logv & -> & _).
    eexists _, _, _, _, _, _.
    split_and!; try done; try apply akin_refl. intros f. by left. }
  cbn zeta in Hw, Hv.
  destruct Hw as (cs & log & Hc1 & Hu1 & Hz1 & _ & Hd1 & Hw).
  destruct Hv as (csv & logv & Hc2 & Hu2 & Hz2 & _ & Hd2 & Hv).
  rewrite Huse, Hu in Hv.
  assert (Ha : akin w (set_certs w cs)).
  { apply akin_set_certs; [done|done|]. by apply cert_dir_usable_kept. }
  assert (Hb : akin (set_certs w cs) (set_certs v csv)).
  { unfold akin. cbn. split_and!; try done; [congruence|congruence|].
    rewrite (cert_dir_usable_kept (w_certs w) cs) by done.
    rewrite (cert_dir_usable_kept (w_certs v) csv) by done. done. }
  destruct (_ && _).
  - destruct Hw as (-> & _ & Hf1), Hv as (-> & _ & Hf2).
    eexists _, _, _, _, _, _. split_and!; try done.
    intros f. cbn [w_certs set_certs]. rewrite Hf1, Hf2.
    destruct (decide (f = install_name (last_chunk_text data))) as [->|Hne].
    + right. rewrite !bool_decide_eq_true_2 by done. split; [done|].
      eexists. split; [reflexivity|]. apply hasProductId_addRepoId. by left.
    + left. by rewrite !bool_decide_eq_false_2.
  - destruct Hw as (-> & _ & Hf1), Hv as (-> & _ & Hf2).
    eexists _, _, _, _, _, _. split_and!; try done.
    intros f. left. cbn. by rewrite Hf1, Hf2.
Qed.

Lemma install_active_akin (active : list RepoProductId) :
  2 <= CHUNK ->
  forall (productDb : ProductDb) (w v : World),
  akin w v ->
  exists db' w' v' log logv,
    install_active active productDb w = Some (db', w', log)
    /\ install_active active productDb v = Some (db', v', logv)
    /\ akin w w' /\ akin w' v'
    /\ forall f,
         (cert_file (w_certs w') f = cert_file (w_certs w) f
          /\ cert_file (w_certs v') f = cert_file (w_certs v) f)
         \/ (cert_file (w_certs w') f = cert_file (w_certs v') f
             /\ exists p, f = p +:+ ".pem" /\ hasProductId db' p = true).
Proof.
  intros HC. induction active as [|rp rest IH]; intros productDb w v Hakin;
    cbn [install_active].
  - eexists _, _, _, _, _. split_and!; try done; try apply akin_refl.
    intros f. by left.
  - destruct (installProductId_akin rp productDb w v HC Hakin)
      as (ret & db1 & w1 & v1 & log1 & logv1 & -> & -> & Ha1 & Hb1 & Hf1).
    destruct (IH db1 w1 v1 Hb1)
      as (db2 & w2 & v2 & log2 & logv2 & Hw2 & Hv2 & Ha2 & Hb2 & Hf2).
    rewrite Hw2, Hv2. eexists _, _, _, _, _. split_and!; try done.
    + by apply (akin_trans _ w1).
    + intros f. destruct (Hf2 f) as [[Hw Hv]|Hsame]; [|by right].
      destruct (Hf1 f) as [[Hw' Hv']|[Heq (p & -> & Hhas)]].
      * left. split; congruence.
      * right. split; [congruence|]. exists p. split; [done|].
        destruct (install_active_spec _ _ _ _ _ _ Hw2) as (_&_&_&Hkeep&_).
        apply Hkeep. by left.
Qed.

(** X21. A second pass changes nothing. Take a pass that has the directory
    of the database and the list of the repositories, in a world in which
    no name that [fopen] cannot open can be removed. Take then a pass with
    the same context, in which the downloads go as in the first, in a world
    that has the directory of certificates and the persisted mapping as the
    first pass left them, and in which the directory of the database, the
    productid files, the rpm database and the way the write of the database
    goes are as in the first. This second pass comes to the same database
    and the same active repositories, leaves every certificate file and
    the persisted mapping as they are, and the only files it tries to
    remove are those that cannot be removed. *)
Theorem pluginHook_second_pass_changes_nothing (handle : PluginHandle)
    (w : World) (repos : list DnfRepo) :
  2 <= CHUNK ->
  w_productdb_dir w = true ->
  ctx_repos (initData handle) = Some repos ->
  cs_unwritable (w_certs w) ⊆ cs_frozen (w_certs w) ->
  exists h p,
    pluginHook (Some handle) PLUGIN_HOOK_ID_CONTEXT_TRANSACTION w = Some h
    /\ h_pass h = Some p
    /\ forall v : World,
         w_certs v = w_certs (h_world h) ->
         w_db_file v = w_db_file (h_world h) ->
         w_productdb_dir v = true ->
         w_gz v = w_gz w ->
         w_rpmdb v = w_rpmdb w ->
         w_db_writable v = w_db_writable w ->
         exists h' p',
           pluginHook (Some handle) PLUGIN_HOOK_ID_CONTEXT_TRANSACTION v
           = Some h'
           /\ h_pass h' = Some p'
           /\ p_productDb p' = p_productDb p
           /\ p_activeRepoAndProductIds p' = p_activeRepoAndProductIds p
           /\ (forall f, cert_file (w_certs (h_world h')) f
                         = cert_file (w_certs v) f)
           /\ w_db_file (h_world h') = w_db_file v
           /\ (forall f, Remove (PRODUCT_CERT_DIR +:+ f) ∈ h_log h' ->
                         f ∈ cs_frozen (w_certs w)).
Proof.
  intros HC Hdir Hrepos Hsub.
  destruct (pluginHook_transaction handle w repos HC Hdir Hrepos)
    as (log1 & log2 & db3 & w3 & log3 & cs4 & log4 & w5 & log5
        & H1 & H2 & H3 & H4 & H5 & Hhook).
  set (rps := omap candidate
                (filter (λ r, enabled_for_packages r = true) repos)) in *.
  set (db0 := {| path := PRODUCTDB_FILE; repoMap := repoMap initProductDb |})
    in *.
  set (active :=
         if rpmdb_new (w_rpmdb w)
         then filter (supplies_installed (initData handle) (w_rpmdb w)) rps
         else []) in *.
  destruct (install_active_akin active HC db0 w w (akin_refl w))
    as (db3' & w3' & _ & log3' & _ & H3' & _ & Hw3 & _).
  rewrite H3 in H3'. injection H3' as <- <- <-.
  destruct (removeUnusedProductCerts_run db3 (w_certs w3))
    as (cs4' & log4' & H4' & Hc4 & Hz4 & He4 & Hd4 & Hf4 & _).
  rewrite H4 in H4'. injection H4' as <- <-.
  pose proof Hw3 as (_ & _ & Hwr3 & _ & Hu3 & Hz3 & Huse3).
  assert (Hu4 : cs_unwritable cs4 = cs_unwritable (w_certs w3)).
  { apply (removeUnusedProductCerts_keeps_unwritable _ _ _ _ _ H4).
    by rewrite Hu3, Hz3. }
  destruct (install_active_spec _ _ _ _ _ _ H3) as (_ & (Hset3 & _) & _).
  rewrite writeRepoMap_run in H5. cbn [w_db_writable set_certs] in H5.
  assert (Hw5 : w5 = (if w_db_writable w3
                      then set_db_file (set_certs w3 cs4) (repoMap db3)
                      else set_certs w3 cs4))
    by (by destruct (w_db_writable w3); injection H5 as <- _).
  assert (Hcerts5 : w_certs w5 = cs4)
    by (rewrite Hw5; by destruct (w_db_writable w3)).
  assert (Hfile5 : w_db_file w5
                   = if w_db_writable w then Some (repoMap db3)
                     else w_db_file w).
  { rewrite Hw5, Hwr3. destruct (w_db_writable w); cbn; [done|].
    by rewrite Hset3. }
  assert (Huse4 : cert_dir_usable cs4 = cert_dir_usable (w_certs w3)).
  { unfold cert_dir_usable. rewrite Hc4.
    destruct (decide (is_Some (cs_dir (w_certs w3)))) as [Hs|Hs].
    - rewrite !bool_decide_eq_true_2; [done|done|by apply Hd4].
    - rewrite !bool_decide_eq_false_2; [done|done|]. by rewrite Hd4. }
  eexists _, _. split; [exact Hhook|]. cbn [h_pass h_world].
  split; [reflexivity|]. cbn [p_productDb p_activeRepoAndProductIds].
  intros v Hvc Hvf Hvd Hvgz Hvrpm Hvwr.
  rewrite Hcerts5 in Hvc.
  assert (Hakin : akin w v).
  { unfold akin. rewrite Hvc. split_and!; try done; congruence. }
  destruct (pluginHook_transaction handle v repos HC Hvd Hrepos)
    as (log1' & log2' & db6 & w6 & log6 & cs7 & log7 & w8 & log8
        & G1 & G2 & G3 & G4 & G5 & Ghook).
  fold rps in G1, G2, G3, Ghook. rewrite Hvrpm in G2, G3, Ghook.
  fold db0 in G3. fold active in G2, G3, Ghook.
  destruct (install_active_akin active HC db0 w v Hakin)
    as (db3' & w3' & w6' & log3' & log6' & H3' & G3' & _ & Hakin6 & Hfiles).
  rewrite H3 in H3'. injection H3' as <- <- <-.
  rewrite G3 in G3'. injection G3' as -> <- <-.
  destruct (removeUnusedProductCerts_run db3 (w_certs w6))
    as (cs7' & log7' & G4' & _ & _ & _ & _ & Gf4 & Gr4).
  rewrite G4 in G4'. injection G4' as <- <-.
  destruct (install_active_spec _ _ _ _ _ _ G3)
    as (Gl3 & (Gset6 & _) & _).
  pose proof Hakin6 as (_ & _ & Hwr6 & _ & _ & Hz6 & _).
  pose proof G5 as G5'.
  rewrite writeRepoMap_run in G5. cbn [w_db_writable set_certs] in G5.
  assert (Hcerts8 : w_certs w8 = cs7)
    by (by destruct (w_db_writable w6); injection G5 as <- _).
  assert (Hsame : forall f, cert_file cs7 f = cert_file cs4 f).
  { intros f. rewrite Gf4, Hf4, Hz6.
    destruct (doomed db3 f && bool_decide (f ∉ cs_frozen (w_certs w3)))
      eqn:Hd; [done|].
    destruct (Hfiles f) as [[_ Hv]|[Heq _]]; [|done].
    by rewrite Hv, Hvc, Hf4, Hd. }
  eexists _, _. split; [exact Ghook|]. cbn [h_pass h_world h_log].
  split; [reflexivity|].
  cbn [p_productDb p_activeRepoAndProductIds]. split_and!; [done|done| | |].
  - intros f. by rewrite Hcerts8, Hvc.
  - assert (Hf6 : w_db_file w6 = w_db_file v) by (by rewrite Gset6).
    rewrite Hwr6, Hwr3 in G5. rewrite Hvf, Hfile5.
    destruct (w_db_writable w); injection G5 as <- _; cbn; [done|].
    by rewrite Hf6, Hvf, Hfile5.
  - intros f Hin.
    apply fetch_enabled_log in G1.
    pose proof (getActive_log (initData handle) (w_rpmdb w) rps []) as Gl2.
    rewrite G2 in Gl2. cbn [snd] in Gl2.
    assert (Hin7 : Remove (PRODUCT_CERT_DIR +:+ f) ∈ log7).
    { destruct (writeRepoMap_spec _ _ _ _ G5') as [_ Gl5].
      split_elem_of_in Hin. destruct_or!; try done.
      - by apply (in_log _ _ _ G1) in Hin.
      - by apply (in_log _ _ _ Gl2) in Hin.
      - by apply (in_log _ _ _ Gl3) in Hin.
      - apply Gl5 in Hin. naive_solver. }
    apply Gr4 in Hin7 as [Hex Hdoomed].
    destruct (decide (f ∈ cs_frozen (w_certs w))) as [|Hfree]; [done|].
    exfalso.
    destruct (Hfiles f) as [[_ Hv]|[_ (p & -> & Hhas)]].
    + rewrite Hv, Hvc, Hf4, Hdoomed, Hz3 in Hex.
      rewrite bool_decide_eq_true_2 in Hex by done.
      by destruct Hex.
    + rewrite doomed_recorded in Hdoomed by done. done.
Qed.

End AgainFacts.

(** ** The installs of a pass *)

Lemma repos_of_hasProductId (productDb : ProductDb) (p r : string) :
  r ∈ repos_of productDb p -> hasProductId productDb p = true.
Proof.
  unfold repos_of, hasProductId. intros Hin. apply bool_decide_eq_true.
  destruct (repoMap productDb !! p); [by eauto|]. cbn in Hin. set_solver.
Qed.

Section LiveFacts.
Context `{hdr : ProductIdH} `{pem : Pem} `{stk : Stack}.

(** Every repository of the list whose productid file can be read and
    written is recorded, with its certificate in the directory, when the
    loop over the list has ended. *)
Lemma install_active_installs (active : list RepoProductId) :
  2 <= CHUNK ->
  forall (productDb db' : ProductDb) (w w' : World) (log : list event),
  install_active active productDb w = Some (db', w', log) ->
  forall rp data ending,
  rp ∈ active ->
  w_gz w !! productIdPath rp = Some (data, ending) ->
  faulty ending = false ->
  cert_dir_usable (w_certs w) = true ->
  install_name (last_chunk_text data) ∉ cs_unwritable (w_certs w) ->
  dnf_repo_get_id (repo rp)
  ∈ repos_of db' (f_result (findProductId (last_chunk_text data) EmptyString))
  /\ is_Some (cert_file (w_certs w') (install_name (last_chunk_text data))).
Proof.
  intros HC. induction active as [|rp0 rest IH];
    intros productDb db' w w' log Hrun rp data ending Hel Hgz Hok Huse Hfree.
  { by apply elem_of_nil in Hel. }
  cbn [install_active] in Hrun.
  destruct (installProductId_akin rp0 productDb w w HC (akin_refl w))
    as (ret & db1 & w1 & _ & log1 & _ & Hinst & _ & Hakin & _).
  rewrite Hinst in Hrun.
  destruct (install_active rest db1 w1) as [[[db2 w2] log2]|] eqn:Hrest;
    [|done].
  injection Hrun as <- <- <-.
  destruct Hakin as (_ & Hgz1 & _ & _ & Hu1 & Hz1 & Huse1).
  apply elem_of_cons in Hel as [->|Hel].
  - pose proof (installProductId_run rp0 productDb w HC) as Hrun0.
    rewrite Hgz, Hok in Hrun0. cbn zeta in Hrun0.
    destruct Hrun0 as (cs & log0 & _ & _ & _ & _ & _ & Hrun0).
    rewrite Huse in Hrun0. rewrite bool_decide_eq_true_2 in Hrun0 by done.
    cbn [andb] in Hrun0. destruct Hrun0 as (Hinst0 & _ & Hfiles).
    rewrite Hinst in Hinst0. injection Hinst0 as -> -> -> ->.
    destruct (install_active_spec _ _ _ _ _ _ Hrest)
      as (_ & (_ & _ & _ & _ & Hgrow) & _ & _ & Hrep & _).
    split.
    + apply Hrep. left. apply repos_of_addRepoId. by left.
    + apply Hgrow. cbn [w_certs set_certs]. rewrite Hfiles.
      rewrite bool_decide_eq_true_2 by done. by eauto.
  - apply (IH _ _ _ _ _ Hrest rp data ending Hel); congruence.
Qed.

(** X22. A pass installs for every repository that passes its tests. A
    repository that is enabled for packages, has a record of type productid,
    whose download succeeded and that supplies an installed package is
    recorded in the database of the pass under the product id of its
    certificate, and the certificate file of that product id is in the
    directory when the pass ends, provided that the productid file can be
    read without an error of the decoder and the certificate file can be
    written. *)
Theorem pluginHook_installs_for_every_active_repository
    (handle : PluginHandle) (w : World) (repos : list DnfRepo)
    (repo : DnfRepo) (local : string) (data : list byte)
    (ending : gz_ending) :
  2 <= CHUNK ->
  w_productdb_dir w = true ->
  ctx_repos (initData handle) = Some repos ->
  repo ∈ repos ->
  enabled_for_packages repo = true ->
  has_productid repo = true ->
  repo_fetch repo = Some local ->
  rpmdb_new (w_rpmdb w) = true ->
  supplies_installed (initData handle) (w_rpmdb w)
    {| repo := repo; productIdPath := local |} ->
  w_gz w !! local = Some (data, ending) ->
  faulty ending = false ->
  cert_dir_usable (w_certs w) = true ->
  install_name (last_chunk_text data) ∉ cs_unwritable (w_certs w) ->
  exists h p,
    pluginHook (Some handle) PLUGIN_HOOK_ID_CONTEXT_TRANSACTION w = Some h
    /\ h_pass h = Some p
    /\ let productId :=
         f_result (findProductId (last_chunk_text data) EmptyString) in
       AddRepoId productId (dnf_repo_get_id repo) ∈ h_log h
       /\ dnf_repo_get_id repo ∈ repos_of (p_productDb p) productId
       /\ is_Some (cert_file (w_certs (h_world h)) (productId +:+ ".pem")).
Proof.
  intros HC Hdir Hrepos Hel Hen Hrec Hfetch Hnew Hsup Hgz Hok Huse Hfree.
  destruct (pluginHook_transaction handle w repos HC Hdir Hrepos)
    as (log1 & log2 & db3 & w3 & log3 & cs4 & log4 & w5 & log5
        & H1 & H2 & H3 & H4 & H5 & Hhook).
  rewrite Hnew in H3.
  set (rp := {| repo := repo; productIdPath := local |}) in *.
  assert (Hactive :
            rp ∈ filter (supplies_installed (initData handle) (w_rpmdb w))
                   (omap candidate
                      (filter (λ r, enabled_for_packages r = true) repos))).
  { apply list_elem_of_filter. split; [done|].
    apply list_elem_of_omap. exists repo. split.
    - by apply list_elem_of_filter.
    - unfold candidate. unfold has_productid in Hrec.
      destruct (repo_md repo) as [| |[]]; try done. by rewrite Hfetch. }
  destruct (install_active_installs _ HC _ _ _ _ _ H3 rp data ending
              Hactive Hgz Hok Huse Hfree) as [Hrepo Hfile].
  destruct (install_active_spec _ _ _ _ _ _ H3)
    as (_ & (_ & _ & Hz3 & _) & _ & _ & Hrep & _).
  destruct (removeUnusedProductCerts_run db3 (w_certs w3))
    as (cs4' & log4' & H4' & _ & _ & _ & _ & Hf4 & _).
  rewrite H4 in H4'. injection H4' as <- <-.
  destruct (writeRepoMap_spec _ _ _ _ H5) as [Hc5 _].
  eexists _, _. split; [exact Hhook|]. cbn [h_pass h_log h_world].
  split; [reflexivity|]. cbn zeta. cbn [p_productDb]. split_and!.
  - apply Hrep in Hrepo as [Hrepo|Hrepo].
    + by apply repos_of_fresh in Hrepo.
    + split_elem_of. by auto 10.
  - exact Hrepo.
  - rewrite Hc5. cbn [w_certs set_certs]. rewrite Hf4.
    rewrite doomed_recorded by (by eapply repos_of_hasProductId).
    exact Hfile.
Qed.

End LiveFacts.

Lemma pluginHook_installs_for_every_active_repository_witness :
  exists h p,
    pluginHook (hdr := sample_header) (pem := sample_pem)
      (stk := sample_stack) (Some sample_handle)
      PLUGIN_HOOK_ID_CONTEXT_TRANSACTION sample_world = Some h
    /\ h_pass h = Some p
    /\ AddRepoId "69" "repo-a" ∈ h_log h
    /\ "repo-a" ∈ repos_of (p_productDb p) "69"
    /\ is_Some (cert_file (w_certs (h_world h)) "69.pem").
Proof.
  apply (pluginHook_installs_for_every_active_repository
           (hdr := sample_header) (pem := sample_pem) (stk := sample_stack)
           sample_handle sample_world [repo_a; repo_b] repo_a
           "/var/cache/dnf/repo-a/productid.gz" (bytes_of "CERT 69")
           Complete).
  - cbn; lia.
  - reflexivity.
  - reflexivity.
  - apply list_elem_of_here.
  - reflexivity.
  - reflexivity.
  - reflexivity.
  - reflexivity.
  - apply (bool_decide_unpack _). vm_compute. exact I.
  - vm_compute; reflexivity.
  - reflexivity.
  - vm_compute; reflexivity.
  - cbn. apply not_elem_of_empty.
Defined.

(** ** [pluginInitHandle]: the handle and the hooks that follow *)

Section HandleMore.
Context `{hdr : ProductIdH} `{pem : Pem} `{stk : Stack}.

(** X23. [pluginInitHandle] gives a handle exactly when the version is the
    one supported, the mode is that of a context and the allocation
    succeeds; the handle then holds the version and the context it was
    given. When it gives none, every hook called with its result returns 0,
    logs nothing and leaves the world as it is. *)
Theorem pluginInitHandle_gives_a_handle_exactly_when
    (SUPPORTED_LIBDNF_PLUGIN_API_VERSION : Z) (malloc : bool) (v : Z)
    (m : mode_value) (context : DnfContext) :
  let handle :=
    (pluginInitHandle SUPPORTED_LIBDNF_PLUGIN_API_VERSION malloc v m
       context).1 in
  (is_Some handle
   <-> v = SUPPORTED_LIBDNF_PLUGIN_API_VERSION
       /\ m = Mode PLUGIN_MODE_CONTEXT /\ malloc = true)
  /\ (forall h, handle = Some h -> version h = v /\ initData h = context)
  /\ (handle = None ->
      forall id w,
        pluginHook handle id w
        = Some {| h_ret := 0; h_world := w; h_log := []; h_pass := None |}).
Proof.
  cbn zeta. unfold pluginInitHandle.
  destruct (v =? SUPPORTED_LIBDNF_PLUGIN_API_VERSION) eqn:Hv; cbn [negb].
  - apply Z.eqb_eq in Hv. destruct m as [[]|n].
    + destruct malloc; cbn [fst].
      * split_and!; [|by intros h [= <-]|done].
        split; [done|by eauto].
      * split_and!; [|done|done]. split; [by intros [? ?]|].
        by intros (_ & _ & ?).
    + cbn [fst]. split_and!; [|done|done]. split; [by intros [? ?]|].
      by intros (_ & ? & _).
  - apply Z.eqb_neq in Hv. cbn [fst]. split_and!; [|done|done].
    split; [by intros [? ?]|]. by intros (? & _).
Qed.

End HandleMore.

(** ** The statements above on the sample data *)

Lemma getActive_without_installed_packages_witness :
  (getActive sample_context (w_rpmdb sample_world_no_rpmdb) [rp_a; rp_b] []).1
  = []
  /\ comparisons
       (getActive sample_context (w_rpmdb sample_world_no_rpmdb)
          [rp_a; rp_b] []).2
     = 0%nat.
Proof.
  apply (getActive_without_installed_packages sample_context
           (w_rpmdb sample_world_no_rpmdb) [rp_a; rp_b] []).
  right. left. reflexivity.
Defined.

Lemma findProductId_result_is_digits_witness :
  f_ret (findProductId (hdr := sample_header) (pem := sample_pem)
           (bytes_of "CERT 69") EmptyString) = 1
  /\ digits_only
       (f_result (findProductId (hdr := sample_header) (pem := sample_pem)
                    (bytes_of "CERT 69") EmptyString)).
Proof.
  assert (H : f_ret (findProductId (hdr := sample_header) (pem := sample_pem)
                       (bytes_of "CERT 69") EmptyString) = 1)
    by (vm_compute; reflexivity).
  split; [exact H|].
  exact (findProductId_result_is_digits (hdr := sample_header)
           (pem := sample_pem) (bytes_of "CERT 69") EmptyString H).
Defined.

Lemma pluginHook_selects_repositories_witness :
  exists h p,
    pluginHook (hdr := sample_header) (pem := sample_pem)
      (stk := sample_stack) (Some sample_handle)
      PLUGIN_HOOK_ID_CONTEXT_TRANSACTION sample_world = Some h
    /\ h_pass h = Some p
    /\ p_repoAndProductIds p
       = omap candidate
           (filter (λ r, enabled_for_packages r = true) [repo_a; repo_b])
    /\ p_activeRepoAndProductIds p
       = (if rpmdb_new (w_rpmdb sample_world)
          then filter (supplies_installed (initData sample_handle)
                         (w_rpmdb sample_world))
                 (p_repoAndProductIds p)
          else [])
    /\ forall productId repoId,
         AddRepoId productId repoId ∈ h_log h ->
         exists repo local,
           repo ∈ [repo_a; repo_b] /\ repoId = dnf_repo_get_id repo
           /\ enabled_for_packages repo = true
           /\ has_productid repo = true
           /\ repo_fetch repo = Some local
           /\ rpmdb_new (w_rpmdb sample_world) = true
           /\ supplies_installed (initData sample_handle)
                (w_rpmdb sample_world)
                {| repo := repo; productIdPath := local |}.
Proof.
  apply (pluginHook_selects_repositories (hdr := sample_header)
           (pem := sample_pem) (stk := sample_stack) sample_handle
           sample_world [repo_a; repo_b]).
  - cbn; lia.
  - reflexivity.
  - reflexivity.
Defined.

Lemma pluginHook_acts_on_the_transaction_hook_only_witness :
  exists h,
    pluginHook (hdr := sample_header) (pem := sample_pem)
      (stk := sample_stack) (Some sample_handle)
      PLUGIN_HOOK_ID_CONTEXT_PRE_TRANSACTION sample_world = Some h
    /\ h_ret h = 1
    /\ h_log h
       = [Log LDebug "%s v%s, running hook_id: %s on DNF version %d"
            [strHookId PLUGIN_HOOK_ID_CONTEXT_PRE_TRANSACTION]]
    /\ h_world h = sample_world /\ h_pass h = None.
Proof.
  destruct (pluginHook_acts_on_the_transaction_hook_only
              (hdr := sample_header) (pem := sample_pem)
              (stk := sample_stack) (Some sample_handle)
              PLUGIN_HOOK_ID_CONTEXT_PRE_TRANSACTION sample_world)
    as (h & Hhook & Hret & _ & Hwith).
  - cbn; lia.
  - destruct (Hwith sample_handle eq_refl) as (Hother & _).
    destruct (Hother ltac:(discriminate)) as (Hlog & Hworld & Hpass).
    exists h. by split_and!.
Defined.

Lemma pluginHook_writes_the_database_last_witness :
  exists h p log4,
    pluginHook (hdr := sample_header) (pem := sample_pem)
      (stk := sample_stack) (Some sample_handle)
      PLUGIN_HOOK_ID_CONTEXT_TRANSACTION sample_world = Some h
    /\ h_pass h = Some p
    /\ path (p_productDb p) = @PRODUCTDB_FILE sample_header
    /\ removeUnusedProductCerts (hdr := sample_header) (p_productDb p)
         (p_certs p)
       = (0, w_certs (h_world h), log4)
    /\ w_db_file (h_world h) = Some (repoMap (p_productDb p)).
Proof.
  destruct (pluginHook_writes_the_database_last (hdr := sample_header)
              (pem := sample_pem) (stk := sample_stack) sample_handle
              sample_world [repo_a; repo_b])
    as (h & p & log4 & Hhook & Hpass & Hpath & Hsweep & _ & Hfile).
  - cbn; lia.
  - reflexivity.
  - reflexivity.
  - exists h, p, log4. by split_and!.
Defined.

Lemma pluginHook_without_installed_packages_witness :
  exists h,
    pluginHook (hdr := sample_header) (pem := sample_pem)
      (stk := sample_stack) (Some sample_handle)
      PLUGIN_HOOK_ID_CONTEXT_TRANSACTION sample_world_no_rpmdb = Some h
    /\ (forall productId repoId, AddRepoId productId repoId ∉ h_log h)
    /\ cert_file (w_certs (h_world h)) "42.pem" = None
    /\ cert_file (w_certs (h_world h)) "99.pem" = None
    /\ cert_file (w_certs (h_world h)) "abc.pem" = Some (bytes_of "STRAY")
    /\ w_db_file (h_world h) = Some ∅.
Proof.
  destruct (pluginHook_without_installed_packages (hdr := sample_header)
              (pem := sample_pem) (stk := sample_stack) sample_handle
              sample_world_no_rpmdb [repo_a; repo_b])
    as (h & Hhook & _ & Hnone & Hgone & Hkept & Hfile).
  - cbn; lia.
  - reflexivity.
  - reflexivity.
  - right. left. reflexivity.
  - exists h. split_and!; [exact Hhook|exact Hnone| | | |by apply Hfile].
    + apply (Hgone "42"); [by apply is_num_spec|apply not_elem_of_empty].
    + apply (Hgone "99"); [by apply is_num_spec|apply not_elem_of_empty].
    + rewrite Hkept; [by vm_compute|].
      intros s Hs Heq.
      assert (Hstem : stem "abc.pem" = s) by (rewrite Heq; apply stem_pem).
      apply is_num_spec in Hs. rewrite <- Hstem in Hs. by vm_compute in Hs.
Defined.

Lemma pluginHook_second_pass_changes_nothing_witness :
  exists h h',
    pluginHook (hdr := sample_header) (pem := sample_pem)
      (stk := sample_stack) (Some sample_handle)
      PLUGIN_HOOK_ID_CONTEXT_TRANSACTION sample_world = Some h
    /\ pluginHook (hdr := sample_header) (pem := sample_pem)
         (stk := sample_stack) (Some sample_handle)
         PLUGIN_HOOK_ID_CONTEXT_TRANSACTION (h_world h) = Some h'
    /\ (forall f, cert_file (w_certs (h_world h')) f
                  = cert_file (w_certs (h_world h)) f)
    /\ w_db_file (h_world h') = w_db_file (h_world h)
    /\ (forall f, Remove (@PRODUCT_CERT_DIR sample_header +:+ f) ∈ h_log h' ->
                  f ∈ cs_frozen (w_certs sample_world)).
Proof.
  destruct (pluginHook_second_pass_changes_nothing
              (hdr := sample_header) (pem := sample_pem)
              (stk := sample_stack) sample_handle sample_world
              [repo_a; repo_b])
    as (h & p & H1 & Hp & Hagain).
  - cbn; lia.
  - reflexivity.
  - reflexivity.
  - cbn. apply empty_subseteq.
  - assert (Hh : Some h
                 = pluginHook (hdr := sample_header) (pem := sample_pem)
                     (stk := sample_stack) (Some sample_handle)
                     PLUGIN_HOOK_ID_CONTEXT_TRANSACTION sample_world)
      by (by rewrite H1).
    vm_compute in Hh. injection Hh as Hh.
    destruct (Hagain (h_world h))
      as (h' & p' & H2 & _ & _ & _ & Hfiles & Hdb & Hrem);
      try (rewrite Hh; reflexivity); try reflexivity.
    exists h, h'. by split_and!.
Defined.

Lemma findProductId_tenth_arc_witness :
  f_ret (findProductId (hdr := sample_header) (pem := sample_pem)
           (bytes_of "CERT 69") EmptyString) = 1
  /\ f_result (findProductId (hdr := sample_header) (pem := sample_pem)
                 (bytes_of "CERT 69") EmptyString) = pretty 69%N.
Proof.
  apply (findProductId_tenth_arc (hdr := sample_header) (pem := sample_pem)
           (bytes_of "CERT 69") (bytes_of "CERT 69") cert_69 EmptyString
           [ {| ext_object := [2; 5; 29; 19]%N |} ]
           [ {| ext_object := vendor_oid 70 |} ]
           {| ext_object := vendor_oid 69 |} 69%N).
  - reflexivity.
  - reflexivity.
  - reflexivity.
  - repeat constructor.
  - reflexivity.
  - vm_compute; reflexivity.
  - reflexivity.
Defined.
